(** * extract_poses: camera poses of a reconstruction as stamped poses

    A shallow embedding of [extract_poses.py] and the properties of its
    timestamp derivation, axis-convention transform, frame ordering and
    per-record error policy.

    Conventions of the embedding.
    - A Python [float] is an IEEE 754 binary64 number: a [spec_float] of the
      Standard Library with precision 53 and maximal exponent 1024, computed
      with the library's correctly rounded operations (round to nearest,
      ties to even).  Nothing is idealised to real arithmetic.
    - A Python [int] is a [Z].
    - A Python [str] is a [string]: its characters are the code points
      0..255, on which the regular expression class [\d] is [0-9] and the
      order of [str] is the order of the code points.
    - A raised exception is a value of [exn]; a computation that can raise
      returns a [result].
    - An array of numpy is a list of rows with its element type, int64 or
      float64; an int64 is a [Z] read modulo [2^64].
    - The run is modelled from the point where the descriptor is loaded
      and the frame rate resolved; what it prints to the error stream and
      the file it writes are fields of the result. *)

From Stdlib Require Import ZArith List String Ascii Bool Lia Sorted Permutation.
From Stdlib Require Import SpecFloat DecimalString.
Import ListNotations.

Local Open Scope string_scope.
Local Open Scope Z_scope.

(** ** Exceptions and fallible computations *)

(** The exception classes the program can meet, each with the text that
    [str(e)] prints. *)
Inductive exn : Type :=
| ValueError (msg : string)
| KeyError (key : string)
| OverflowError (msg : string)
| ZeroDivisionError (msg : string)
| IndexError (msg : string).

Inductive result (A : Type) : Type :=
| Ok (a : A)
| Raise (e : exn).

Arguments Ok {A} a.
Arguments Raise {A} e.

Definition bind {A B : Type} (r : result A) (k : A -> result B) : result B :=
  match r with
  | Ok a => k a
  | Raise e => Raise e
  end.

Notation "x <- r ;; k" := (bind r (fun x => k))
  (at level 61, r at next level, right associativity).
Notation "' p <- r ;; k" := (bind r (fun p => k))
  (at level 61, p pattern, r at next level, right associativity).

(** ** Binary64 floating point *)

Module Float.

Definition prec : Z := 53.
Definition emax : Z := 1024.

Definition float : Type := spec_float.

Definition add : float -> float -> float := SFadd prec emax.
Definition sub : float -> float -> float := SFsub prec emax.
Definition mul : float -> float -> float := SFmul prec emax.
Definition div : float -> float -> float := SFdiv prec emax.
Definition sqrt : float -> float := SFsqrt prec emax.
Definition ltb : float -> float -> bool := SFltb.
Definition eqb : float -> float -> bool := SFeqb.

(** The float nearest to an integer (ties to even); an infinity when the
    integer is beyond the largest float. *)
Definition of_Z (n : Z) : float := binary_normalize prec emax n 0 false.

Definition zero : float := S754_zero false.
Definition one : float := Eval vm_compute in of_Z 1.
Definition half : float := Eval vm_compute in div (of_Z 1) (of_Z 2).

Definition is_zero (x : float) : bool :=
  match x with S754_zero _ => true | _ => false end.

(** C's [copysign(0.0, y)]. *)
Definition copysign_zero (y : float) : float :=
  match y with
  | S754_zero s | S754_infinity s | S754_finite s _ _ => S754_zero s
  | S754_nan => S754_zero false
  end.

(** C's [fmod(x, 1.0)]: the fraction of [x], with the sign of [x].  The
    fraction of a binary64 number is a binary64 number, so the result is
    exact; [binary_round] only brings it to its canonical form. *)
Definition fmod1 (x : float) : float :=
  match x with
  | S754_nan | S754_infinity _ => S754_nan
  | S754_zero _ => x
  | S754_finite s m e =>
      if 0 <=? e then S754_zero s
      else match Z.pos m mod 2 ^ (- e) with
           | Z.pos f => binary_round prec emax s f e
           | _ => S754_zero s
           end
  end.

(** C's [floor]. *)
Definition floor (x : float) : float :=
  match x with
  | S754_finite s m e =>
      if 0 <=? e then x
      else if Z.pos m mod 2 ^ (- e) =? 0 then x
      else if s then of_Z (- (Z.pos m / 2 ^ (- e)) - 1)
      else of_Z (Z.pos m / 2 ^ (- e))
  | _ => x
  end.

(** The integer part of a finite float, towards zero. *)
Definition trunc_Z (s : bool) (m : positive) (e : Z) : Z :=
  let a := if 0 <=? e then Z.pos m * 2 ^ e else Z.pos m / 2 ^ (- e) in
  if s then - a else a.

(** Python's [int(x)] of a float. *)
Definition to_int (x : float) : result Z :=
  match x with
  | S754_nan => Raise (ValueError "cannot convert float NaN to integer")
  | S754_infinity _ =>
      Raise (OverflowError "cannot convert float infinity to integer")
  | S754_zero _ => Ok 0
  | S754_finite s m e => Ok (trunc_Z s m e)
  end.

(** Python's [float(n)] of an int, as the arithmetic of an int with a
    float converts it. *)
Definition of_int (n : Z) : result float :=
  match of_Z n with
  | S754_infinity _ =>
      Raise (OverflowError "int too large to convert to float")
  | x => Ok x
  end.

(** CPython's [float_divmod] at the divisor [1.0]: [divmod(x, 1.0)].
    The steps are those of [_float_div_mod] in [floatobject.c];
    [wx < 0] is false and [copysign(0.0, wx)] is [+0.0] at [wx = 1.0]. *)
Definition divmod1 (vx : float) : float * float :=
  let mod0 := fmod1 vx in
  let div0 := div (sub vx mod0) one in
  let '(md, dv) :=
    if negb (is_zero mod0) then
      if ltb mod0 zero then (add mod0 one, sub div0 one) else (mod0, div0)
    else (zero, div0) in
  let floordiv :=
    if negb (is_zero dv) then
      let fl := floor dv in
      if ltb half (sub dv fl) then add fl one else fl
    else copysign_zero (div vx one) in
  (floordiv, md).

(** The value of a finite float in units of [2^-1074], the spacing of the
    smallest binary64 numbers: every finite float is a whole number of
    them.  One second is [2^1074] units. *)
Definition units (x : float) : Z :=
  match x with
  | S754_finite s m e => (if s then -1 else 1) * (Z.pos m * 2 ^ (e + 1074))
  | _ => 0
  end.

(** A zero or a finite number with at most 53 bits of mantissa and an
    exponent of the format. *)
Definition in_format (x : float) : Prop :=
  match x with
  | S754_zero _ => True
  | S754_finite _ m e => Z.pos m < 2 ^ 53 /\ -1074 <= e <= 971
  | _ => False
  end.

(** [+0], or positive, finite and in the format. *)
Definition nonneg_finite (x : float) : Prop :=
  match x with
  | S754_zero s => s = false
  | S754_finite s m e => s = false /\ Z.pos m < 2 ^ 53 /\ -1074 <= e <= 971
  | _ => False
  end.

(** [+0], or positive, finite and in the format, or [+inf]: what rounding
    a non-negative quantity gives. *)
Definition nonneg_shape (x : float) : Prop :=
  match x with
  | S754_zero s => s = false
  | S754_infinity s => s = false
  | S754_finite s m e => s = false /\ Z.pos m < 2 ^ 53 /\ -1074 <= e <= 971
  | S754_nan => False
  end.

(** The second half of [binary_round_aux]: the rounded mantissa is brought
    back to 53 bits and the exponent range is checked. *)
Definition pack (s : bool) (m1 e1 : Z) : float :=
  let '(mrs, e) := shr_fexp 53 1024 m1 e1 loc_Exact in
  match shr_m mrs with
  | Z0 => S754_zero s
  | Z.pos m => if e <=? 971 then S754_finite s m e else S754_infinity s
  | Z.neg _ => S754_nan
  end.

End Float.

Import Float.

(** ** Python numbers *)

(** The values the timestamp arithmetic handles: an [int] or a [float]. *)
Inductive pynum : Type :=
| PyInt (n : Z)
| PyFloat (x : float).

(** The literal [1e9]. *)
Definition f1e9 : float := Eval vm_compute in of_Z 1000000000.

(** [a > 0]. *)
Definition py_gt0 (a : pynum) : bool :=
  match a with
  | PyInt n => 0 <? n
  | PyFloat x => ltb zero x
  end.

(** [n / d] of two ints: the float nearest to the quotient. *)
Definition int_truediv (n d : Z) : result float :=
  match n, d with
  | _, Z0 => Raise (ZeroDivisionError "division by zero")
  | Z0, _ => Ok (S754_zero (d <? 0))
  | _, _ =>
      let '(mz, ez, lz) :=
        SFdiv_core_binary prec emax (Z.abs n) 0 (Z.abs d) 0 in
      match binary_round_aux prec emax (xorb (n <? 0) (d <? 0)) mz ez lz with
      | S754_infinity _ =>
          Raise (OverflowError "integer division result too large for a float")
      | q => Ok q
      end
  end.

(** [n / b] for an int [n]. *)
Definition py_int_truediv (n : Z) (b : pynum) : result pynum :=
  match b with
  | PyInt d => q <- int_truediv n d ;; Ok (PyFloat q)
  | PyFloat y =>
      x <- of_int n ;;
      if is_zero y then Raise (ZeroDivisionError "float division by zero")
      else Ok (PyFloat (div x y))
  end.

(** [divmod(a, 1)]: floor division and modulo for an int, [float_divmod]
    with the divisor converted to [1.0] for a float. *)
Definition py_divmod_1 (a : pynum) : pynum * pynum :=
  match a with
  | PyInt n => (PyInt (n / 1), PyInt (n mod 1))
  | PyFloat x => let '(q, r) := divmod1 x in (PyFloat q, PyFloat r)
  end.

(** [a * 1e9]. *)
Definition py_mul_1e9 (a : pynum) : result float :=
  match a with
  | PyInt n => x <- of_int n ;; Ok (mul x f1e9)
  | PyFloat x => Ok (mul x f1e9)
  end.

(** [int(a)]. *)
Definition py_int (a : pynum) : result Z :=
  match a with
  | PyInt n => Ok n
  | PyFloat x => to_int x
  end.

(** ** The frame-rate resolver

    [get_video_fps], from the two integers read from the inspection's
    [numerator/denominator] line on: [num / den if den != 0 else 0]. *)
Definition get_video_fps (num den : Z) : result pynum :=
  if negb (den =? 0) then q <- int_truediv num den ;; Ok (PyFloat q)
  else Ok (PyInt 0).

(** ** Timestamp derivation

    Lines 93 to 96 of [main]: the elapsed time of frame [frame_number], its
    split by [divmod], and the nanoseconds.  The result keeps [ts_sec] as
    the number [divmod] returned: [int(ts_sec)] is taken when the pose is
    built. *)
Definition timestamp_parts (frame_number : Z) (fps : pynum)
  : result (pynum * Z) :=
  timestamp_sec_float <-
    (if py_gt0 fps then py_int_truediv (frame_number - 1) fps
     else Ok (PyInt 0)) ;;
  let '(ts_sec, ts_nanosec_float) := py_divmod_1 timestamp_sec_float in
  y <- py_mul_1e9 ts_nanosec_float ;;
  ts_nanosec <- to_int y ;;
  Ok (ts_sec, ts_nanosec).

(** The header stamp [(sec, nanosec)] of a frame. *)
Definition timestamp (frame_number : Z) (fps : pynum) : result (Z * Z) :=
  '(ts_sec, ts_nanosec) <- timestamp_parts frame_number fps ;;
  sec <- py_int ts_sec ;;
  Ok (sec, ts_nanosec).

(** ** The frame ordinal extractor *)

Definition is_digit (c : ascii) : bool :=
  ((48 <=? nat_of_ascii c) && (nat_of_ascii c <=? 57))%nat.

(** The longest run of digits at the head of a string: what [\d+] takes. *)
Fixpoint take_digits (s : string) : string :=
  match s with
  | String c rest => if is_digit c then String c (take_digits rest) else EmptyString
  | EmptyString => EmptyString
  end.

Fixpoint strip_prefix (p s : string) : option string :=
  match p, s with
  | EmptyString, _ => Some s
  | String a p', String b s' => if Ascii.eqb a b then strip_prefix p' s' else None
  | String _ _, EmptyString => None
  end.

(** [re.search(r"frame_(\d+)", s)]: group 1 of the leftmost match, if any. *)
Fixpoint re_search_frame (s : string) : option string :=
  match s with
  | EmptyString => None
  | String _ rest =>
      match strip_prefix "frame_" s with
      | Some t =>
          match take_digits t with
          | EmptyString => re_search_frame rest
          | digits => Some digits
          end
      | None => re_search_frame rest
      end
  end.

(** [int(digits)] of a run of decimal digits.  The value has no bound: the
    cap that recent CPython versions put on the length of the digit string
    (4300 digits unless configured otherwise) is not part of the model. *)
Fixpoint int_of_digits (acc : Z) (s : string) : Z :=
  match s with
  | EmptyString => acc
  | String c rest => int_of_digits (10 * acc + (Z.of_nat (nat_of_ascii c) - 48)) rest
  end.

Definition extract_frame_number (file_path : string) : result Z :=
  match re_search_frame file_path with
  | None =>
      Raise (ValueError ("Could not extract frame number from " ++ file_path)%string)
  | Some digits => Ok (int_of_digits 0 digits)
  end.

(** ** Matrices *)

(** The arithmetic of an array's element type. *)
Class Num (A : Type) : Type := {
  nzero : A;
  nadd : A -> A -> A;
  nmul : A -> A -> A
}.

#[export] Instance Num_Z : Num Z :=
  {| nzero := 0; nadd := Z.add; nmul := Z.mul |}.

#[export] Instance Num_float : Num float :=
  {| nzero := zero; nadd := add; nmul := mul |}.

Section Matrix.
Context {A : Type} `{Num A}.

Definition matrix : Type := list (list A).

Fixpoint dot_from (acc : A) (u v : list A) : A :=
  match u, v with
  | a :: u', b :: v' => dot_from (nadd acc (nmul a b)) u' v'
  | _, _ => acc
  end.

(** The sum of the products, accumulated from the left. *)
Definition dot (u v : list A) : A := dot_from nzero u v.

Definition column (j : nat) (M : matrix) : list A :=
  map (fun row => nth j row nzero) M.

Definition ncols (M : matrix) : nat := List.length (hd [] M).

Definition transpose (M : matrix) : matrix :=
  map (fun j => column j M) (seq 0 (ncols M)).

(** [M @ N]. *)
Definition matmul (M N : matrix) : matrix :=
  map (fun row => map (fun col => dot row col) (transpose N)) M.

Definition entry (M : matrix) (i j : nat) : A :=
  nth j (nth i M []) nzero.

(** [M[:3, 3]]. *)
Definition translation_column (M : matrix) : list A :=
  column 3 (firstn 3 M).

(** [M[:3, :3]]. *)
Definition rotation_block (M : matrix) : matrix :=
  map (firstn 3) (firstn 3 M).
End Matrix.

Arguments matrix A : clear implicits.

(** The axis-convention constant: an array of ints.  Its entries are 0, 1
    and -1, so that each entry of a product with it is one entry of the
    other matrix or its opposite (when those are finite), whatever the
    order of the sum. *)
Definition CV_TO_ROS_FRAME : matrix Z :=
  [ [ 0;  0; 1; 0];
    [-1;  0; 0; 0];
    [ 0; -1; 0; 0];
    [ 0;  0; 0; 1] ].

Definition identity4 : matrix Z :=
  [ [1; 0; 0; 0];
    [0; 1; 0; 0];
    [0; 0; 1; 0];
    [0; 0; 0; 1] ].

(** The conversion of an int array to a float array, which [@] applies to
    the constant when the other operand is a float array. *)
Definition astype_float (M : matrix Z) : matrix float := map (map of_Z) M.

(** ** Rotation matrix to quaternion

    [R.from_matrix(M).as_quat()] of scipy, for a 3x3 matrix [M]: the
    quaternion [(x, y, z, w)], scalar last.  scipy is not part of the
    repository; this is the method its [Rotation.from_matrix] documents and
    implements (Markley's): the largest of the three diagonal entries and
    the trace (the first one among equals) selects the branch, and the
    result is divided by its norm.  The checks that scipy makes on its
    input first (recent versions reject a determinant that is not positive
    with a [ValueError], which skips the frame, and bring a matrix that is
    not orthogonal to the nearest rotation) are left out: they pass an
    orthogonal matrix of determinant 1 unchanged.  The function is
    therefore scipy's on the rotation blocks of the reconstructions, which
    are rotations; no property below states the orientation of another
    matrix, or that a frame with another matrix yields a pose. *)
Definition argmax4 (d : list float) : nat :=
  let step (best : nat * float) (ix : nat * float) :=
    if ltb (snd best) (snd ix) then ix else best in
  fst (fold_left step (combine (seq 1 3) (tl d)) (0%nat, hd zero d)).

Definition two : float := Eval vm_compute in of_Z 2.

Definition set_nth (i : nat) (v : float) (q : list float) : list float :=
  (firstn i q ++ v :: skipn (S i) q)%list.

Definition normalize4 (q : list float) : list float :=
  let norm := sqrt (dot q q) in
  map (fun a => div a norm) q.

Local Open Scope nat_scope.

Definition from_matrix_as_quat (M : matrix float) : list float :=
  let m (i j : nat) := entry M i j in
  let tr := add (add (m 0 0) (m 1 1)) (m 2 2) in
  let decision := [m 0 0; m 1 1; m 2 2; tr] in
  let choice := argmax4 decision in
  let quat :=
    if choice =? 3 then
      [ sub (m 2 1) (m 1 2); sub (m 0 2) (m 2 0); sub (m 1 0) (m 0 1);
        add one tr ]
    else
      let i := choice in
      let j := (i + 1) mod 3 in
      let k := (j + 1) mod 3 in
      set_nth 3 (sub (m k j) (m j k))
        (set_nth k (add (m k i) (m i k))
           (set_nth j (add (m j i) (m i j))
              (set_nth i (add (sub one tr) (mul two (m i i)))
                 [zero; zero; zero; zero]))) in
  normalize4 quat.

Local Close Scope nat_scope.

(** The rotation matrix of a quaternion [(x, y, z, w)], over the integers:
    the usual polynomial formula.  It tells which rotation a quaternion
    with integer components stands for, whatever sign or branch a
    conversion prefers. *)
Definition rotation_of_quat (x y z w : Z) : matrix Z :=
  [ [ w*w + x*x - y*y - z*z;  2 * (x*y - z*w);        2 * (x*z + y*w) ];
    [ 2 * (x*y + z*w);        w*w - x*x + y*y - z*z;  2 * (y*z - x*w) ];
    [ 2 * (x*z - y*w);        2 * (y*z + x*w);        w*w - x*x - y*y + z*z ] ].

(** ** Arrays

    What [np.array] makes of the nested list of a frame, the product with
    the constant, and the slice [[:3, 3]].  numpy is not part of the
    repository; these are the rules and the messages of its documentation
    (a nested list whose rows differ in length is refused from version 1.24
    on).

    A nested list is a list of rows of numbers, given with the element
    type of its array: int64 when every number is an int, float64 when one
    of them is a float (the ints are then converted).  An int64 is a [Z]
    read modulo [2^64], which [wrap64] brings into the range; ints that
    int64 does not hold make arrays of other element types, and these, as
    the values that are not lists of rows of numbers, are outside the
    embedding. *)
Inductive array_like : Type :=
| IntRows (rows : matrix Z)
| FloatRows (rows : matrix float).

Definition wrap64 (z : Z) : Z := (z + 2 ^ 63) mod 2 ^ 64 - 2 ^ 63.

Definition nrows (a : array_like) : nat :=
  match a with
  | IntRows M => List.length M
  | FloatRows M => List.length M
  end.

(** The length of the rows of an array. *)
Definition ncolumns (a : array_like) : nat :=
  match a with
  | IntRows M => ncols M
  | FloatRows M => ncols M
  end.

(** The rows have one length. *)
Definition rectangular {A : Type} (rows : list (list A)) : bool :=
  forallb (fun row => (List.length row =? List.length (hd [] rows))%nat) rows.

(** The decimal writing of a size. *)
Definition decimal (n : nat) : string :=
  NilZero.string_of_uint (Nat.to_uint n).

(** [np.array(nested)] *)
Definition np_array (nested : array_like) : result array_like :=
  if match nested with
     | IntRows M => rectangular M
     | FloatRows M => rectangular M
     end
  then Ok nested
  else Raise (ValueError
                ("setting an array element with a sequence. The requested "
                 ++ "array has an inhomogeneous shape after 1 dimensions. "
                 ++ "The detected shape was (" ++ decimal (nrows nested)
                 ++ ",) + inhomogeneous part.")).

(** [CV_TO_ROS_FRAME @ a]: the array needs four rows.  With an int64 array
    the product is computed in int64, which wraps around; with a float64
    array the constant is converted and the product is that of floats. *)
Definition matmul_CV (a : array_like) : result array_like :=
  if (nrows a =? 4)%nat then
    Ok match a with
       | IntRows M => IntRows (map (map wrap64) (matmul CV_TO_ROS_FRAME M))
       | FloatRows M => FloatRows (matmul (astype_float CV_TO_ROS_FRAME) M)
       end
  else Raise (ValueError
                ("matmul: Input operand 1 has a mismatch in its core "
                 ++ "dimension 0, with gufunc signature "
                 ++ "(n?,k),(k,m?)->(n?,m?) (size " ++ decimal (nrows a)
                 ++ " is different from 4)")).

(** The numbers of an array as floats: [float(x)] of an entry, and the
    conversion that [R.from_matrix] applies to its argument. *)
Definition floats_of (a : array_like) : matrix float :=
  match a with
  | IntRows M => astype_float (map (map wrap64) M)
  | FloatRows M => M
  end.

(** [a[:3, 3]], as floats: the rows need a fourth entry. *)
Definition index_column_3 (a : array_like) : result (list float) :=
  if (ncolumns a <=? 3)%nat then
    Raise (IndexError ("index 3 is out of bounds for axis 1 with size "
                       ++ decimal (ncolumns a)))
  else Ok (translation_column (floats_of a)).

(** ** Frames and poses *)

(** A record of the reconstruction's frame list: a JSON object in which
    either key can be absent.  A matrix that is present is a nested list of
    numbers, a 4x4 one such as [identity_matrix] in a reconstruction. *)
Record frame : Type := {
  file_path : option string;
  transform_matrix : option array_like
}.

Record stamp : Type := { sec : Z; nanosec : Z }.

Record pose_stamped : Type := {
  header_stamp : stamp;
  header_frame_id : string;
  position : list float;
  orientation : list float
}.

(** [frame[key]] *)
Definition getitem {A : Type} (key : string) (field : option A) : result A :=
  match field with
  | Some a => Ok a
  | None => Raise (KeyError key)
  end.

(** The body of the [try] in [main]'s loop, lines 92 to 115.  The nested
    list becomes an array (line 98, [ValueError] when its rows differ in
    length), is multiplied by the constant (line 99, [ValueError] unless it
    has four rows) and sliced (line 101, [IndexError] when the rows have
    fewer than four numbers, which the loop does not catch). *)
Definition process_frame (frame_id : string) (fps : pynum) (f : frame)
  : result pose_stamped :=
  path <- getitem "file_path" (file_path f) ;;
  frame_number <- extract_frame_number path ;;
  '(ts_sec, ts_nanosec) <- timestamp_parts frame_number fps ;;
  nested <- getitem "transform_matrix" (transform_matrix f) ;;
  c2w_colmap <- np_array nested ;;
  c2w_ros <- matmul_CV c2w_colmap ;;
  position <- index_column_3 c2w_ros ;;
  let rotation_matrix := rotation_block (floats_of c2w_ros) in
  let quat := from_matrix_as_quat rotation_matrix in
  sec <- py_int ts_sec ;;
  Ok {| header_stamp := {| sec := sec; nanosec := ts_nanosec |};
        header_frame_id := frame_id;
        position := position;
        orientation := quat |}.

(** ** Ordering of the frames

    [sorted(frames, key=lambda f: f['file_path'])]: the key of every frame
    is computed first, in the order of the list, and a frame without the key
    raises [KeyError] there; the sort is stable and compares the keys as
    strings. *)
Fixpoint sort_keys (frames : list frame) : result (list (string * frame)) :=
  match frames with
  | [] => Ok []
  | f :: rest =>
      k <- getitem "file_path" (file_path f) ;;
      ks <- sort_keys rest ;;
      Ok ((k, f) :: ks)
  end.

(** [x] goes before the first entry whose key is not below its own, so that
    entries of equal keys keep the order of the list. *)
Fixpoint insert_by_key (x : string * frame) (l : list (string * frame))
  : list (string * frame) :=
  match l with
  | [] => [x]
  | y :: l' =>
      if String.leb (fst x) (fst y) then x :: y :: l'
      else y :: insert_by_key x l'
  end.

Fixpoint stable_sort (l : list (string * frame)) : list (string * frame) :=
  match l with
  | [] => []
  | x :: l' => insert_by_key x (stable_sort l')
  end.

Definition sorted_by_file_path (frames : list frame) : result (list frame) :=
  ks <- sort_keys frames ;;
  Ok (map snd (stable_sort ks)).

(** ** The run *)

(** [str(e)] *)
Definition str_exn (e : exn) : string :=
  match e with
  | ValueError msg | OverflowError msg | ZeroDivisionError msg
  | IndexError msg => msg
  | KeyError key => "'" ++ key ++ "'"
  end.

(** What the loop of [main] has done when it stops: the poses appended, the
    messages printed to the error stream (one for each call of [print]),
    and the exception that left the loop, if one did. *)
Record loop_state : Type := {
  all_poses : list pose_stamped;
  stderr : list string;
  uncaught : option exn
}.

(** The [for] loop of [main], lines 90 to 119, over the sorted frames. *)
Fixpoint process_frames (frame_id : string) (fps : pynum) (frames : list frame)
  (poses : list pose_stamped) (err : list string) : loop_state :=
  match frames with
  | [] => {| all_poses := poses; stderr := err; uncaught := None |}
  | f :: rest =>
      match process_frame frame_id fps f with
      | Ok pose => process_frames frame_id fps rest (poses ++ [pose]) err
      | Raise ((ValueError _ | KeyError _) as e) =>
          process_frames frame_id fps rest poses
            (err ++ ["Skipping frame due to error: " ++ str_exn e])
      | Raise e => {| all_poses := poses; stderr := err; uncaught := Some e |}
      end
  end.

(** How a run ends: the process exits with a status, or an exception that
    nothing catches ends it with a traceback. *)
Inductive termination : Type :=
| Exit (status : Z)
| Traceback (e : exn).

Record output_file : Type := {
  file_name : string;
  yaml_header : list string;
  poses : list pose_stamped
}.

Record run : Type := {
  ending : termination;
  diagnostics : list string;
  written : option output_file
}.

Definition yaml_header_lines (frame_id : string) : list string :=
  [ "# ROS2-compatible 6DoF camera poses extracted from Nerfstudio (COLMAP).";
    "# Each entry represents a geometry_msgs/PoseStamped message.";
    "# The pose describes the camera's frame (camera_link) relative to the '"
      ++ frame_id ++ "' frame.";
    "# Coordinate system has been transformed to the ROS standard (X forward, Y left, Z up)." ].

(** [transforms_data.get("frames", [])] *)
Definition frame_list (frames : option (list frame)) : list frame :=
  match frames with Some l => l | None => [] end.

(** [main] from line 88 on, once the descriptor is loaded and the frame
    rate resolved.  [frames] is the value of the descriptor's ["frames"]
    key, [None] when the key is absent; [video_name] is the stem of the
    video path. *)
Definition main (frame_id video_name : string) (frames : option (list frame))
  (fps : pynum) : run :=
  match sorted_by_file_path (frame_list frames) with
  | Raise e => {| ending := Traceback e; diagnostics := []; written := None |}
  | Ok sorted_frames =>
      let st := process_frames frame_id fps sorted_frames [] [] in
      match uncaught st with
      | Some e =>
          {| ending := Traceback e; diagnostics := stderr st; written := None |}
      | None =>
          match all_poses st with
          | [] =>
              {| ending := Exit 0;
                 diagnostics :=
                   (stderr st ++ ["Warning: No poses were extracted."])%list;
                 written := None |}
          | _ :: _ =>
              {| ending := Exit 0;
                 diagnostics := stderr st;
                 written :=
                   Some {| file_name :=
                             "COLMAP_camera_pose_" ++ video_name ++ ".yaml";
                           yaml_header := yaml_header_lines frame_id;
                           poses := all_poses st |} |}
          end
      end
  end.

(** The poses a run has emitted: those of the file it wrote. *)
Definition run_poses (r : run) : list pose_stamped :=
  match written r with
  | Some out => poses out
  | None => []
  end.

(** The exceptions the loop's [except (ValueError, KeyError)] catches. *)
Definition caught (e : exn) : bool :=
  match e with
  | ValueError _ | KeyError _ => true
  | _ => false
  end.

(** The frames of a list that yield a pose, each with its pose. *)
Fixpoint emitted (frame_id : string) (fps : pynum) (frames : list frame)
  : list (frame * pose_stamped) :=
  match frames with
  | [] => []
  | f :: rest =>
      match process_frame frame_id fps f with
      | Ok pose => (f, pose) :: emitted frame_id fps rest
      | Raise _ => emitted frame_id fps rest
      end
  end.

(** The file paths of two frames are in order. *)
Definition path_le (f g : frame) : Prop :=
  exists p q, file_path f = Some p /\ file_path g = Some q /\ String.leb p q = true.

(** The order of the keys of two decorated entries. *)
Definition key_le (a b : string * frame) : Prop :=
  String.leb (fst a) (fst b) = true.

(** A decorated entry carries the file path of its frame. *)
Definition keyed (kf : string * frame) : Prop :=
  file_path (snd kf) = Some (fst kf).

(** A resolved frame rate that is zero: the int [0] of a zero denominator,
    or a float zero. *)
Definition zero_rate (fps : pynum) : Prop :=
  match fps with
  | PyInt n => n = 0
  | PyFloat x => is_zero x = true
  end.

(** A computation that does not raise [ZeroDivisionError]. *)
Definition no_zero_division {A : Type} (r : result A) : Prop :=
  forall msg, r <> Raise (ZeroDivisionError msg).

(** The stamp is in the range of the message: whole seconds that are not
    negative and nanoseconds in [[0, 1e9)]. *)
Definition stamp_in_range (s : stamp) : Prop :=
  0 <= sec s /\ 0 <= nanosec s < 1000000000.

(** The ordinal in the identifier of a frame is at least 1. *)
Definition ordinal_at_least_1 (f : frame) : Prop :=
  forall path n,
    file_path f = Some path -> extract_frame_number path = Ok n -> 1 <= n.

(** The stamp [s] is the split of the float [elapsed]: a float [rem] in
    [[0, 1)] with [elapsed = sec + rem] exactly, and [nanosec] the floor of
    the float product [rem * 1e9]. *)
Definition split_stamp (elapsed : float) (s : stamp) : Prop :=
  exists rem : float,
    in_format rem
    /\ 0 <= units rem < 2 ^ 1074
    /\ units elapsed = sec s * 2 ^ 1074 + units rem
    /\ nanosec s = units (mul rem f1e9) / 2 ^ 1074.

(** The product of an int matrix and an int vector. *)
Definition matvec (M : matrix Z) (v : list Z) : list Z :=
  map (fun row => dot row v) M.

Arguments process_frame : simpl never.
Arguments sorted_by_file_path : simpl never.

(** ** Inputs of the examples *)

Definition f30 : float := Eval vm_compute in of_Z 30.

Definition identity_matrix : matrix float :=
  Eval vm_compute in astype_float identity4.

Definition frame_at (path : string) : frame :=
  {| file_path := Some path;
     transform_matrix := Some (FloatRows identity_matrix) |}.

Definition example_frame : frame := frame_at "images/frame_0001.png".

Definition minus_half : float := Eval vm_compute in SFopp half.

(** A frame rate of [1e17]. *)
Definition f1e17 : float := Eval vm_compute in of_Z (10 ^ 17).

(** Numeric equality ([==]) of two lists of floats. *)
Fixpoint same_numbers (u v : list float) : bool :=
  match u, v with
  | [], [] => true
  | a :: u', b :: v' => eqb a b && same_numbers u' v'
  | _, _ => false
  end.

(** ** Shapes of a file path *)

(** Every character is a decimal digit. *)
Fixpoint all_digits (s : string) : bool :=
  match s with
  | EmptyString => true
  | String c rest => is_digit c && all_digits rest
  end.

Definition starts_with_digit (s : string) : bool :=
  match s with
  | String c _ => is_digit c
  | EmptyString => false
  end.

(** The match of [frame_(\d+)] at the head of a string, if there is one. *)
Definition match_here (s : string) : option string :=
  match strip_prefix "frame_" s with
  | Some t =>
      match take_digits t with
      | EmptyString => None
      | digits => Some digits
      end
  | None => None
  end.

(** An occurrence of [frame_] followed by a digit starts in [s] right after
    the prefix [a]. *)
Definition marker_at (a s : string) : Prop :=
  exists c b, s = a ++ "frame_" ++ String c b /\ is_digit c = true.

(** The file path of [f] is [pre], the marker, a run of [w] digits and a
    rest that does not go on with a digit, with no marker inside [pre]:
    the ordinals are written with a fixed width, [frame_0001.png]. *)
Definition padded (pre : string) (w : nat) (f : frame) : Prop :=
  exists digits post,
    file_path f = Some (pre ++ "frame_" ++ digits ++ post)
    /\ all_digits digits = true
    /\ String.length digits = w
    /\ starts_with_digit post = false
    /\ (forall a, ~ marker_at a pre).

(** The ordinals in the file paths of two frames are in order. *)
Definition ordinal_le (f g : frame) : Prop :=
  exists p q n m,
    file_path f = Some p /\ file_path g = Some q
    /\ extract_frame_number p = Ok n /\ extract_frame_number q = Ok m
    /\ n <= m.

(** A run of [k] zeros, as zero padding writes them. *)
Fixpoint zeros (k : nat) : string :=
  match k with
  | O => EmptyString
  | S k' => String "0" (zeros k')
  end.

(** ** Shapes of a float *)

(** A zero, a finite number of the format or an infinity, of sign [s]:
    what rounding a quantity of that sign gives. *)
Definition signed_shape (s : bool) (x : float) : Prop :=
  match x with
  | S754_zero s' | S754_infinity s' => s' = s
  | S754_finite s' m e => s' = s /\ Z.pos m < 2 ^ 53 /\ -1074 <= e <= 971
  | S754_nan => False
  end.

(** ** Shapes of a run *)

(** The frame yields a pose. *)
Definition yields_pose (frame_id : string) (fps : pynum) (f : frame) : bool :=
  match process_frame frame_id fps f with
  | Ok _ => true
  | Raise _ => false
  end.

(** The file path of the frame is [p]. *)
Definition has_path (p : string) (f : frame) : bool :=
  match file_path f with
  | Some q => String.eqb p q
  | None => false
  end.


(** ** Shapes of a matrix *)

(** Four rows of four numbers, each a zero or a finite float. *)
Definition finite_4x4 (M : matrix float) : Prop :=
  List.length M = 4%nat
  /\ Forall (fun row => List.length row = 4%nat /\ Forall in_format row) M.

(** A frame whose camera stands at [(1, 2, 3)], unrotated. *)
Definition translated_matrix : matrix float :=
  Eval vm_compute in
    astype_float [ [1; 0; 0; 1]; [0; 1; 0; 2]; [0; 0; 1; 3]; [0; 0; 0; 1] ].

Definition translated_frame : frame :=
  {| file_path := Some "images/frame_0001.png";
     transform_matrix := Some (FloatRows translated_matrix) |}.

(** Four rows of four ints of int64. *)
Definition int64_4x4 (M : matrix Z) : Prop :=
  List.length M = 4%nat
  /\ Forall (fun row => List.length row = 4%nat
                        /\ Forall (fun z => - 2 ^ 63 <= z < 2 ^ 63) row) M.

(** A 4x4 array of finite numbers. *)
Definition finite_4x4_array (a : array_like) : Prop :=
  match a with
  | IntRows M => int64_4x4 M
  | FloatRows M => finite_4x4 M
  end.

(** The opposite of an int64 in int64: that of [-2^63] does not fit and
    comes out as [-2^63] again. *)
Definition opp64 (z : Z) : Z := if z =? - 2 ^ 63 then - 2 ^ 63 else - z.

(** The same camera in a descriptor that writes its numbers as ints, and
    stands at [(-2^63, 2, 3)]. *)
Definition far_matrix : matrix Z :=
  [ [1; 0; 0; - 2 ^ 63]; [0; 1; 0; 2]; [0; 0; 1; 3]; [0; 0; 0; 1] ].

Definition far_frame : frame :=
  {| file_path := Some "images/frame_0001.png";
     transform_matrix := Some (IntRows far_matrix) |}.


(** The floats of the nested list are zeros or finite numbers. *)
Definition finite_numbers (a : array_like) : Prop :=
  match a with
  | IntRows M => True
  | FloatRows M => Forall (Forall in_format) M
  end.

(** A computation that does not raise [IndexError]. *)
Definition no_index_error {A : Type} (r : result A) : Prop :=
  forall msg, r <> Raise (IndexError msg).

(** A frame whose matrix has four rows of one number. *)
Definition narrow_frame (path : string) : frame :=
  {| file_path := Some path;
     transform_matrix := Some (IntRows [[1]; [2]; [3]; [4]]) |}.

(** ** Rounding to nearest *)

(** The integer nearest to the fraction [N / U], the even one of the two
    when the fraction is half way. *)
Definition rne (N U : Z) : Z :=
  match 2 * (N mod U) ?= U with
  | Lt => N / U
  | Eq => if Z.even (N / U) then N / U else N / U + 1
  | Gt => N / U + 1
  end.

(** The location of the fraction [P / Q] in the unit interval, as the
    library records what a truncation has left out. *)
Definition frac_loc (P Q : Z) : location :=
  if P =? 0 then loc_Exact else loc_Inexact (2 * P ?= Q).

(** The record holds the truncation of [N / W]: its integer part, whether
    what is left reaches one half, and whether it is neither nothing nor
    one half. *)
Definition encodes (mrs : shr_record) (N W : Z) : Prop :=
  shr_m mrs = N / W
  /\ shr_r mrs = (W <=? 2 * (N mod W))
  /\ shr_s mrs = negb (N mod W =? 0) && negb (2 * (N mod W) =? W).

(** The finite float [r] is the quantity [N / D], counted in units of
    [2^-1074], rounded to nearest (ties to even) on the grid of its binade:
    the grid [2^g] of the units that leaves a mantissa of 53 bits, or the
    units themselves for a quantity below [2^53] of them. *)
Definition rounded (r : float) (N D : Z) : Prop :=
  exists g,
    0 <= g
    /\ units r = rne N (D * 2 ^ g) * 2 ^ g
    /\ N < 2 ^ 53 * (D * 2 ^ g)
    /\ (g = 0 \/ 2 ^ 52 * (D * 2 ^ g) <= N).

(** The order of two stamps: by the seconds, then by the nanoseconds. *)
Definition stamp_le (s t : stamp) : Prop :=
  sec s < sec t \/ (sec s = sec t /\ nanosec s <= nanosec t).

(** A frame rate that is a finite float is a number of the format (the
    floats of the model are all those of the library, of any mantissa). *)
Definition rate_in_format (fps : pynum) : Prop :=
  match fps with
  | PyFloat (S754_finite _ m e) => Z.pos m < 2 ^ 53 /\ -1074 <= e <= 971
  | _ => True
  end.

(** ** The rate line of the inspection

    [get_video_fps] from the text that the inspection prints: the text is
    stripped, split at the slashes, and each part is read by [int]; the
    unpacking into [num, den] wants two parts.  Each of these steps raises
    [ValueError] on a text that does not fit, and the function then exits
    with status 1.  A text is a string of code points below 256.  The cap
    that recent versions of [int] put on the number of digits is not part
    of the model, as for the ordinals. *)

(** [str.isspace] of a character: what [str.strip] removes. *)
Definition is_space (c : ascii) : bool :=
  let n := nat_of_ascii c in
  ((9 <=? n) && (n <=? 13) || (28 <=? n) && (n <=? 32)
   || (n =? 133) || (n =? 160))%nat.

(** The white space that [int] skips around a number: the white space of
    ASCII, and the two spaces of Latin-1, which it reads as blanks; not
    the separators 28 to 31. *)
Definition is_int_space (c : ascii) : bool :=
  let n := nat_of_ascii c in
  ((9 <=? n) && (n <=? 13) || (n =? 32) || (n =? 133) || (n =? 160))%nat.

Fixpoint lstrip (p : ascii -> bool) (s : string) : string :=
  match s with
  | String c rest => if p c then lstrip p rest else s
  | EmptyString => EmptyString
  end.

Definition string_rev (s : string) : string :=
  string_of_list_ascii (rev (list_ascii_of_string s)).

Definition strip (p : ascii -> bool) (s : string) : string :=
  string_rev (lstrip p (string_rev (lstrip p s))).

(** [s.split(sep)] for a separator of one character: the parts between
    the separators, at least one. *)
Fixpoint split_on (sep : ascii) (s : string) : list string :=
  match s with
  | EmptyString => [EmptyString]
  | String c rest =>
      if Ascii.eqb c sep then EmptyString :: split_on sep rest
      else match split_on sep rest with
           | part :: parts => String c part :: parts
           | [] => [String c EmptyString]
           end
  end.

(** The digits of a decimal literal: one or more digits, with single
    underscores allowed between two of them. *)
Fixpoint digits_value (acc : Z) (after_digit : bool) (s : string) : option Z :=
  match s with
  | EmptyString => if after_digit then Some acc else None
  | String c rest =>
      if is_digit c
      then digits_value (10 * acc + (Z.of_nat (nat_of_ascii c) - 48)) true rest
      else if Ascii.eqb c "_"
           then if after_digit then digits_value acc false rest else None
           else None
  end.

(** [int(s)] of a string: [None] when it raises [ValueError]. *)
Definition int_of_str (s : string) : option Z :=
  match strip is_int_space s with
  | String "+" rest => digits_value 0 false rest
  | String "-" rest => option_map Z.opp (digits_value 0 false rest)
  | t => digits_value 0 false t
  end.

(** [num, den = map(int, stdout.strip().split('/'))] *)
Definition parse_rate (stdout : string) : option (Z * Z) :=
  match split_on "/" (strip is_space stdout) with
  | [a; b] =>
      match int_of_str a, int_of_str b with
      | Some num, Some den => Some (num, den)
      | _, _ => None
      end
  | _ => None
  end.

(** How [get_video_fps] ends: it returns the rate, it exits, or an
    exception that it does not catch leaves it. *)
Inductive resolved : Type :=
| Returned (fps : pynum)
| SysExit (status : Z)
| Escaped (e : exn).

(** [get_video_fps]: [is_file] tells whether the video is there, and
    [probe] is the text that the inspection printed, [None] when running
    it raised [CalledProcessError] or [FileNotFoundError]. *)
Definition resolve_fps (is_file : bool) (probe : option string) : resolved :=
  if negb is_file then SysExit 1
  else match probe with
       | None => SysExit 1
       | Some stdout =>
           match parse_rate stdout with
           | None => SysExit 1
           | Some (num, den) =>
               match get_video_fps num den with
               | Ok fps => Returned fps
               | Raise e => Escaped e
               end
           end
       end.

(** Every character of the string satisfies [p]. *)
Fixpoint all_chars (p : ascii -> bool) (s : string) : bool :=
  match s with
  | EmptyString => true
  | String c rest => p c && all_chars p rest
  end.

(** The number of occurrences of a character. *)
Fixpoint count_char (a : ascii) (s : string) : nat :=
  match s with
  | EmptyString => O
  | String c rest => ((if Ascii.eqb c a then 1 else 0) + count_char a rest)%nat
  end.

(** * Properties *)

(** ** Binary64 arithmetic

    Facts about the library's rounding, [binary_round_aux], for the format
    of precision 53: what shifting a mantissa to the right leaves, that a
    rounded quantity is within half a unit of the last place, and that a
    quantity the format holds is returned as it is.  They give the exact
    results of the steps of [divmod1] on a float that is not negative, and
    the bound on the product with [1e9]. *)

(** *** Shifts and digits *)

(** [digits2_pos m] is the number of bits of [m]. *)
Lemma digits2_pos_bounds (m : positive) :
  2 ^ (Z.pos (digits2_pos m) - 1) <= Z.pos m < 2 ^ Z.pos (digits2_pos m).
Proof.
  induction m as [m IH|m IH|]; simpl digits2_pos.
  - rewrite Pos2Z.inj_succ.
    replace (Z.succ (Z.pos (digits2_pos m)) - 1) with (Z.pos (digits2_pos m) - 1 + 1) by lia.
    rewrite Z.pow_succ_r by lia. rewrite Z.pow_add_r by lia. lia.
  - rewrite Pos2Z.inj_succ.
    replace (Z.succ (Z.pos (digits2_pos m)) - 1) with (Z.pos (digits2_pos m) - 1 + 1) by lia.
    rewrite Z.pow_succ_r by lia. rewrite Z.pow_add_r by lia. lia.
  - simpl. lia.
Qed.

(** The library iterates by the bits of the count. *)
Lemma iter_pos_nat {A : Type} (f : A -> A) (p : positive) (x : A) :
  iter_pos f p x = Nat.iter (Pos.to_nat p) f x.
Proof.
  revert x. induction p as [p IH|p IH|]; intros x; simpl iter_pos.
  - rewrite !IH, Pos2Nat.inj_xI.
    replace (S (2 * Pos.to_nat p)) with (Pos.to_nat p + (Pos.to_nat p + 1))%nat by lia.
    rewrite !Nat.iter_add. reflexivity.
  - rewrite !IH, Pos2Nat.inj_xO.
    replace (2 * Pos.to_nat p)%nat with (Pos.to_nat p + Pos.to_nat p)%nat by lia.
    rewrite Nat.iter_add. reflexivity.
  - reflexivity.
Qed.

(** One shift to the right: the mantissa is halved, its last bit becomes the
    round bit, and the sticky bit collects the bits shifted out before. *)
Lemma shr_1_spec (mrs : shr_record) :
  0 <= shr_m mrs ->
  shr_m (shr_1 mrs) = shr_m mrs / 2
  /\ shr_r (shr_1 mrs) = Z.odd (shr_m mrs)
  /\ shr_s (shr_1 mrs) = shr_r mrs || shr_s mrs.
Proof.
  destruct mrs as [m r s]. simpl. intros Hm.
  rewrite <- Z.div2_div.
  destruct m as [|[p|p|]|p]; simpl; auto; lia.
Qed.

(** The state after [n] one-bit shifts of the exact record of [M]. *)
Lemma shr_iter_spec (M : Z) (n : nat) :
  0 <= M ->
  let mrs := Nat.iter n shr_1 {| shr_m := M; shr_r := false; shr_s := false |} in
  shr_m mrs = M / 2 ^ Z.of_nat n
  /\ (n <> 0%nat ->
      shr_r mrs = Z.odd (M / 2 ^ (Z.of_nat n - 1))
      /\ shr_s mrs = negb (M mod 2 ^ (Z.of_nat n - 1) =? 0)).
Proof.
  intros HM. induction n as [|n IH].
  - simpl. rewrite Z.div_1_r. split; [reflexivity|congruence].
  - cbn zeta in IH. destruct IH as [Hm Hrs].
    assert (Hpos : 0 <= shr_m (Nat.iter n shr_1
                     {| shr_m := M; shr_r := false; shr_s := false |})).
    { rewrite Hm. apply Z.div_pos; lia. }
    cbn zeta. simpl Nat.iter.
    destruct (shr_1_spec _ Hpos) as [H1 [H2 H3]].
    rewrite H1, H2, H3, Hm. clear H1 H2 H3.
    replace (Z.of_nat (S n) - 1) with (Z.of_nat n) by lia.
    split.
    + rewrite Nat2Z.inj_succ, Z.pow_succ_r by lia.
      rewrite Z.div_div by lia. f_equal. lia.
    + intros _. split; [reflexivity|].
      destruct n as [|n].
      * simpl. rewrite Z.mod_1_r. reflexivity.
      * destruct (Hrs ltac:(congruence)) as [Hr Hs]. rewrite Hr, Hs.
        replace (Z.of_nat (S n) - 1) with (Z.of_nat n) by lia.
        set (k := Z.of_nat n).
        replace (Z.of_nat (S n)) with (k + 1) by lia.
        rewrite Z.pow_add_r, Z.pow_1_r by lia.
        assert (Hk : 0 < 2 ^ k) by (apply Z.pow_pos_nonneg; lia).
        rewrite Z.rem_mul_r by lia.
        pose proof (Z.mod_pos_bound M (2 ^ k) Hk) as Hb.
        rewrite (Zmod_odd (M / 2 ^ k)).
        destruct (Z.odd (M / 2 ^ k)); simpl.
        -- symmetry. apply negb_true_iff, Z.eqb_neq. lia.
        -- f_equal. f_equal. lia.
Qed.

(** *** Rounding after a shift *)

Lemma shr_m_iter (mrs : shr_record) (n : nat) :
  0 <= shr_m mrs ->
  shr_m (Nat.iter n shr_1 mrs) = shr_m mrs / 2 ^ Z.of_nat n.
Proof.
  intros Hm. induction n as [|n IH].
  - simpl. now rewrite Z.div_1_r.
  - simpl Nat.iter.
    assert (Hpos : 0 <= shr_m (Nat.iter n shr_1 mrs)).
    { rewrite IH. apply Z.div_pos; lia. }
    destruct (shr_1_spec _ Hpos) as [H1 _]. rewrite H1, IH.
    rewrite Nat2Z.inj_succ, Z.pow_succ_r by lia.
    rewrite Z.div_div by lia. f_equal. lia.
Qed.

Lemma shr_m_iter_pos (mrs : shr_record) (p : positive) :
  0 <= shr_m mrs ->
  shr_m (iter_pos shr_1 p mrs) = shr_m mrs / 2 ^ Z.pos p.
Proof.
  intros Hm. rewrite iter_pos_nat, shr_m_iter by exact Hm.
  now rewrite positive_nat_Z.
Qed.

Lemma shr_m_of_loc (m : Z) (l : location) : shr_m (shr_record_of_loc m l) = m.
Proof. destruct l as [|[]]; reflexivity. Qed.

Lemma round_nearest_even_bounds (m : Z) (l : location) :
  m <= round_nearest_even m l <= m + 1.
Proof.
  destruct l as [|[]]; simpl; try lia. destruct (Z.even m); lia.
Qed.

(** Rounding the exact record of [M] after a shift by [p] bits: the result
    is within half a unit of [M], and is [M] itself when the shifted bits
    are zero. *)
Lemma shr_round_exact (M : Z) (p : positive) :
  0 <= M ->
  let mrs := iter_pos shr_1 p {| shr_m := M; shr_r := false; shr_s := false |} in
  let m2 := round_nearest_even (shr_m mrs) (loc_of_shr_record mrs) in
  let k := 2 ^ Z.pos p in
  2 * Z.abs (m2 * k - M) <= k
  /\ (M mod k = 0 -> m2 * k = M).
Proof.
  intros HM. cbn zeta. rewrite iter_pos_nat.
  pose proof (shr_iter_spec M (Pos.to_nat p) HM) as Hs. cbn zeta in Hs.
  destruct Hs as [Hm Hrs].
  destruct Hrs as [Hr Hs]; [pose proof (Pos2Nat.is_pos p); lia|].
  rewrite positive_nat_Z in *.
  set (mrs := Nat.iter (Pos.to_nat p) shr_1 _) in *.
  set (h := 2 ^ (Z.pos p - 1)) in *.
  assert (Hh : 0 < h) by (apply Z.pow_pos_nonneg; lia).
  assert (Hk : 2 ^ Z.pos p = 2 * h).
  { unfold h. replace (Z.pos p) with (Z.pos p - 1 + 1) at 1 by lia.
    rewrite Z.pow_add_r by lia. lia. }
  rewrite Hk in *.
  pose proof (Z.div_mod M h ltac:(lia)) as Hdm.
  pose proof (Z.mod_pos_bound M h Hh) as Hb.
  pose proof (Zdiv2_odd_eqn (M / h)) as Ho. rewrite Z.div2_div in Ho.
  assert (Hq : M / (2 * h) = M / h / 2).
  { rewrite Z.mul_comm, <- Z.div_div by lia. reflexivity. }
  assert (Hrho : M mod (2 * h) = M mod h + h * (if Z.odd (M / h) then 1 else 0)).
  { rewrite Z.mul_comm, Z.rem_mul_r by lia. rewrite Zmod_odd. rewrite Z.mul_comm.
    destruct (Z.odd (M / h)); lia. }
  destruct mrs as [m r s]. cbn [shr_m shr_r shr_s loc_of_shr_record] in *. subst m.
  rewrite Hq in *. rewrite Hrho.
  set (q := M / h / 2) in *.
  destruct (Z.odd (M / h)); subst r; destruct (Z.eqb_spec (M mod h) 0) as [Hz|Hz];
    subst s; cbn [negb round_nearest_even].
  - destruct (Z.even q); split; lia.
  - split; lia.
  - split; lia.
  - split; lia.
Qed.

(** *** The two halves of [binary_round_aux] *)

Lemma fexp_eq (z : Z) : fexp 53 1024 z = Z.max (z - 53) (-1074).
Proof. reflexivity. Qed.

Lemma Zdigits2_bounds (m : Z) :
  0 < m -> 2 ^ (Zdigits2 m - 1) <= m < 2 ^ Zdigits2 m.
Proof.
  destruct m as [|p|p]; try lia. intros _. apply digits2_pos_bounds.
Qed.

Lemma Zdigits2_pos (m : Z) : 0 < m -> 0 < Zdigits2 m.
Proof. destruct m; simpl; lia. Qed.

Lemma Zdigits2_le (m d : Z) : 0 < m -> m < 2 ^ d -> Zdigits2 m <= d.
Proof.
  intros Hm Hd. destruct (Z_le_gt_dec (Zdigits2 m) d) as [|Hgt]; [assumption|].
  pose proof (Zdigits2_bounds m Hm) as [Hlo _].
  assert (0 <= d).
  { destruct (Z_lt_le_dec d 0) as [Hn|]; [|assumption].
    rewrite (Z.pow_neg_r 2 d Hn) in Hd. lia. }
  assert (2 ^ d <= 2 ^ (Zdigits2 m - 1)) by (apply Z.pow_le_mono_r; lia).
  lia.
Qed.

Lemma binary_round_aux_pack (s : bool) (mx ex : Z) (lx : location) :
  binary_round_aux 53 1024 s mx ex lx
  = pack s (round_nearest_even (shr_m (fst (shr_fexp 53 1024 mx ex lx)))
              (loc_of_shr_record (fst (shr_fexp 53 1024 mx ex lx))))
      (snd (shr_fexp 53 1024 mx ex lx)).
Proof.
  unfold binary_round_aux, pack.
  destruct (shr_fexp 53 1024 mx ex lx) as [mrs' e']. reflexivity.
Qed.

Lemma pack_zero (s : bool) (e1 : Z) : -1074 <= e1 -> pack s 0 e1 = S754_zero s.
Proof.
  intros He. unfold pack, shr_fexp, shr. rewrite fexp_eq. simpl Zdigits2.
  destruct (Z.max (0 + e1 - 53) (-1074) - e1) eqn:Hn; try reflexivity. lia.
Qed.

(** A rounded mantissa of at most 54 bits keeps its value: it is halved, and
    the exponent raised by one, only when it is [2^53]. *)
Lemma pack_spec (s : bool) (m1 e1 : Z) :
  0 < m1 <= 2 ^ 53 -> -1074 <= e1 ->
  exists m e,
    pack s m1 e1 = (if e <=? 971 then S754_finite s m e else S754_infinity s)
    /\ Z.pos m < 2 ^ 53
    /\ (e = e1 \/ e = e1 + 1 /\ m1 = 2 ^ 53)
    /\ Z.pos m * 2 ^ (e - e1) = m1.
Proof.
  intros [Hpos Hle] He.
  pose proof (Zdigits2_bounds m1 Hpos) as [Hlo Hhi].
  assert (Hd : Zdigits2 m1 <= 54) by (apply Zdigits2_le; lia).
  pose proof (Zdigits2_pos m1 Hpos) as Hd0.
  unfold pack, shr_fexp, shr. rewrite fexp_eq.
  destruct (Z.max (Zdigits2 m1 + e1 - 53) (-1074) - e1) as [|p|p] eqn:Hn.
  - destruct m1 as [|m|m]; try lia. simpl shr_m.
    exists m, e1. split; [reflexivity|].
    assert (Zdigits2 (Z.pos m) <= 53) by lia.
    assert (2 ^ Zdigits2 (Z.pos m) <= 2 ^ 53) by (apply Z.pow_le_mono_r; lia).
    rewrite Z.sub_diag. lia.
  - assert (Hd54 : Zdigits2 m1 = 54) by lia.
    assert (Hp : p = 1%positive) by lia. subst p.
    rewrite Hd54 in Hlo. assert (Hm : m1 = 2 ^ 53) by lia. subst m1.
    exists 4503599627370496%positive, (e1 + 1). split; [reflexivity|].
    replace (e1 + 1 - e1) with 1 by lia. lia.
  - destruct m1 as [|m|m]; try lia. simpl shr_m.
    exists m, e1. split; [reflexivity|].
    assert (Zdigits2 (Z.pos m) <= 53) by lia.
    assert (2 ^ Zdigits2 (Z.pos m) <= 2 ^ 53) by (apply Z.pow_le_mono_r; lia).
    rewrite Z.sub_diag. lia.
Qed.

(** The first half of [binary_round_aux], from an exact mantissa. *)
Lemma shr_fexp_exact_spec (mx ex : Z) :
  0 < mx ->
  let e1 := Z.max ex (fexp 53 1024 (Zdigits2 mx + ex)) in
  let mrs := fst (shr_fexp 53 1024 mx ex loc_Exact) in
  let m1 := round_nearest_even (shr_m mrs) (loc_of_shr_record mrs) in
  snd (shr_fexp 53 1024 mx ex loc_Exact) = e1
  /\ 0 <= m1 <= 2 ^ 53
  /\ 2 * Z.abs (m1 * 2 ^ (e1 - ex) - mx) <= 2 ^ (e1 - ex)
  /\ (mx mod 2 ^ (e1 - ex) = 0 -> m1 * 2 ^ (e1 - ex) = mx)
  /\ -1074 <= e1.
Proof.
  intros Hpos. cbn zeta.
  pose proof (Zdigits2_bounds mx Hpos) as [Hlo Hhi].
  pose proof (Zdigits2_pos mx Hpos) as Hd0.
  unfold shr_fexp, shr. rewrite fexp_eq. cbn [shr_record_of_loc].
  destruct (Z.max (Zdigits2 mx + ex - 53) (-1074) - ex) as [|p|p] eqn:Hn;
    cbn [fst snd shr_m loc_of_shr_record round_nearest_even].
  - assert (2 ^ Zdigits2 mx <= 2 ^ 53) by (apply Z.pow_le_mono_r; lia).
    replace (Z.max ex (Z.max (Zdigits2 mx + ex - 53) (-1074))) with ex by lia.
    rewrite Z.sub_diag, Z.pow_0_r, Z.mod_1_r.
    repeat split; try lia.
  - set (e1 := Z.max ex (Z.max (Zdigits2 mx + ex - 53) (-1074))).
    assert (He1 : e1 - ex = Z.pos p) by (unfold e1; lia).
    rewrite He1.
    destruct (shr_round_exact mx p ltac:(lia)) as [Herr Hex].
    cbn zeta in Herr, Hex.
    set (mrs := iter_pos shr_1 p _) in *.
    pose proof (round_nearest_even_bounds (shr_m mrs) (loc_of_shr_record mrs)) as Hb.
    assert (Hq : shr_m mrs = mx / 2 ^ Z.pos p).
    { unfold mrs. rewrite shr_m_iter_pos; simpl; [reflexivity|lia]. }
    assert (Hk : 0 < 2 ^ Z.pos p) by (apply Z.pow_pos_nonneg; lia).
    assert (Hlt : mx / 2 ^ Z.pos p < 2 ^ 53).
    { apply Z.div_lt_upper_bound; [exact Hk|].
      rewrite <- Z.pow_add_r by lia.
      assert (2 ^ Zdigits2 mx <= 2 ^ (Z.pos p + 53)) by (apply Z.pow_le_mono_r; lia).
      lia. }
    assert (0 <= mx / 2 ^ Z.pos p) by (apply Z.div_pos; lia).
    repeat split; try lia; try assumption.
  - assert (2 ^ Zdigits2 mx <= 2 ^ 53) by (apply Z.pow_le_mono_r; lia).
    replace (Z.max ex (Z.max (Zdigits2 mx + ex - 53) (-1074))) with ex by lia.
    rewrite Z.sub_diag, Z.pow_0_r, Z.mod_1_r.
    repeat split; try lia.
Qed.

(** The first half of [binary_round_aux], from any location. *)
Lemma shr_fexp_shape (mx ex : Z) (lx : location) :
  0 <= mx ->
  let mrs := fst (shr_fexp 53 1024 mx ex lx) in
  let m1 := round_nearest_even (shr_m mrs) (loc_of_shr_record mrs) in
  0 <= m1 <= 2 ^ 53 /\ -1074 <= snd (shr_fexp 53 1024 mx ex lx).
Proof.
  intros Hpos. cbn zeta. unfold shr_fexp, shr. rewrite fexp_eq.
  assert (Hdig : mx < 2 ^ Zdigits2 mx /\ 0 <= Zdigits2 mx).
  { destruct (Z.eq_dec mx 0) as [->|Hne]; [simpl; lia|].
    pose proof (Zdigits2_bounds mx ltac:(lia)).
    pose proof (Zdigits2_pos mx ltac:(lia)). lia. }
  destruct Hdig as [Hhi Hd0].
  destruct (Z.max (Zdigits2 mx + ex - 53) (-1074) - ex) as [|p|p] eqn:Hn;
    cbn [fst snd].
  - rewrite shr_m_of_loc.
    pose proof (round_nearest_even_bounds mx
                  (loc_of_shr_record (shr_record_of_loc mx lx))) as Hb.
    assert (2 ^ Zdigits2 mx <= 2 ^ 53) by (apply Z.pow_le_mono_r; lia).
    lia.
  - set (mrs := iter_pos shr_1 p _).
    pose proof (round_nearest_even_bounds (shr_m mrs) (loc_of_shr_record mrs)) as Hb.
    assert (Hq : shr_m mrs = mx / 2 ^ Z.pos p).
    { unfold mrs. rewrite shr_m_iter_pos; rewrite shr_m_of_loc; [reflexivity|lia]. }
    assert (Hk : 0 < 2 ^ Z.pos p) by (apply Z.pow_pos_nonneg; lia).
    assert (Hlt : mx / 2 ^ Z.pos p < 2 ^ 53).
    { apply Z.div_lt_upper_bound; [exact Hk|].
      rewrite <- Z.pow_add_r by lia.
      assert (2 ^ Zdigits2 mx <= 2 ^ (Z.pos p + 53)) by (apply Z.pow_le_mono_r; lia).
      lia. }
    assert (0 <= mx / 2 ^ Z.pos p) by (apply Z.div_pos; lia).
    lia.
  - rewrite shr_m_of_loc.
    pose proof (round_nearest_even_bounds mx
                  (loc_of_shr_record (shr_record_of_loc mx lx))) as Hb.
    assert (2 ^ Zdigits2 mx <= 2 ^ 53) by (apply Z.pow_le_mono_r; lia).
    lia.
Qed.

Lemma pack_shape (m1 e1 : Z) :
  0 <= m1 <= 2 ^ 53 -> -1074 <= e1 -> nonneg_shape (pack false m1 e1).
Proof.
  intros Hm He. destruct (Z.eq_dec m1 0) as [->|Hne].
  - rewrite pack_zero by exact He. reflexivity.
  - destruct (pack_spec false m1 e1 ltac:(lia) He) as [m [e [Hp [Hlt [Hle _]]]]].
    pose proof (Z.leb_spec e 971) as Hsp.
    rewrite Hp. destruct (Z.leb_spec e 971); simpl; [|reflexivity].
    repeat split; lia.
Qed.

(** Rounding a quantity that is not negative gives [+0], a positive float of
    the format, or [+inf]. *)
Lemma binary_round_aux_shape (mx ex : Z) (lx : location) :
  0 <= mx -> nonneg_shape (binary_round_aux 53 1024 false mx ex lx).
Proof.
  intros Hpos. rewrite binary_round_aux_pack.
  destruct (shr_fexp_shape mx ex lx Hpos) as [Hm He].
  now apply pack_shape.
Qed.

(** *** Quantities that fit the format *)

Lemma pow2_pos (k : Z) : 0 <= k -> 0 < 2 ^ k.
Proof. intros. apply Z.pow_pos_nonneg; lia. Qed.

Lemma pow2_split (a b : Z) : 0 <= a <= b -> 2 ^ b = 2 ^ (b - a) * 2 ^ a.
Proof. intros. rewrite <- Z.pow_add_r by lia. f_equal. lia. Qed.

(** Rounding a quantity that fits the format returns it. *)
Lemma binary_round_aux_exact (s : bool) (mx ex m0 k : Z) :
  0 < m0 < 2 ^ 53 -> 0 <= k -> mx = m0 * 2 ^ k ->
  -1074 <= ex + k <= 971 ->
  exists m e,
    binary_round_aux 53 1024 s mx ex loc_Exact = S754_finite s m e
    /\ Z.pos m < 2 ^ 53
    /\ -1074 <= e <= 971
    /\ ex <= e
    /\ Z.pos m * 2 ^ (e - ex) = mx.
Proof.
  intros Hm0 Hk Hmx Hex.
  assert (Hk2 : 0 < 2 ^ k) by now apply pow2_pos.
  assert (Hpos : 0 < mx) by (subst mx; lia).
  rewrite binary_round_aux_pack.
  destruct (shr_fexp_exact_spec mx ex Hpos) as [He1 [Hm1 [_ [Hexact Hmin]]]].
  cbn zeta in *. rewrite He1. clear He1.
  set (e1 := Z.max ex (fexp 53 1024 (Zdigits2 mx + ex))) in *.
  set (m1 := round_nearest_even _ _) in *.
  assert (Hd : Zdigits2 mx <= 53 + k).
  { apply Zdigits2_le; [exact Hpos|]. rewrite Z.pow_add_r by lia. subst mx.
    apply Z.mul_lt_mono_pos_r; lia. }
  assert (He1k : ex <= e1 <= ex + k).
  { unfold e1. rewrite fexp_eq. lia. }
  assert (Hdiv : mx mod 2 ^ (e1 - ex) = 0).
  { subst mx. rewrite (pow2_split (e1 - ex) k) by lia.
    rewrite Z.mul_assoc. apply Z.mod_mul.
    pose proof (pow2_pos (e1 - ex)). lia. }
  specialize (Hexact Hdiv).
  assert (Hj : 0 < 2 ^ (e1 - ex)) by (apply pow2_pos; lia).
  assert (Hm1pos : 0 < m1) by nia.
  destruct (pack_spec s m1 e1 ltac:(lia) Hmin) as [m [e [Hp [Hlt [Hcase Hval]]]]].
  assert (Hek : e <= ex + k).
  { destruct Hcase as [->|[-> Hm1eq]]; [lia|].
    destruct (Z.eq_dec e1 (ex + k)) as [Heq|]; [|lia].
    exfalso. rewrite Heq in Hexact.
    replace (ex + k - ex) with k in Hexact by lia. subst mx. nia. }
  exists m, e. rewrite Hp.
  destruct (Z.leb_spec e 971); [|lia].
  repeat split; try lia.
  rewrite <- Hexact, <- Hval. rewrite <- Z.mul_assoc, <- Z.pow_add_r by lia.
  f_equal. f_equal. lia.
Qed.

Lemma Pos_iter_xO (m d : positive) :
  Z.pos (Pos.iter xO m d) = Z.pos m * 2 ^ Z.pos d.
Proof.
  induction d as [|d IH] using Pos.peano_ind.
  - simpl. lia.
  - rewrite Pos.iter_succ, Pos2Z.inj_succ, Z.pow_succ_r by lia.
    rewrite Pos2Z.inj_xO, IH. lia.
Qed.

Lemma shl_align_spec (mx : positive) (ex ex' : Z) :
  let '(mz, ez) := shl_align mx ex ex' in
  ez = Z.min ex ex' /\ Z.pos mz = Z.pos mx * 2 ^ (ex - ez).
Proof.
  unfold shl_align. destruct (ex' - ex) as [|d|d] eqn:Hd.
  - replace (Z.min ex ex') with ex by lia. rewrite Z.sub_diag. split; lia.
  - replace (Z.min ex ex') with ex by lia. rewrite Z.sub_diag. split; lia.
  - split; [lia|]. rewrite Pos_iter_xO. f_equal. f_equal. lia.
Qed.

(** [binary_round] of a quantity that fits the format returns it. *)
Lemma binary_round_exact (s : bool) (mx : positive) (ex m0 k : Z) :
  0 < m0 < 2 ^ 53 -> 0 <= k -> Z.pos mx = m0 * 2 ^ k ->
  -1074 <= ex -> ex + k <= 971 ->
  exists m e,
    binary_round 53 1024 s mx ex = S754_finite s m e
    /\ Z.pos m < 2 ^ 53
    /\ -1074 <= e <= 971
    /\ Z.pos m * 2 ^ (e + 1074) = Z.pos mx * 2 ^ (ex + 1074).
Proof.
  intros Hm0 Hk Hmx Hex Hexk. unfold binary_round.
  pose proof (shl_align_spec mx ex (fexp 53 1024 (Z.pos (digits2_pos mx) + ex)))
    as Hal.
  destruct (shl_align mx ex _) as [mz ez]. destruct Hal as [Hez Hmz].
  assert (Hmin : -1074 <= ez <= ex) by (rewrite Hez, fexp_eq; lia).
  destruct (binary_round_aux_exact s (Z.pos mz) ez m0 (k + (ex - ez)))
    as [m [e [Hr [Hlt [He [Hle Hval]]]]]]; try lia.
  { rewrite Hmz, Hmx, Z.pow_add_r by lia. lia. }
  exists m, e. split; [exact Hr|]. repeat split; try lia.
  rewrite (pow2_split (ez + 1074) (e + 1074)) by lia.
  replace (e + 1074 - (ez + 1074)) with (e - ez) by lia.
  rewrite Z.mul_assoc, Hval, Hmz.
  rewrite <- Z.mul_assoc, <- Z.pow_add_r by lia. f_equal. f_equal. lia.
Qed.

(** *** The steps of [divmod1] *)

Lemma units_nonneg (x : float) : nonneg_finite x -> 0 <= units x.
Proof.
  destruct x as [s|s| |s m e]; cbn [units nonneg_finite]; try lia.
  intros [-> [_ He]]. pose proof (pow2_pos (e + 1074)). nia.
Qed.

Lemma units_finite_false (m : positive) (e : Z) :
  units (S754_finite false m e) = Z.pos m * 2 ^ (e + 1074).
Proof. unfold units. apply Z.mul_1_l. Qed.

(** [int(x)] of a float that is not negative is the floor of its value. *)
Lemma to_int_units (x : float) :
  nonneg_finite x -> to_int x = Ok (units x / 2 ^ 1074).
Proof.
  destruct x as [s|s| |s m e]; cbn [nonneg_finite]; try contradiction.
  - intros _. reflexivity.
  - intros [-> [_ He]]. rewrite units_finite_false.
    cbn [to_int]. unfold trunc_Z. f_equal.
    destruct (Z.leb_spec 0 e) as [Hle|Hlt].
    + rewrite Z.pow_add_r by lia. rewrite Z.mul_assoc.
      rewrite Z.div_mul; [reflexivity|]. pose proof (pow2_pos 1074). lia.
    + rewrite (pow2_split (e + 1074) 1074) by lia.
      replace (1074 - (e + 1074)) with (- e) by lia.
      rewrite Z.div_mul_cancel_r; [reflexivity| |];
        [pose proof (pow2_pos (- e))|pose proof (pow2_pos (e + 1074))]; lia.
Qed.

Section Finite.
Variables (m : positive) (e : Z).
Hypothesis Hm : Z.pos m < 2 ^ 53.
Hypothesis He : -1074 <= e <= 971.

Let x : float := S754_finite false m e.

(** [fmod(x, 1.0)] is the fraction of [x], exactly. *)
Lemma fmod1_spec :
  nonneg_finite (fmod1 x) /\ units (fmod1 x) = units x mod 2 ^ 1074.
Proof.
  unfold x. rewrite units_finite_false. cbn [fmod1].
  destruct (Z.leb_spec 0 e) as [Hle|Hlt].
  - split; [reflexivity|]. cbn [units].
    rewrite Z.pow_add_r, Z.mul_assoc by lia. symmetry. apply Z.mod_mul.
    pose proof (pow2_pos 1074); lia.
  - assert (Hmod : (Z.pos m * 2 ^ (e + 1074)) mod 2 ^ 1074
                   = Z.pos m mod 2 ^ (- e) * 2 ^ (e + 1074)).
    { rewrite (pow2_split (e + 1074) 1074) by lia.
      replace (1074 - (e + 1074)) with (- e) by lia.
      apply Z.mul_mod_distr_r;
        [pose proof (pow2_pos (- e))|pose proof (pow2_pos (e + 1074))]; lia. }
    rewrite Hmod.
    pose proof (Z.mod_pos_bound (Z.pos m) (2 ^ (- e)) (pow2_pos (- e) ltac:(lia))) as Hb.
    pose proof (Z.mod_le (Z.pos m) (2 ^ (- e)) ltac:(lia) (pow2_pos (- e) ltac:(lia))) as Hl.
    destruct (Z.pos m mod 2 ^ (- e)) as [|f|f] eqn:Hf; try lia.
    + split; [reflexivity|]. cbn [units]. lia.
    + destruct (binary_round_exact false f e (Z.pos f) 0)
        as [mf [ef [Hr [Hlt' [Hef Hval]]]]]; try lia.
      unfold prec, emax. rewrite Hr. rewrite units_finite_false.
      split; [cbn [nonneg_finite]; repeat split; lia|lia].
Qed.

(** [x - fmod(x, 1.0)] is the integer part of [x], exactly. *)
Lemma sub_fmod1_spec :
  nonneg_finite (sub x (fmod1 x))
  /\ units (sub x (fmod1 x)) = units x / 2 ^ 1074 * 2 ^ 1074.
Proof.
  destruct fmod1_spec as [Hshape Hunits].
  assert (H1074 : 0 < 2 ^ 1074) by (apply pow2_pos; lia).
  pose proof (Z.div_mod (units x) (2 ^ 1074) ltac:(lia)) as Hdm.
  assert (Heneg : fmod1 x <> S754_zero false -> e < 0).
  { unfold x. cbn [fmod1]. destruct (Z.leb_spec 0 e); [congruence|lia]. }
  destruct (fmod1 x) as [s|s| |s mf ef] eqn:Hf; cbn [nonneg_finite] in Hshape;
    try contradiction.
  - unfold x in *.
    change (sub (S754_finite false m e) (S754_zero s)) with (S754_finite false m e).
    split; [cbn [nonneg_finite]; repeat split; [exact Hm|lia|lia]|].
    change (units (S754_zero s)) with 0 in Hunits. lia.
  - destruct Hshape as [-> [Hmf Hef]].
    specialize (Heneg ltac:(discriminate)).
    unfold x in *. rewrite !units_finite_false in *.
    unfold sub, SFsub. cbn [cond_Zopp].
    pose proof (shl_align_spec m e (Z.min e ef)) as H1.
    pose proof (shl_align_spec mf ef (Z.min e ef)) as H2.
    destruct (shl_align m e (Z.min e ef)) as [m1 z1].
    destruct (shl_align mf ef (Z.min e ef)) as [m2 z2].
    cbn [fst]. destruct H1 as [Hz1 Hm1], H2 as [Hz2 Hm2].
    set (ez := Z.min e ef) in *.
    assert (Hez : -1074 <= ez <= e) by (unfold ez; lia).
    assert (Hez' : ez <= ef) by (unfold ez; lia).
    replace z1 with ez in * by lia. replace z2 with ez in * by lia.
    set (I := Z.pos m * 2 ^ (e + 1074) / 2 ^ 1074) in *.
    assert (HD : (Z.pos m1 - Z.pos m2) * 2 ^ (ez + 1074) = I * 2 ^ 1074).
    { rewrite Z.mul_sub_distr_r, Hm1, Hm2.
      rewrite <- !Z.mul_assoc, <- !Z.pow_add_r by lia.
      replace (e - ez + (ez + 1074)) with (e + 1074) by lia.
      replace (ef - ez + (ez + 1074)) with (ef + 1074) by lia.
      lia. }
    assert (HI : 0 <= I < 2 ^ 53).
    { unfold I. split; [apply Z.div_pos; [pose proof (pow2_pos (e + 1074))|]; lia|].
      apply Z.div_lt_upper_bound; [lia|].
      assert (2 ^ (e + 1074) <= 2 ^ 1074) by (apply Z.pow_le_mono_r; lia).
      pose proof (pow2_pos (e + 1074)). nia. }
    assert (HDI : Z.pos m1 - Z.pos m2 = I * 2 ^ (- ez)).
    { rewrite (pow2_split (ez + 1074) 1074) in HD by lia.
      replace (1074 - (ez + 1074)) with (- ez) in HD by lia.
      pose proof (pow2_pos (ez + 1074) ltac:(lia)). nia. }
    pose proof (pow2_pos (- ez) ltac:(lia)) as Hpz.
    destruct (Z.pos m1 - Z.pos m2) as [|d|d] eqn:Hd.
    + cbn [binary_normalize]. split; [reflexivity|]. cbn [units]. nia.
    + cbn [binary_normalize].
      destruct (binary_round_exact false d ez I (- ez))
        as [md [ed [Hr [Hlt' [Hed Hval]]]]]; try lia.
      unfold prec, emax. rewrite Hr. rewrite units_finite_false.
      split; [cbn [nonneg_finite]; repeat split; lia|]. lia.
    + exfalso. nia.
Qed.

End Finite.

Lemma div_eucl_div_mod (a b : Z) : Z.div_eucl a b = (a / b, a mod b).
Proof. unfold Z.div, Z.modulo. now destruct (Z.div_eucl a b). Qed.

(** Dividing by [1.0] is exact. *)
Lemma div_one_spec (m : positive) (e : Z) :
  Z.pos m < 2 ^ 53 -> -1074 <= e <= 971 ->
  exists m' e',
    div (S754_finite false m e) one = S754_finite false m' e'
    /\ Z.pos m' < 2 ^ 53 /\ -1074 <= e' <= 971
    /\ Z.pos m' * 2 ^ (e' + 1074) = Z.pos m * 2 ^ (e + 1074).
Proof.
  intros Hm He.
  pose proof (Zdigits2_pos (Z.pos m) ltac:(lia)) as Hd0.
  pose proof (Zdigits2_le (Z.pos m) 53 ltac:(lia) Hm) as Hd.
  unfold div, one, SFdiv, SFdiv_core_binary. cbn [xorb].
  rewrite fexp_eq.
  change (Zdigits2 (Z.pos 4503599627370496)) with 53.
  set (d1 := Zdigits2 (Z.pos m)) in *.
  set (e' := Z.min (Z.max (d1 + e - (53 + -52) - 53) (-1074)) (e - -52)).
  assert (He' : -1074 <= e' <= e) by (unfold e'; lia).
  destruct (e - -52 - e') as [|p|p] eqn:Hs; try lia.
  assert (Hp : 52 <= Z.pos p) by lia.
  rewrite Z.shiftl_mul_pow2 by lia.
  rewrite div_eucl_div_mod.
  assert (Hsplit : Z.pos m * 2 ^ Z.pos p
                   = Z.pos m * 2 ^ (Z.pos p - 52) * Z.pos 4503599627370496).
  { rewrite (pow2_split 52 (Z.pos p)) by lia.
    change (2 ^ 52) with (Z.pos 4503599627370496). lia. }
  rewrite Hsplit, Z.div_mul, Z.mod_mul by lia.
  change (new_location (Z.pos 4503599627370496) 0) with loc_Exact.
  destruct (binary_round_aux_exact false (Z.pos m * 2 ^ (Z.pos p - 52)) e'
              (Z.pos m) (Z.pos p - 52))
    as [m2 [e2 [Hr [Hlt [He2 [Hle Hval]]]]]]; try lia.
  exists m2, e2. unfold prec, emax. rewrite Hr.
  split; [reflexivity|]. repeat split; try lia.
  rewrite (pow2_split (e' + 1074) (e2 + 1074)) by lia.
  replace (e2 + 1074 - (e' + 1074)) with (e2 - e') by lia.
  rewrite Z.mul_assoc, Hval, <- Z.mul_assoc, <- Z.pow_add_r by lia.
  f_equal. f_equal. lia.
Qed.

(** [x - x] is [+0.0]. *)
Lemma sub_self (s : bool) (m : positive) (e : Z) :
  sub (S754_finite s m e) (S754_finite s m e) = S754_zero false.
Proof.
  unfold sub, SFsub. rewrite Z.min_id. unfold shl_align. rewrite Z.sub_diag.
  cbn [fst]. reflexivity.
Qed.

(** [floor] of a float whose value is an integer. *)
Lemma floor_integer (m : positive) (e : Z) :
  -1074 <= e ->
  (Z.pos m * 2 ^ (e + 1074)) mod 2 ^ 1074 = 0 ->
  floor (S754_finite false m e) = S754_finite false m e.
Proof.
  intros He Hmod. cbn [floor].
  destruct (Z.leb_spec 0 e) as [Hle|Hlt]; [reflexivity|].
  rewrite (pow2_split (e + 1074) 1074) in Hmod by lia.
  replace (1074 - (e + 1074)) with (- e) in Hmod by lia.
  rewrite Z.mul_mod_distr_r in Hmod;
    [|pose proof (pow2_pos (- e)); lia|pose proof (pow2_pos (e + 1074)); lia].
  assert (Hz : Z.pos m mod 2 ^ (- e) = 0).
  { pose proof (pow2_pos (e + 1074) ltac:(lia)). nia. }
  rewrite Hz. reflexivity.
Qed.

(** [divmod(x, 1.0)] of a positive finite float: the integer part and the
    fraction, both exact. *)
Lemma divmod1_positive (m : positive) (e : Z) :
  Z.pos m < 2 ^ 53 -> -1074 <= e <= 971 ->
  let x := S754_finite false m e in
  nonneg_finite (fst (divmod1 x))
  /\ nonneg_finite (snd (divmod1 x))
  /\ units (fst (divmod1 x)) = units x / 2 ^ 1074 * 2 ^ 1074
  /\ units (snd (divmod1 x)) = units x mod 2 ^ 1074.
Proof.
  intros Hm He x.
  destruct (fmod1_spec m e Hm He) as [Hms Hmu].
  destruct (sub_fmod1_spec m e Hm He) as [Hss Hsu].
  fold x in Hms, Hmu, Hss, Hsu.
  assert (H1074 : 0 < 2 ^ 1074) by (apply pow2_pos; lia).
  unfold divmod1. fold x.
  set (mod0 := fmod1 x) in *.
  set (d := sub x mod0) in *.
  (* the quotient before the snap *)
  assert (Hdiv0 : nonneg_finite (div d one) /\ units (div d one) = units d
                  /\ (is_zero (div d one) = true -> units d = 0)).
  { destruct d as [s|s| |s md ed]; cbn [nonneg_finite] in Hss; try contradiction.
    - subst s. split; [reflexivity|]. split; [reflexivity|]. reflexivity.
    - destruct Hss as [-> [Hmd Hed]].
      destruct (div_one_spec md ed Hmd Hed) as [m' [e' [Hr [Hlt [He' Hval]]]]].
      rewrite Hr. rewrite !units_finite_false.
      split; [cbn [nonneg_finite]; repeat split; lia|].
      split; [exact Hval|]. discriminate. }
  destruct Hdiv0 as [Hds [Hdu Hdz]].
  set (div0 := div d one) in *.
  (* the remainder and the quotient after the sign adjustment *)
  assert (Hmd : (if negb (is_zero mod0)
                 then if ltb mod0 zero then (add mod0 one, sub div0 one)
                      else (mod0, div0)
                 else (zero, div0))
                = (if is_zero mod0 then zero else mod0, div0)).
  { destruct mod0 as [s|s| |s mf ef]; cbn [nonneg_finite] in Hms;
      try contradiction; [reflexivity|].
    destruct Hms as [-> _]. reflexivity. }
  rewrite Hmd. clear Hmd. cbn [fst snd].
  assert (Hfloor : (if negb (is_zero div0)
                    then if ltb half (sub div0 (floor div0))
                         then add (floor div0) one else floor div0
                    else copysign_zero (div x one))
                   = (if is_zero div0 then zero else div0)).
  { destruct div0 as [s|s| |s mq eq] eqn:Hq; cbn [nonneg_finite] in Hds;
      try contradiction.
    - cbn [is_zero negb].
      destruct (div_one_spec m e Hm He) as [m' [e' [Hr _]]].
      unfold x. rewrite Hr. reflexivity.
    - destruct Hds as [-> [Hmq Heq]]. cbn [is_zero negb].
      rewrite floor_integer; [rewrite sub_self; reflexivity|lia|].
      rewrite units_finite_false in Hdu. rewrite Hdu, Hsu.
      apply Z.mod_mul. lia. }
  rewrite Hfloor. clear Hfloor.
  split; [|split; [|split]].
  - destruct (is_zero div0); [reflexivity|exact Hds].
  - destruct (is_zero mod0); [reflexivity|exact Hms].
  - destruct (is_zero div0) eqn:Hz.
    + rewrite <- Hsu, (Hdz eq_refl). reflexivity.
    + rewrite Hdu. exact Hsu.
  - destruct mod0 as [s|s| |s mf ef]; cbn [is_zero]; exact Hmu.
Qed.

(** *** The product with [1e9] *)

Lemma f1e9_eq : f1e9 = S754_finite false 8388608000000000 (-23).
Proof. reflexivity. Qed.

(** A fraction below one, times [1e9], rounds to less than [1e9]. *)
Lemma mul_1e9_bound (r : float) :
  nonneg_finite r -> units r < 2 ^ 1074 ->
  nonneg_finite (mul r f1e9)
  /\ units (mul r f1e9) < 1000000000 * 2 ^ 1074.
Proof.
  intros Hr Hlt.
  assert (HP : exists P, 0 < P /\ 2 ^ 1074 = 9007199254740992 * P
                         /\ P = 2 ^ 1021).
  { exists (2 ^ 1021). split; [apply pow2_pos; lia|].
    split; [|reflexivity]. rewrite (pow2_split 1021 1074) by lia. reflexivity. }
  destruct HP as [P [HP0 [HP HPdef]]].
  destruct r as [s|s| |s m e]; cbn [nonneg_finite] in Hr; try contradiction.
  - subst s. rewrite f1e9_eq. split; [reflexivity|]. cbn [mul SFmul units].
    change (units (mul (S754_zero false) (S754_finite false 8388608000000000 (-23))))
      with 0. lia.
  - destruct Hr as [-> [Hm He]]. rewrite units_finite_false in Hlt.
    rewrite f1e9_eq. unfold mul, SFmul. cbn [xorb].
    set (M := Z.pos (m * 8388608000000000)).
    set (E := e + -23).
    set (t := e + 1074) in *.
    assert (Ht : 0 <= t) by (unfold t; lia).
    assert (H2t : 0 < 2 ^ t) by now apply pow2_pos.
    set (u := Z.pos m * 2 ^ t) in *.
    assert (HM : M = Z.pos m * 8388608000000000) by (unfold M; lia).
    (* the fraction is at most the largest float below one *)
    assert (Hu : u <= 9007199254740992 * P - P).
    { destruct (Z_le_gt_dec 1021 t) as [Hge|Hsmall].
      - assert (Hsp : 2 ^ t = 2 ^ (t - 1021) * P).
        { rewrite HPdef. apply pow2_split. lia. }
        pose proof (pow2_pos (t - 1021) ltac:(lia)) as Hq.
        unfold u in *. rewrite Hsp in *.
        assert (Z.pos m * 2 ^ (t - 1021) < 9007199254740992) by nia.
        nia.
      - assert (2 ^ t <= 2 ^ 1020) by (apply Z.pow_le_mono_r; lia).
        assert (HP' : P = 2 * 2 ^ 1020).
        { rewrite HPdef. rewrite (pow2_split 1020 1021) by lia. reflexivity. }
        change (2 ^ 53) with 9007199254740992 in Hm.
        unfold u. nia. }
    assert (Heneg : e < 0).
    { destruct (Z_lt_le_dec e 0) as [|Hge]; [assumption|]. exfalso.
      assert (2 ^ 1074 <= 2 ^ t) by (apply Z.pow_le_mono_r; unfold t; lia).
      unfold u in Hlt. nia. }
    assert (HMpos : 0 < M) by (unfold M; lia).
    rewrite binary_round_aux_pack.
    destruct (shr_fexp_exact_spec M E HMpos) as [He1 [Hm1 [Herr [_ Hmin]]]].
    cbn zeta in *. unfold prec, emax. rewrite He1. clear He1.
    set (e1 := Z.max E (fexp 53 1024 (Zdigits2 M + E))) in *.
    set (m1 := round_nearest_even _ _) in *.
    (* the product is below 2^30 *)
    assert (Hd : Zdigits2 M <= 30 - E).
    { apply Zdigits2_le; [exact HMpos|].
      assert (Hs : 2 ^ (30 - E) * 2 ^ t = 2 ^ 53 * 2 ^ 1074).
      { rewrite <- !Z.pow_add_r by (unfold E, t; lia). f_equal. unfold E, t. lia. }
      change (2 ^ 53) with 9007199254740992 in Hs, Hm.
      assert (M * 2 ^ t < 2 ^ (30 - E) * 2 ^ t).
      { rewrite Hs, HM. unfold u in Hlt. nia. }
      nia. }
    assert (He1 : E <= e1 <= -23).
    { unfold e1. rewrite fexp_eq. unfold E in *. lia. }
    set (W := m1 * 2 ^ (e1 + 1097)).
    assert (HQ : 2 ^ (e1 + 1097) <= 9007199254740992 * P).
    { rewrite <- HP. apply Z.pow_le_mono_r; lia. }
    assert (Ha : 2 * W <= 2 * (u * 8388608000000000) + 2 ^ (e1 + 1097)).
    { assert (Hj : 2 * (m1 * 2 ^ (e1 - E) - M) <= 2 ^ (e1 - E)) by lia.
      apply (Z.mul_le_mono_nonneg_r _ _ (2 ^ t)) in Hj; [|lia].
      assert (Hjt : 2 ^ (e1 - E) * 2 ^ t = 2 ^ (e1 + 1097)).
      { rewrite <- Z.pow_add_r by lia. f_equal. unfold E, t. lia. }
      unfold W, u. rewrite <- Hjt. rewrite HM in Hj. nia. }
    assert (HW : W < 8388608000000000 * (9007199254740992 * P)) by lia.
    assert (HW23 : W = m1 * 2 ^ (e1 + 1074) * 8388608).
    { unfold W. rewrite <- Z.mul_assoc. f_equal.
      change 8388608 with (2 ^ 23). rewrite <- Z.pow_add_r by lia.
      f_equal. lia. }
    assert (Hval : m1 * 2 ^ (e1 + 1074) < 1000000000 * 2 ^ 1074).
    { rewrite HP. lia. }
    destruct (Z.eq_dec m1 0) as [Hz|Hnz].
    + rewrite Hz, pack_zero by lia. split; [reflexivity|].
      cbn [units]. lia.
    + destruct (pack_spec false m1 e1 ltac:(lia) Hmin)
        as [mf [ef [Hp [Hlt' [Hcase Hv]]]]].
      rewrite Hp.
      assert (Hef : e1 <= ef <= e1 + 1) by lia.
      destruct (Z.leb_spec ef 971); [|lia].
      rewrite units_finite_false.
      split; [cbn [nonneg_finite]; repeat split; lia|].
      rewrite (pow2_split (e1 + 1074) (ef + 1074)) by lia.
      replace (ef + 1074 - (e1 + 1074)) with (ef - e1) by lia.
      rewrite Z.mul_assoc, Hv. exact Hval.
Qed.

(** *** The elapsed time and its stamp *)

Lemma nonneg_finite_in_format (x : float) : nonneg_finite x -> in_format x.
Proof. destruct x; cbn; tauto. Qed.

(** [float(n)] of an int that is not negative. *)
Lemma of_Z_shape (n : Z) : 0 <= n -> nonneg_shape (of_Z n).
Proof.
  intros Hn. unfold of_Z, binary_normalize. destruct n as [|p|p]; try lia.
  - reflexivity.
  - unfold binary_round. destruct (shl_align p 0 _) as [mz ez].
    apply binary_round_aux_shape. lia.
Qed.

Lemma SFdiv_core_binary_nonneg (m1 e1 m2 e2 : Z) :
  0 <= m1 -> 0 < m2 ->
  0 <= fst (fst (SFdiv_core_binary 53 1024 m1 e1 m2 e2)).
Proof.
  intros H1 H2. unfold SFdiv_core_binary.
  set (s := e1 - e2 - _).
  set (m' := match s with Z.pos _ => Z.shiftl m1 s | 0 => m1 | Z.neg _ => 0 end).
  assert (Hm' : 0 <= m').
  { unfold m'. destruct s; try lia. apply Z.shiftl_nonneg. exact H1. }
  rewrite div_eucl_div_mod. cbn [fst]. apply Z.div_pos; lia.
Qed.

(** The quotient of a float that is not negative by a positive float. *)
Lemma div_shape (a y : float) :
  nonneg_finite a -> ltb zero y = true -> nonneg_shape (div a y).
Proof.
  intros Ha Hy.
  destruct y as [s|s| |s my ey]; try discriminate;
    destruct s; try discriminate;
    destruct a as [sa|sa| |sa ma ea]; cbn [nonneg_finite] in Ha;
    try contradiction; try (subst sa; reflexivity);
    try (destruct Ha as [-> _]; reflexivity).
  destruct Ha as [-> _]. unfold div, SFdiv. cbn [xorb].
  pose proof (SFdiv_core_binary_nonneg (Z.pos ma) ea (Z.pos my) ey
                ltac:(lia) ltac:(lia)) as Hq.
  unfold prec, emax.
  destruct (SFdiv_core_binary 53 1024 (Z.pos ma) ea (Z.pos my) ey) as [[mz ez] lz].
  apply binary_round_aux_shape. exact Hq.
Qed.

Lemma int_truediv_shape (n d : Z) (q : float) :
  0 <= n -> 0 < d -> int_truediv n d = Ok q -> nonneg_finite q.
Proof.
  intros Hn Hd. unfold int_truediv.
  destruct n as [|n|n]; try lia; destruct d as [|d|d]; try lia.
  - intros H; inversion H. reflexivity.
  - cbn [Z.abs Z.ltb Z.compare xorb].
    pose proof (SFdiv_core_binary_nonneg (Z.pos n) 0 (Z.pos d) 0
                  ltac:(lia) ltac:(lia)) as Hq.
    unfold prec, emax.
    destruct (SFdiv_core_binary 53 1024 (Z.pos n) 0 (Z.pos d) 0) as [[mz ez] lz].
    pose proof (binary_round_aux_shape mz ez lz Hq) as Hs.
    destruct (binary_round_aux 53 1024 false mz ez lz); intros H; inversion H;
      subst; cbn in *; tauto.
Qed.

(** The elapsed time of a frame of ordinal at least 1, at a positive frame
    rate, is a float that is zero or positive; it can be [+inf]. *)
Lemma elapsed_shape (n : Z) (fps : pynum) (a : pynum) :
  1 <= n -> py_gt0 fps = true ->
  py_int_truediv (n - 1) fps = Ok a ->
  exists elapsed, a = PyFloat elapsed /\ nonneg_shape elapsed.
Proof.
  intros Hn Hgt. unfold py_int_truediv. destruct fps as [d|y]; cbn [py_gt0] in Hgt.
  - destruct (int_truediv (n - 1) d) as [q|e] eqn:Hq; cbn [bind]; [|discriminate].
    intros H; inversion H; subst. exists q. split; [reflexivity|].
    apply int_truediv_shape in Hq; try lia.
    destruct q; cbn in *; tauto.
  - pose proof (of_Z_shape (n - 1) ltac:(lia)) as Hs.
    unfold of_int. destruct (of_Z (n - 1)) as [s|s| |s m e] eqn:Ha;
      cbn [bind]; try discriminate; cbn [nonneg_shape] in Hs; try contradiction.
    + assert (Hz : is_zero y = false) by (destruct y; try reflexivity; discriminate).
      rewrite Hz. intros H. exists (div (S754_zero s) y).
      split; [congruence|]. apply div_shape; [exact Hs|exact Hgt].
    + assert (Hz : is_zero y = false) by (destruct y; try reflexivity; discriminate).
      rewrite Hz. intros H. exists (div (S754_finite s m e) y).
      split; [congruence|]. apply div_shape; [|exact Hgt].
      cbn [nonneg_finite]. tauto.
Qed.

(** [divmod(x, 1.0)] of a float that is zero or positive and finite. *)
Lemma divmod1_nonneg (x : float) :
  nonneg_finite x ->
  nonneg_finite (fst (divmod1 x))
  /\ nonneg_finite (snd (divmod1 x))
  /\ units (fst (divmod1 x)) = units x / 2 ^ 1074 * 2 ^ 1074
  /\ units (snd (divmod1 x)) = units x mod 2 ^ 1074.
Proof.
  destruct x as [s|s| |s m e]; cbn [nonneg_finite]; try contradiction.
  - intros ->. repeat split.
  - intros [-> [Hm He]]. now apply divmod1_positive.
Qed.

(** The stamp of a frame of ordinal at least 1 at a positive frame rate. *)
Lemma timestamp_split (n : Z) (fps : pynum) (secs nanos : Z) :
  1 <= n -> py_gt0 fps = true ->
  timestamp n fps = Ok (secs, nanos) ->
  exists elapsed,
    py_int_truediv (n - 1) fps = Ok (PyFloat elapsed)
    /\ nonneg_finite elapsed
    /\ split_stamp elapsed {| sec := secs; nanosec := nanos |}
    /\ 0 <= secs
    /\ 0 <= nanos < 1000000000.
Proof.
  intros Hn Hgt. unfold timestamp, timestamp_parts. rewrite Hgt.
  destruct (py_int_truediv (n - 1) fps) as [a|e] eqn:Ha; cbn [bind];
    [|discriminate].
  destruct (elapsed_shape n fps a Hn Hgt Ha) as [x [-> Hx]].
  cbn [py_divmod_1].
  assert (H1074 : 0 < 2 ^ 1074) by (apply pow2_pos; lia).
  destruct x as [s|s| |s m e] eqn:Ex; cbn [nonneg_shape] in Hx;
    try contradiction.
  - (* zero *)
    subst s. intros H. vm_compute in H. inversion H; subst.
    exists (S754_zero false). split; [reflexivity|]. split; [reflexivity|].
    split; [|lia]. exists (S754_zero false). cbn. repeat split; lia.
  - (* infinity: the product is NaN and [int] raises *)
    subst s. intros H. vm_compute in H. discriminate.
  - (* positive and finite *)
    destruct Hx as [-> Hwf]. rewrite <- Ex in *.
    assert (Hxf : nonneg_finite x) by (rewrite Ex; cbn; tauto).
    destruct (divmod1_nonneg x Hxf) as [Hq [Hr [Hqu Hru]]].
    destruct (divmod1 x) as [q r]. cbn [fst snd] in *.
    cbn [py_mul_1e9 bind py_int].
    pose proof (Z.mod_pos_bound (units x) (2 ^ 1074) H1074) as Hb.
    destruct (mul_1e9_bound r Hr ltac:(lia)) as [Hys Hyu].
    rewrite (to_int_units _ Hys). cbn [bind py_int].
    rewrite (to_int_units _ Hq). cbn [bind].
    intros H; inversion H; subst secs nanos. clear H.
    pose proof (units_nonneg _ Hys) as Hy0.
    pose proof (units_nonneg _ Hxf) as Hx0.
    exists x. split; [reflexivity|]. split; [exact Hxf|].
    rewrite Hqu, Z.div_mul by lia.
    split; [|split].
    + exists r. split; [now apply nonneg_finite_in_format|].
      split; [lia|]. cbn [sec nanosec].
      split; [|reflexivity].
      rewrite Hru. pose proof (Z.div_mod (units x) (2 ^ 1074)). lia.
    + apply Z.div_pos; lia.
    + split; [apply Z.div_pos; lia|].
      apply Z.div_lt_upper_bound; lia.
Qed.


(** ** The axis-convention constant *)

(** C8.  The axis-convention constant is orthogonal: its products with its
    transpose are the identity, and its translation column is zero.
    Left-multiplying the identity by it gives the constant itself, over the
    ints and over the floats.  Its rotation block sends the source basis
    vectors right [e1], down [e2] and forward [e3] to [-e2], [-e3] and
    [+e1]: to right (minus left), down (minus up) and forward of the
    target convention forward/left/up. *)
Theorem CV_TO_ROS_FRAME_is_signed_permutation :
  matmul CV_TO_ROS_FRAME (transpose CV_TO_ROS_FRAME) = identity4
  /\ matmul (transpose CV_TO_ROS_FRAME) CV_TO_ROS_FRAME = identity4
  /\ translation_column CV_TO_ROS_FRAME = [0; 0; 0]
  /\ matmul CV_TO_ROS_FRAME identity4 = CV_TO_ROS_FRAME
  /\ matmul (astype_float CV_TO_ROS_FRAME) identity_matrix
     = astype_float CV_TO_ROS_FRAME
  /\ matvec (rotation_block CV_TO_ROS_FRAME) [1; 0; 0] = [0; -1; 0]
  /\ matvec (rotation_block CV_TO_ROS_FRAME) [0; 1; 0] = [0; 0; -1]
  /\ matvec (rotation_block CV_TO_ROS_FRAME) [0; 0; 1] = [1; 0; 0].
Proof. repeat split; vm_compute; reflexivity. Qed.

(** ** The concrete example *)

(** The identity quaternion stands for the identity rotation, which is not
    the rotation block of the constant; twice the quaternion
    [(1/2, -1/2, 1/2, -1/2)] has squared norm 4 and stands for that block. *)
Lemma rotation_of_identity_quaternion :
  rotation_of_quat 0 0 0 1 = rotation_block identity4
  /\ rotation_of_quat 0 0 0 1 <> rotation_block CV_TO_ROS_FRAME
  /\ rotation_of_quat 1 (-1) 1 (-1)
     = map (map (Z.mul 4)) (rotation_block CV_TO_ROS_FRAME).
Proof. repeat split; vm_compute; congruence. Qed.

(** C1, as stated, fails: the pose of the example frame at 30 frames per
    second does not have the identity quaternion as its orientation. *)
Lemma example_orientation_is_not_identity :
  exists pose,
    process_frame "map" (PyFloat f30) example_frame = Ok pose
    /\ same_numbers (orientation pose) [zero; zero; zero; one] = false.
Proof. eexists; split; [vm_compute; reflexivity | vm_compute; reflexivity]. Qed.

(** C1, amended.  The pose of the example frame at 30 frames per second has
    stamp [(0, 0)], position [(0, 0, 0)] and orientation
    [(1/2, -1/2, 1/2, -1/2)], the quaternion of the axis-convention
    rotation. *)
Theorem example_pose :
  process_frame "map" (PyFloat f30) example_frame
  = Ok {| header_stamp := {| sec := 0; nanosec := 0 |};
          header_frame_id := "map";
          position := [zero; zero; zero];
          orientation := [half; minus_half; half; minus_half] |}.
Proof. vm_compute; reflexivity. Qed.


(** ** The loop and the sort *)

Section Loop.
Variables (frame_id : string) (fps : pynum).

Lemma process_frames_uncaught_None (frames : list frame) :
  forall poses err,
    uncaught (process_frames frame_id fps frames poses err) = None ->
    all_poses (process_frames frame_id fps frames poses err)
    = (poses ++ map snd (emitted frame_id fps frames))%list
    /\ Forall (fun f => forall e, process_frame frame_id fps f = Raise e ->
                                  caught e = true) frames.
Proof.
  induction frames as [|f rest IH]; intros poses err Hu; simpl in *.
  - now rewrite app_nil_r.
  - destruct (process_frame frame_id fps f) as [pose|e] eqn:Hf.
    + destruct (IH _ _ Hu) as [Hp Hall]. split.
      * rewrite Hp, <- app_assoc. reflexivity.
      * constructor; [intros e He; congruence | exact Hall].
    + destruct e; simpl in Hu; try discriminate;
        destruct (IH _ _ Hu) as [Hp Hall]; (split; [exact Hp|]);
        constructor; try exact Hall; intros e He; rewrite Hf in He;
        inversion He; reflexivity.
Qed.

Lemma process_frames_all_caught (frames : list frame) :
  Forall (fun f => forall e, process_frame frame_id fps f = Raise e ->
                             caught e = true) frames ->
  forall poses err,
    uncaught (process_frames frame_id fps frames poses err) = None.
Proof.
  induction 1 as [|f rest Hf _ IH]; intros poses err; simpl.
  - reflexivity.
  - destruct (process_frame frame_id fps f) as [pose|e] eqn:E.
    + apply IH.
    + specialize (Hf e eq_refl). destruct e; simpl in Hf; try discriminate; apply IH.
Qed.

Lemma process_frames_stderr_incl (frames : list frame) :
  forall poses err line,
    In line err ->
    In line (stderr (process_frames frame_id fps frames poses err)).
Proof.
  induction frames as [|f rest IH]; intros poses err line Hin; simpl.
  - exact Hin.
  - destruct (process_frame frame_id fps f) as [pose|e].
    + now apply IH.
    + destruct e; simpl; try exact Hin; apply IH, in_or_app; now left.
Qed.

Lemma process_frames_reports_skip (frames : list frame) (f : frame) (e : exn) :
  In f frames ->
  process_frame frame_id fps f = Raise e ->
  caught e = true ->
  forall poses err,
    uncaught (process_frames frame_id fps frames poses err) = None ->
    In ("Skipping frame due to error: " ++ str_exn e)
       (stderr (process_frames frame_id fps frames poses err)).
Proof.
  intros Hin Hf Hc. revert Hin.
  induction frames as [|g rest IH]; intros Hin; [contradiction|].
  intros poses err Hu. simpl in *. destruct Hin as [->|Hin].
  - rewrite Hf in *. destruct e; simpl in Hc; try discriminate;
      apply process_frames_stderr_incl, in_or_app; right; left; reflexivity.
  - destruct (process_frame frame_id fps g) as [pose|e'].
    + now apply IH.
    + destruct e'; simpl in Hu; try discriminate; now apply IH.
Qed.

Lemma emitted_spec (frames : list frame) :
  Forall (fun fp => In (fst fp) frames
                    /\ process_frame frame_id fps (fst fp) = Ok (snd fp))
         (emitted frame_id fps frames).
Proof.
  induction frames as [|f rest IH]; simpl; [constructor|].
  destruct (process_frame frame_id fps f) as [pose|e] eqn:Hf.
  - constructor; [simpl; auto|].
    eapply Forall_impl; [|exact IH]. simpl; intros a [? ?]; auto.
  - eapply Forall_impl; [|exact IH]. simpl; intros a [? ?]; auto.
Qed.

Lemma emitted_length_all_ok (frames : list frame) :
  Forall (fun f => exists pose, process_frame frame_id fps f = Ok pose) frames ->
  List.length (emitted frame_id fps frames) = List.length frames.
Proof.
  induction 1 as [|f rest [pose Hf] _ IH]; simpl; [reflexivity|].
  rewrite Hf. simpl. now rewrite IH.
Qed.

Lemma emitted_app (l1 l2 : list frame) :
  emitted frame_id fps (l1 ++ l2)
  = (emitted frame_id fps l1 ++ emitted frame_id fps l2)%list.
Proof.
  induction l1 as [|f rest IH]; simpl; [reflexivity|].
  destruct (process_frame frame_id fps f); simpl; now rewrite IH.
Qed.

Lemma emitted_none (frames : list frame) :
  Forall (fun f => exists e, process_frame frame_id fps f = Raise e) frames ->
  emitted frame_id fps frames = [].
Proof.
  induction 1 as [|f rest [e Hf] _ IH]; simpl; [reflexivity|].
  now rewrite Hf.
Qed.

Lemma emitted_StronglySorted (R : frame -> frame -> Prop) (frames : list frame) :
  StronglySorted R frames ->
  StronglySorted R (map fst (emitted frame_id fps frames)).
Proof.
  induction 1 as [|f rest Hs IH Hall]; simpl; [constructor|].
  destruct (process_frame frame_id fps f); simpl; [|exact IH].
  constructor; [exact IH|].
  rewrite Forall_forall in *. intros g Hg. apply Hall.
  apply in_map_iff in Hg. destruct Hg as [[g' q] [<- Hin]].
  pose proof (emitted_spec rest) as Hsp. rewrite Forall_forall in Hsp.
  apply (Hsp _ Hin).
Qed.

End Loop.

Lemma string_leb_trans (s1 s2 s3 : string) :
  String.leb s1 s2 = true -> String.leb s2 s3 = true -> String.leb s1 s3 = true.
Proof.
  unfold String.leb. revert s2 s3.
  induction s1 as [|a s1 IH]; intros [|b s2] [|c s3]; simpl; try congruence.
  unfold Ascii.compare.
  destruct (N.compare_spec (N_of_ascii a) (N_of_ascii b)) as [Hab|Hab|Hab];
    destruct (N.compare_spec (N_of_ascii b) (N_of_ascii c)) as [Hbc|Hbc|Hbc];
    destruct (N.compare_spec (N_of_ascii a) (N_of_ascii c)) as [Hac|Hac|Hac];
    try congruence; try lia.
  apply IH.
Qed.

Lemma insert_by_key_perm (x : string * frame) (l : list (string * frame)) :
  Permutation (x :: l) (insert_by_key x l).
Proof.
  induction l as [|y l IH]; simpl; [apply Permutation_refl|].
  destruct (String.leb (fst x) (fst y)); [apply Permutation_refl|].
  eapply Permutation_trans; [apply perm_swap|]. now apply perm_skip.
Qed.

Lemma stable_sort_perm (l : list (string * frame)) :
  Permutation l (stable_sort l).
Proof.
  induction l as [|x l IH]; simpl; [constructor|].
  eapply Permutation_trans; [apply perm_skip, IH|apply insert_by_key_perm].
Qed.

Lemma insert_by_key_sorted (x : string * frame) (l : list (string * frame)) :
  StronglySorted key_le l -> StronglySorted key_le (insert_by_key x l).
Proof.
  induction 1 as [|y l Hs IH Hall]; simpl.
  - repeat constructor.
  - destruct (String.leb (fst x) (fst y)) eqn:Hxy.
    + constructor; [now constructor|].
      constructor; [exact Hxy|].
      eapply Forall_impl; [|exact Hall].
      intros z Hz. unfold key_le in *. eapply string_leb_trans; eauto.
    + constructor; [exact IH|].
      assert (Hyx : key_le y x).
      { unfold key_le. destruct (String.leb_total (fst x) (fst y)); congruence. }
      eapply Permutation_Forall; [apply insert_by_key_perm|].
      now constructor.
Qed.

Lemma stable_sort_sorted (l : list (string * frame)) :
  StronglySorted key_le (stable_sort l).
Proof.
  induction l as [|x l IH]; simpl; [constructor|].
  now apply insert_by_key_sorted.
Qed.

Lemma sort_keys_Ok (frames : list frame) (ks : list (string * frame)) :
  sort_keys frames = Ok ks -> map snd ks = frames /\ Forall keyed ks.
Proof.
  revert ks. induction frames as [|f rest IH]; simpl; intros ks Hk.
  - inversion Hk. split; constructor.
  - destruct (file_path f) as [p|] eqn:Hp; simpl in Hk; [|discriminate].
    destruct (sort_keys rest) as [ks'|e]; simpl in Hk; [|discriminate].
    inversion Hk; subst. destruct (IH _ eq_refl) as [Hm Hall].
    split; [simpl; now rewrite Hm|]. constructor; [exact Hp|exact Hall].
Qed.

Lemma sort_keys_missing (frames : list frame) :
  Exists (fun f => file_path f = None) frames ->
  sort_keys frames = Raise (KeyError "file_path").
Proof.
  induction 1 as [f rest Hf|f rest _ IH]; simpl.
  - now rewrite Hf.
  - destruct (file_path f); simpl; [|reflexivity]. now rewrite IH.
Qed.

Lemma sort_keys_present (frames : list frame) :
  Forall (fun f => file_path f <> None) frames ->
  exists ks, sort_keys frames = Ok ks.
Proof.
  induction 1 as [|f rest Hf _ [ks IH]]; simpl; [now eexists|].
  destruct (file_path f); [|congruence]. simpl. rewrite IH. simpl. now eexists.
Qed.

Lemma key_le_path_le (l : list (string * frame)) :
  Forall keyed l -> StronglySorted key_le l ->
  StronglySorted path_le (map snd l).
Proof.
  intros Hk Hs. induction Hs as [|a l Hs IH Hall]; simpl; [constructor|].
  inversion Hk as [|? ? Ha Hl]; subst. constructor; [now apply IH|].
  rewrite Forall_forall in *. intros g Hg.
  apply in_map_iff in Hg. destruct Hg as [b [<- Hb]].
  exists (fst a), (fst b). repeat split; [exact Ha|now apply Hl|now apply Hall].
Qed.

(** The sorted frames are the frames of the list, in the order of their
    file paths. *)
Lemma sorted_by_file_path_Ok (frames sorted : list frame) :
  sorted_by_file_path frames = Ok sorted ->
  Permutation frames sorted /\ StronglySorted path_le sorted.
Proof.
  unfold sorted_by_file_path. destruct (sort_keys frames) as [ks|e] eqn:Hk;
    simpl; intros Hs; inversion Hs; subst; clear Hs.
  destruct (sort_keys_Ok _ _ Hk) as [Hm Hall]. split.
  - rewrite <- Hm. apply Permutation_map, stable_sort_perm.
  - apply key_le_path_le; [|apply stable_sort_sorted].
    eapply Permutation_Forall; [apply stable_sort_perm|exact Hall].
Qed.

(** A run that writes a file has sorted the frames, gone through all of
    them, and written the poses of those that yield one, in that order. *)
Lemma main_written (frame_id video_name : string) (frames : option (list frame))
  (fps : pynum) (out : output_file) :
  written (main frame_id video_name frames fps) = Some out ->
  exists sorted,
    sorted_by_file_path (frame_list frames) = Ok sorted
    /\ poses out = map snd (emitted frame_id fps sorted)
    /\ ending (main frame_id video_name frames fps) = Exit 0.
Proof.
  unfold main.
  destruct (sorted_by_file_path (frame_list frames)) as [sorted|e]; simpl;
    [|discriminate].
  destruct (uncaught (process_frames frame_id fps sorted [] [])) eqn:Hu; simpl;
    [discriminate|].
  destruct (process_frames_uncaught_None frame_id fps sorted [] [] Hu) as [Hp _].
  simpl in Hp. rewrite Hp.
  destruct (map snd (emitted frame_id fps sorted)) eqn:Hm; simpl; [discriminate|].
  intros Ho; inversion Ho; subst; simpl. exists sorted. auto.
Qed.

(** A run whose frames all carry a file path and raise nothing but what the
    loop catches ends with status 0, and emits the poses of the sorted
    frames. *)
Lemma main_completes (frame_id video_name : string) (frames : list frame)
  (fps : pynum) :
  Forall (fun f => file_path f <> None) frames ->
  Forall (fun f => forall e, process_frame frame_id fps f = Raise e ->
                             caught e = true) frames ->
  exists sorted,
    Permutation frames sorted
    /\ sorted_by_file_path frames = Ok sorted
    /\ ending (main frame_id video_name (Some frames) fps) = Exit 0
    /\ run_poses (main frame_id video_name (Some frames) fps)
       = map snd (emitted frame_id fps sorted)
    /\ (forall line,
          In line (stderr (process_frames frame_id fps sorted [] [])) ->
          In line (diagnostics (main frame_id video_name (Some frames) fps))).
Proof.
  intros Hpath Hcaught.
  destruct (sort_keys_present _ Hpath) as [ks Hks].
  assert (Hs : sorted_by_file_path frames = Ok (map snd (stable_sort ks))).
  { unfold sorted_by_file_path. now rewrite Hks. }
  destruct (sorted_by_file_path_Ok _ _ Hs) as [Hperm _].
  exists (map snd (stable_sort ks)). split; [exact Hperm|]. split; [exact Hs|].
  unfold main, run_poses. cbn [frame_list]. rewrite Hs.
  assert (Hu : uncaught (process_frames frame_id fps (map snd (stable_sort ks)) [] [])
               = None).
  { apply process_frames_all_caught.
    eapply Permutation_Forall; [exact Hperm|exact Hcaught]. }
  rewrite Hu.
  destruct (process_frames_uncaught_None frame_id fps _ [] [] Hu) as [Hp _].
  simpl in Hp. rewrite Hp.
  destruct (map snd (emitted frame_id fps (map snd (stable_sort ks)))); simpl;
    repeat split; auto.
  intros line Hl. apply in_or_app. now left.
Qed.

Lemma emitted_Forall2 (frame_id : string) (fps : pynum) (frames : list frame) :
  Forall2 (fun f pose => process_frame frame_id fps f = Ok pose)
          (map fst (emitted frame_id fps frames))
          (map snd (emitted frame_id fps frames)).
Proof.
  pose proof (emitted_spec frame_id fps frames) as Hs.
  induction Hs as [|[f pose] l [_ Hf] _ IH]; simpl; constructor; auto.
Qed.

Lemma emitted_length_perm (frame_id : string) (fps : pynum) (l l' : list frame) :
  Permutation l l' ->
  List.length (emitted frame_id fps l) = List.length (emitted frame_id fps l').
Proof.
  induction 1 as [|f l l' _ IH|f g l|l l' l'' _ IH1 _ IH2]; simpl.
  - reflexivity.
  - destruct (process_frame frame_id fps f); simpl; now rewrite IH.
  - destruct (process_frame frame_id fps f), (process_frame frame_id fps g);
      reflexivity.
  - now rewrite IH1.
Qed.

Lemma process_frame_Ok_has_path (frame_id : string) (fps : pynum) (f : frame)
  (pose : pose_stamped) :
  process_frame frame_id fps f = Ok pose -> file_path f <> None.
Proof.
  unfold process_frame. destruct (file_path f); simpl; congruence.
Qed.

Lemma process_frame_malformed (frame_id : string) (fps : pynum) (f : frame)
  (path : string) :
  file_path f = Some path ->
  re_search_frame path = None ->
  process_frame frame_id fps f
  = Raise (ValueError ("Could not extract frame number from " ++ path)).
Proof.
  intros Hp Hs. unfold process_frame, extract_frame_number.
  rewrite Hp. simpl. now rewrite Hs.
Qed.

(** ** Ordering of the output *)

(** C4.  The poses of the written file come, one each and in this order,
    from frames of the input whose file paths ascend in the order of
    strings: every frame's path is at most the path of the next one (and of
    all later ones). *)
Theorem poses_follow_file_path_order (frame_id video_name : string)
  (frames : option (list frame)) (fps : pynum) (out : output_file) :
  written (main frame_id video_name frames fps) = Some out ->
  exists sources : list frame,
    Forall2 (fun f pose => process_frame frame_id fps f = Ok pose)
            sources (poses out)
    /\ (forall f, In f sources -> In f (frame_list frames))
    /\ Sorted path_le sources
    /\ StronglySorted path_le sources.
Proof.
  intros Hw. destruct (main_written _ _ _ _ _ Hw) as [sorted [Hs [Hp _]]].
  destruct (sorted_by_file_path_Ok _ _ Hs) as [Hperm Hsorted].
  exists (map fst (emitted frame_id fps sorted)).
  assert (Hss : StronglySorted path_le (map fst (emitted frame_id fps sorted)))
    by now apply emitted_StronglySorted.
  repeat split.
  - rewrite Hp. apply emitted_Forall2.
  - intros f Hf. apply in_map_iff in Hf. destruct Hf as [[g pose] [<- Hin]].
    pose proof (emitted_spec frame_id fps sorted) as Hsp.
    rewrite Forall_forall in Hsp. destruct (Hsp _ Hin) as [Hg _].
    eapply Permutation_in; [apply Permutation_sym, Hperm|exact Hg].
  - now apply StronglySorted_Sorted.
  - exact Hss.
Qed.

(** The order is that of the strings, not of the ordinals: frame 10 comes
    before frame 2. *)
Example order_is_lexicographic :
  map (fun pose => nanosec (header_stamp pose))
      (run_poses (main "map" "video"
                    (Some [frame_at "frame_2.png"; frame_at "frame_10.png"])
                    (PyFloat f30)))
  = [300000000; 33333333].
Proof. vm_compute; reflexivity. Qed.

Lemma poses_follow_file_path_order_witness :
  exists out sources,
    written (main "map" "video"
               (Some [frame_at "frame_2.png"; frame_at "frame_10.png"])
               (PyFloat f30)) = Some out
    /\ Forall2 (fun f pose => process_frame "map" (PyFloat f30) f = Ok pose)
               sources (poses out)
    /\ Sorted path_le sources.
Proof.
  destruct (written (main "map" "video"
                       (Some [frame_at "frame_2.png"; frame_at "frame_10.png"])
                       (PyFloat f30))) as [out|] eqn:Hw;
    [|vm_compute in Hw; discriminate].
  exists out.
  destruct (poses_follow_file_path_order _ _ _ _ _ Hw)
    as [sources [H2 [_ [Hs _]]]].
  exists sources. split; [reflexivity|]. split; assumption.
Defined.

(** ** The per-record error policy *)

(** C6.  In a list of N frames of which one has an identifier without the
    [frame_<digits>] marker and the others each yield a pose, the run ends
    with status 0, emits N - 1 poses (one per valid frame) and reports the
    skipped frame. *)
Theorem one_malformed_frame_is_skipped (frame_id video_name : string)
  (fps : pynum) (before after : list frame) (bad : frame) (path : string) :
  file_path bad = Some path ->
  re_search_frame path = None ->
  Forall (fun f => exists pose, process_frame frame_id fps f = Ok pose)
         (before ++ after) ->
  let frames := (before ++ bad :: after)%list in
  let r := main frame_id video_name (Some frames) fps in
  ending r = Exit 0
  /\ List.length (run_poses r) = (List.length frames - 1)%nat
  /\ List.length (run_poses r) = List.length (before ++ after)
  /\ In ("Skipping frame due to error: Could not extract frame number from "
           ++ path) (diagnostics r).
Proof.
  intros Hp Hs Hvalid frames r.
  pose proof (process_frame_malformed frame_id fps bad path Hp Hs) as Hbad.
  apply Forall_app in Hvalid. destruct Hvalid as [Hb Ha].
  assert (Hpath : Forall (fun f => file_path f <> None) frames).
  { apply Forall_app. split; [|constructor; [congruence|]];
      (eapply Forall_impl; [|eassumption]); intros f [pose Hf];
      eapply process_frame_Ok_has_path; eauto. }
  assert (Hcaught : Forall (fun f => forall e, process_frame frame_id fps f = Raise e
                                               -> caught e = true) frames).
  { apply Forall_app. split; [|constructor];
      try (eapply Forall_impl; [|eassumption]; intros f [pose Hf] e He; congruence).
    intros e He. rewrite Hbad in He. inversion He. reflexivity. }
  destruct (main_completes frame_id video_name frames fps Hpath Hcaught)
    as [sorted [Hperm [Hsort [Hend [Hposes Hdiag]]]]].
  fold r in Hend, Hposes, Hdiag.
  assert (Hlen : List.length (run_poses r) = List.length (before ++ after)).
  { rewrite Hposes, length_map, <- (emitted_length_perm _ _ _ _ Hperm).
    unfold frames. rewrite emitted_app. simpl. rewrite Hbad.
    rewrite !length_app, !emitted_length_all_ok; auto. }
  repeat split; auto.
  - rewrite Hlen. unfold frames. rewrite !length_app. simpl. lia.
  - apply Hdiag.
    apply (process_frames_reports_skip frame_id fps sorted bad _
             (Permutation_in _ Hperm (in_elt bad before after)) Hbad eq_refl).
    apply process_frames_all_caught.
    eapply Permutation_Forall; [exact Hperm|exact Hcaught].
Qed.

Lemma one_malformed_frame_is_skipped_witness :
  let r := main "map" "video"
             (Some [example_frame; frame_at "images/oops.png";
                    frame_at "images/frame_0002.png"]) (PyFloat f30) in
  ending r = Exit 0 /\ List.length (run_poses r) = 2%nat.
Proof.
  destruct (one_malformed_frame_is_skipped "map" "video" (PyFloat f30)
              [example_frame] [frame_at "images/frame_0002.png"]
              (frame_at "images/oops.png") "images/oops.png"
              eq_refl eq_refl) as [He [Hl _]].
  - repeat constructor; eexists; vm_compute; reflexivity.
  - split; [exact He|exact Hl].
Defined.

(** C7.  When every frame is skipped by the loop, the run emits no pose,
    writes no file, warns, and exits with status 0. *)
Theorem no_surviving_frame_exits_zero (frame_id video_name : string)
  (frames : option (list frame)) (fps : pynum) :
  Forall (fun f => file_path f <> None) (frame_list frames) ->
  Forall (fun f => exists e, process_frame frame_id fps f = Raise e
                             /\ caught e = true) (frame_list frames) ->
  let r := main frame_id video_name frames fps in
  run_poses r = []
  /\ written r = None
  /\ ending r = Exit 0
  /\ In "Warning: No poses were extracted." (diagnostics r).
Proof.
  intros Hpath Hskip r.
  assert (Hcaught : Forall (fun f => forall e, process_frame frame_id fps f = Raise e
                                               -> caught e = true)
                           (frame_list frames)).
  { eapply Forall_impl; [|exact Hskip]. intros f [e [He Hc]] e' He'. congruence. }
  destruct (sort_keys_present _ Hpath) as [ks Hks].
  assert (Hs : sorted_by_file_path (frame_list frames)
               = Ok (map snd (stable_sort ks))).
  { unfold sorted_by_file_path. now rewrite Hks. }
  destruct (sorted_by_file_path_Ok _ _ Hs) as [Hperm _].
  assert (Hu : uncaught (process_frames frame_id fps (map snd (stable_sort ks)) [] [])
               = None).
  { apply process_frames_all_caught.
    eapply Permutation_Forall; [exact Hperm|exact Hcaught]. }
  destruct (process_frames_uncaught_None frame_id fps _ [] [] Hu) as [Hp _].
  rewrite emitted_none in Hp.
  2:{ eapply Permutation_Forall; [exact Hperm|].
      eapply Forall_impl; [|exact Hskip]. intros f [e [He _]]; eauto. }
  simpl in Hp.
  unfold r, run_poses, main. rewrite Hs, Hu, Hp. simpl.
  repeat split; auto. apply in_or_app. right. now left.
Qed.

Lemma no_surviving_frame_exits_zero_witness :
  let r := main "map" "video"
             (Some [frame_at "images/oops.png"; frame_at "images/frame_.png"])
             (PyFloat f30) in
  run_poses r = [] /\ written r = None /\ ending r = Exit 0.
Proof.
  destruct (no_surviving_frame_exits_zero "map" "video"
              (Some [frame_at "images/oops.png"; frame_at "images/frame_.png"])
              (PyFloat f30)) as [Hp [Hw [He _]]].
  - repeat constructor; simpl; congruence.
  - repeat constructor; eexists; (split; [vm_compute; reflexivity|reflexivity]).
  - repeat split; assumption.
Defined.

Lemma process_frame_missing_matrix (frame_id : string) (fps : pynum) (f : frame)
  (path : string) (n : Z) (ts : pynum * Z) :
  file_path f = Some path ->
  transform_matrix f = None ->
  extract_frame_number path = Ok n ->
  timestamp_parts n fps = Ok ts ->
  process_frame frame_id fps f = Raise (KeyError "transform_matrix").
Proof.
  intros Hp Hm Hn Ht. unfold process_frame.
  rewrite Hp, Hm. simpl. rewrite Hn. simpl. rewrite Ht. simpl.
  now destruct ts.
Qed.

(** C9.  A frame record without the [file_path] key ends the run while the
    frames are sorted: an uncaught [KeyError], no frame processed (no pose,
    no diagnostic), no file written.  A record that only lacks
    [transform_matrix] is instead skipped by the loop, which reports it and
    goes on with the remaining frames. *)
Theorem missing_file_path_aborts_the_run (frame_id video_name : string)
  (fps : pynum) (frames : list frame) :
  Exists (fun f => file_path f = None) frames ->
  main frame_id video_name (Some frames) fps
  = {| ending := Traceback (KeyError "file_path");
       diagnostics := [];
       written := None |}
  /\ forall (f : frame) (path : string) (n : Z) (ts : pynum * Z)
            (rest : list frame) (poses : list pose_stamped) (err : list string),
       file_path f = Some path ->
       transform_matrix f = None ->
       extract_frame_number path = Ok n ->
       timestamp_parts n fps = Ok ts ->
       process_frames frame_id fps (f :: rest) poses err
       = process_frames frame_id fps rest poses
           (err ++ ["Skipping frame due to error: 'transform_matrix'"]).
Proof.
  intros Hex. split.
  - unfold main, sorted_by_file_path. cbn [frame_list].
    now rewrite (sort_keys_missing _ Hex).
  - intros f path n ts rest poses err Hp Hm Hn Ht. simpl.
    now rewrite (process_frame_missing_matrix frame_id fps f path n ts Hp Hm Hn Ht).
Qed.

Lemma missing_file_path_aborts_the_run_witness :
  main "map" "video"
    (Some [example_frame;
           {| file_path := None;
              transform_matrix := Some (FloatRows identity_matrix) |}])
    (PyFloat f30)
  = {| ending := Traceback (KeyError "file_path");
       diagnostics := [];
       written := None |}
  /\ process_frames "map" (PyFloat f30)
       [{| file_path := Some "images/frame_0003.png"; transform_matrix := None |};
        example_frame] [] []
     = process_frames "map" (PyFloat f30) [example_frame] []
         ["Skipping frame due to error: 'transform_matrix'"].
Proof.
  destruct (missing_file_path_aborts_the_run "map" "video" (PyFloat f30)
              [example_frame;
               {| file_path := None;
              transform_matrix := Some (FloatRows identity_matrix) |}])
    as [Habort Hskip].
  - apply Exists_cons_tl, Exists_cons_hd. reflexivity.
  - split; [exact Habort|].
    apply (Hskip {| file_path := Some "images/frame_0003.png";
                    transform_matrix := None |}
                 "images/frame_0003.png" 3
                 (PyFloat zero, 66666666)); vm_compute; reflexivity.
Defined.

(** C10.  A descriptor without the [frames] key gives the run of an empty
    frame list: a warning, no file, exit status 0. *)
Theorem missing_frames_key_is_empty_result (frame_id video_name : string)
  (fps : pynum) :
  main frame_id video_name None fps
  = {| ending := Exit 0;
       diagnostics := ["Warning: No poses were extracted."];
       written := None |}
  /\ main frame_id video_name None fps = main frame_id video_name (Some []) fps.
Proof. split; reflexivity. Qed.

(** ** The zero frame rate *)

Lemma zero_rate_not_positive (fps : pynum) : zero_rate fps -> py_gt0 fps = false.
Proof.
  destruct fps as [n|x]; simpl.
  - intros ->. reflexivity.
  - destruct x; simpl; try discriminate. reflexivity.
Qed.

Lemma timestamp_parts_not_positive (n : Z) (fps : pynum) :
  py_gt0 fps = false -> timestamp_parts n fps = Ok (PyInt 0, 0).
Proof. intros H. unfold timestamp_parts. rewrite H. reflexivity. Qed.

Lemma no_zero_division_bind {A B : Type} (r : result A) (k : A -> result B) :
  no_zero_division r -> (forall a, no_zero_division (k a)) ->
  no_zero_division (bind r k).
Proof.
  intros Hr Hk msg. destruct r as [a|e]; simpl; [apply Hk|].
  intros He. apply (Hr msg). inversion He. reflexivity.
Qed.

Lemma no_zero_division_Ok {A : Type} (a : A) : no_zero_division (Ok a).
Proof. intros msg; discriminate. Qed.

Lemma to_int_no_zero_division (x : float) : no_zero_division (to_int x).
Proof. intros msg. destruct x; discriminate. Qed.

Lemma of_int_no_zero_division (n : Z) : no_zero_division (of_int n).
Proof. intros msg. unfold of_int. destruct (of_Z n); discriminate. Qed.

Lemma getitem_no_zero_division {A : Type} (key : string) (o : option A) :
  no_zero_division (getitem key o).
Proof. intros msg. destruct o; discriminate. Qed.

Lemma int_truediv_no_zero_division (n d : Z) :
  d <> 0 -> no_zero_division (int_truediv n d).
Proof.
  intros Hd msg. unfold int_truediv.
  destruct n, d; try congruence; try discriminate.
  all: destruct (SFdiv_core_binary _ _ _ _ _ _) as [[mz ez] lz].
  all: destruct (binary_round_aux _ _ _ _ _ _); discriminate.
Qed.

(** The division of [timestamp_parts] is guarded: no frame rate makes it
    divide by zero. *)
Lemma timestamp_parts_no_zero_division (n : Z) (fps : pynum) :
  no_zero_division (timestamp_parts n fps).
Proof.
  unfold timestamp_parts. apply no_zero_division_bind.
  - destruct (py_gt0 fps) eqn:Hgt; [|apply no_zero_division_Ok].
    destruct fps as [d|y]; simpl in *.
    + apply no_zero_division_bind; [|intros; apply no_zero_division_Ok].
      apply int_truediv_no_zero_division. lia.
    + apply no_zero_division_bind; [apply of_int_no_zero_division|].
      intros x. destruct y; simpl in *; try discriminate;
        apply no_zero_division_Ok.
  - intros a. destruct (py_divmod_1 a) as [q r].
    apply no_zero_division_bind.
    + destruct r; simpl; [|apply no_zero_division_Ok].
      apply no_zero_division_bind;
        [apply of_int_no_zero_division|intros; apply no_zero_division_Ok].
    + intros y. apply no_zero_division_bind;
        [apply to_int_no_zero_division|intros; apply no_zero_division_Ok].
Qed.

Lemma process_frame_no_zero_division (frame_id : string) (fps : pynum)
  (f : frame) :
  no_zero_division (process_frame frame_id fps f).
Proof.
  unfold process_frame.
  apply no_zero_division_bind; [apply getitem_no_zero_division|intros path].
  apply no_zero_division_bind.
  { unfold extract_frame_number. destruct (re_search_frame path);
      intros msg; discriminate. }
  intros n. apply no_zero_division_bind;
    [apply timestamp_parts_no_zero_division|intros [ts_sec ts_nanosec]].
  apply no_zero_division_bind; [apply getitem_no_zero_division|intros m].
  apply no_zero_division_bind.
  { unfold np_array. destruct (match m with
                               | IntRows M => rectangular M
                               | FloatRows M => rectangular M
                               end); intros msg; discriminate. }
  intros a. apply no_zero_division_bind.
  { unfold matmul_CV. destruct (nrows a =? 4)%nat; intros msg; discriminate. }
  intros r. apply no_zero_division_bind.
  { unfold index_column_3. destruct (ncolumns r <=? 3)%nat;
      intros msg; discriminate. }
  intros p.
  apply no_zero_division_bind; [|intros; apply no_zero_division_Ok].
  destruct ts_sec; simpl; [apply no_zero_division_Ok|apply to_int_no_zero_division].
Qed.

Lemma process_frames_no_zero_division (frame_id : string) (fps : pynum)
  (frames : list frame) :
  forall poses err msg,
    uncaught (process_frames frame_id fps frames poses err)
    <> Some (ZeroDivisionError msg).
Proof.
  induction frames as [|f rest IH]; intros poses err msg; simpl; [discriminate|].
  destruct (process_frame frame_id fps f) as [pose|e] eqn:Hf; [apply IH|].
  destruct e; simpl; try apply IH; try discriminate.
  exfalso. eapply process_frame_no_zero_division. exact Hf.
Qed.

(** No run divides by zero, whatever the frame rate. *)
Lemma main_no_zero_division (frame_id video_name : string)
  (frames : option (list frame)) (fps : pynum) (msg : string) :
  ending (main frame_id video_name frames fps) <> Traceback (ZeroDivisionError msg).
Proof.
  unfold main.
  destruct (sorted_by_file_path (frame_list frames)) as [sorted|e] eqn:Hs; simpl.
  - destruct (uncaught (process_frames frame_id fps sorted [] [])) eqn:Hu; simpl.
    + intros H. inversion H; subst.
      eapply process_frames_no_zero_division. exact Hu.
    + destruct (all_poses _); simpl; discriminate.
  - unfold sorted_by_file_path in Hs.
    destruct (sort_keys (frame_list frames)) eqn:Hk; simpl in Hs; [discriminate|].
    inversion Hs; subst.
    assert (Hke : forall l e', sort_keys l = Raise e' -> e' = KeyError "file_path").
    { induction l as [|f rest IH]; simpl; intros e' He; [discriminate|].
      destruct (file_path f); simpl in He; [|now inversion He].
      destruct (sort_keys rest); simpl in He; [discriminate|].
      inversion He; subst. now apply IH. }
    rewrite (Hke _ _ Hk). discriminate.
Qed.

(** C5.  A zero denominator makes the resolver return 0, and at a resolved
    frame rate of zero every emitted pose is stamped [(0, 0)]; the run does
    not end in a division by zero. *)
Theorem zero_frame_rate_stamps_zero (frame_id video_name : string)
  (frames : option (list frame)) (fps : pynum) :
  zero_rate fps ->
  let r := main frame_id video_name frames fps in
  (forall num, get_video_fps num 0 = Ok (PyInt 0))
  /\ (forall pose, In pose (run_poses r) ->
                   header_stamp pose = {| sec := 0; nanosec := 0 |})
  /\ (forall n, timestamp n fps = Ok (0, 0))
  /\ (forall msg, ending r <> Traceback (ZeroDivisionError msg)).
Proof.
  intros Hz r. pose proof (zero_rate_not_positive _ Hz) as Hgt.
  repeat split.
  - unfold r, run_poses. intros pose.
    destruct (written (main frame_id video_name frames fps)) as [out|] eqn:Hw;
      [|contradiction].
    destruct (main_written _ _ _ _ _ Hw) as [sorted [_ [Hp _]]].
    rewrite Hp. intros Hin. apply in_map_iff in Hin.
    destruct Hin as [[f q] [<- Hin]]. simpl.
    pose proof (emitted_spec frame_id fps sorted) as Hsp.
    rewrite Forall_forall in Hsp. destruct (Hsp _ Hin) as [_ Hf]. simpl in Hf.
    unfold process_frame in Hf.
    destruct (getitem "file_path" (file_path f)); simpl in Hf; [|discriminate].
    destruct (extract_frame_number a); simpl in Hf; [|discriminate].
    rewrite (timestamp_parts_not_positive _ _ Hgt) in Hf. simpl in Hf.
    destruct (getitem "transform_matrix" (transform_matrix f)); simpl in Hf;
      [|discriminate].
    destruct (np_array _); simpl in Hf; [|discriminate].
    destruct (matmul_CV _); simpl in Hf; [|discriminate].
    destruct (index_column_3 _); simpl in Hf; [|discriminate].
    inversion Hf. reflexivity.
  - intros n. unfold timestamp.
    now rewrite (timestamp_parts_not_positive _ _ Hgt).
  - intros msg. apply main_no_zero_division.
Qed.

Lemma zero_frame_rate_stamps_zero_witness :
  get_video_fps 30 0 = Ok (PyInt 0)
  /\ map header_stamp
       (run_poses (main "map" "video"
                     (Some [example_frame; frame_at "images/frame_0090.png"])
                     (PyInt 0)))
     = [ {| sec := 0; nanosec := 0 |}; {| sec := 0; nanosec := 0 |} ]
  /\ timestamp 90 (PyInt 0) = Ok (0, 0).
Proof.
  destruct (zero_frame_rate_stamps_zero "map" "video"
              (Some [example_frame; frame_at "images/frame_0090.png"])
              (PyInt 0) eq_refl) as [Hr [_ [Ht _]]].
  split; [apply Hr|]. split; [vm_compute; reflexivity|apply Ht].
Defined.

(** ** The range of the stamp *)

(** C2, as stated, fails: the frame of ordinal 0 at 30 frames per second is
    emitted with [sec = -1], outside the range of the stamp. *)
Lemma ordinal_zero_has_negative_seconds :
  exists pose,
    In pose (run_poses (main "map" "video"
                          (Some [frame_at "images/frame_0000.png"])
                          (PyFloat f30)))
    /\ header_stamp pose = {| sec := -1; nanosec := 966666666 |}
    /\ ~ stamp_in_range (header_stamp pose).
Proof.
  eexists. split; [vm_compute; left; reflexivity|].
  split; [reflexivity|].
  unfold stamp_in_range. cbn [header_stamp sec]. lia.
Qed.

Lemma process_frame_stamp (frame_id : string) (fps : pynum) (f : frame)
  (pose : pose_stamped) :
  process_frame frame_id fps f = Ok pose ->
  exists path n,
    file_path f = Some path
    /\ extract_frame_number path = Ok n
    /\ timestamp n fps
       = Ok (sec (header_stamp pose), nanosec (header_stamp pose)).
Proof.
  unfold process_frame, timestamp.
  destruct (file_path f) as [path|]; cbn [getitem bind]; [|discriminate].
  destruct (extract_frame_number path) as [n|e] eqn:Hn; cbn [bind];
    [|discriminate].
  destruct (timestamp_parts n fps) as [[ts_sec ts_nanosec]|e] eqn:Ht;
    cbn [bind]; [|discriminate].
  destruct (transform_matrix f) as [c2w|]; cbn [getitem bind]; [|discriminate].
  destruct (np_array c2w) as [arr|e]; cbn [bind]; [|discriminate].
  destruct (matmul_CV arr) as [ros|e]; cbn [bind]; [|discriminate].
  destruct (index_column_3 ros) as [pos|e]; cbn [bind]; [|discriminate].
  destruct (py_int ts_sec) as [s|e] eqn:Hs; cbn [bind]; [|discriminate].
  intros H. inversion H; subst; clear H. cbn [header_stamp sec nanosec].
  exists path, n. split; [reflexivity|]. split; [exact Hn|].
  rewrite Ht. cbn [bind]. rewrite Hs. reflexivity.
Qed.

(** Every pose of a run comes from a frame of the list. *)
Lemma run_poses_source (frame_id video_name : string)
  (frames : option (list frame)) (fps : pynum) (pose : pose_stamped) :
  In pose (run_poses (main frame_id video_name frames fps)) ->
  exists f, In f (frame_list frames) /\ process_frame frame_id fps f = Ok pose.
Proof.
  unfold run_poses.
  destruct (written (main frame_id video_name frames fps)) as [out|] eqn:Hw;
    [|contradiction].
  destruct (main_written _ _ _ _ _ Hw) as [sorted [Hs [Hp _]]].
  destruct (sorted_by_file_path_Ok _ _ Hs) as [Hperm _].
  rewrite Hp. intros Hin. apply in_map_iff in Hin.
  destruct Hin as [[f q] [<- Hin]].
  pose proof (emitted_spec frame_id fps sorted) as Hsp.
  rewrite Forall_forall in Hsp. destruct (Hsp _ Hin) as [Hf Hok].
  exists f. split; [|exact Hok].
  eapply Permutation_in; [apply Permutation_sym, Hperm|exact Hf].
Qed.

(** The stamp of a pose is in range when the ordinal of its frame is at
    least 1, and at every ordinal when the frame rate is not positive. *)
Lemma process_frame_stamp_in_range (frame_id : string) (fps : pynum)
  (f : frame) (pose : pose_stamped) :
  process_frame frame_id fps f = Ok pose ->
  exists path n,
    file_path f = Some path
    /\ extract_frame_number path = Ok n
    /\ (py_gt0 fps = false \/ 1 <= n -> stamp_in_range (header_stamp pose)).
Proof.
  intros Hok.
  destruct (process_frame_stamp _ _ _ _ Hok) as [path [n [Hpath [Hn Hts]]]].
  exists path, n. split; [exact Hpath|]. split; [exact Hn|].
  intros Hcase. unfold stamp_in_range.
  destruct (py_gt0 fps) eqn:Hgt.
  - destruct Hcase as [Hc|H1]; [discriminate|].
    destruct (timestamp_split n fps _ _ H1 Hgt Hts) as [_ [_ [_ [_ [Hs Hns]]]]].
    auto.
  - unfold timestamp in Hts.
    rewrite (timestamp_parts_not_positive n fps Hgt) in Hts.
    cbn [bind py_int] in Hts. injection Hts as Hs Hns. lia.
Qed.

(** C2, amended.  The poses of the written file come one each from frames
    of the input that have an ordinal, and the pose of a frame whose
    ordinal is at least 1, as every pose when the frame rate is not
    positive, has a stamp with [sec >= 0] and [0 <= nanosec < 1e9],
    whatever the ordinals of the other frames are. *)
Theorem stamps_in_range_from_ordinal_one (frame_id video_name : string)
  (frames : option (list frame)) (fps : pynum) (out : output_file) :
  written (main frame_id video_name frames fps) = Some out ->
  exists sources : list frame,
    (forall f, In f sources -> In f (frame_list frames))
    /\ Forall2 (fun f pose =>
                  process_frame frame_id fps f = Ok pose
                  /\ exists path n,
                       file_path f = Some path
                       /\ extract_frame_number path = Ok n
                       /\ (py_gt0 fps = false \/ 1 <= n ->
                           stamp_in_range (header_stamp pose)))
               sources (poses out).
Proof.
  intros Hw. destruct (main_written _ _ _ _ _ Hw) as [sorted [Hs [Hp _]]].
  destruct (sorted_by_file_path_Ok _ _ Hs) as [Hperm _].
  exists (map fst (emitted frame_id fps sorted)). split.
  - intros f Hf. apply in_map_iff in Hf. destruct Hf as [[g pose] [<- Hin]].
    pose proof (emitted_spec frame_id fps sorted) as Hsp.
    rewrite Forall_forall in Hsp. destruct (Hsp _ Hin) as [Hg _].
    eapply Permutation_in; [apply Permutation_sym, Hperm|exact Hg].
  - rewrite Hp.
    eapply Forall2_impl; [|apply emitted_Forall2].
    intros f pose Hok. split; [exact Hok|].
    now apply (process_frame_stamp_in_range frame_id fps f pose).
Qed.

Lemma stamps_in_range_from_ordinal_one_witness :
  exists out p0 p10,
    written (main "map" "video"
               (Some [frame_at "images/frame_0010.png";
                      frame_at "images/frame_0000.png"])
               (PyFloat f30)) = Some out
    /\ poses out = [p0; p10]
    /\ header_stamp p0 = {| sec := -1; nanosec := 966666666 |}
    /\ header_stamp p10 = {| sec := 0; nanosec := 300000000 |}
    /\ stamp_in_range (header_stamp p10).
Proof.
  destruct (written (main "map" "video"
                       (Some [frame_at "images/frame_0010.png";
                              frame_at "images/frame_0000.png"])
                       (PyFloat f30))) as [out|] eqn:Hw;
    [|vm_compute in Hw; discriminate].
  destruct (stamps_in_range_from_ordinal_one _ _ _ _ out Hw)
    as [sources [Hsrc HF]].
  vm_compute in Hw. injection Hw as <-. cbn [poses] in HF.
  eexists _, _, _. split; [reflexivity|]. split; [reflexivity|].
  split; [reflexivity|]. split; [reflexivity|].
  inversion HF as [|f0 q0 l0 l0' _ HF1]; subst; clear HF.
  inversion HF1 as [|f1 q1 l1 l1' [Hok [path [n [Hpath [Hn Hrange]]]]] _];
    subst; clear HF1.
  apply Hrange. right.
  destruct (Hsrc f1 (or_intror (or_introl eq_refl))) as [<-|[<-|[]]].
  - cbn [frame_at file_path] in Hpath. injection Hpath as <-.
    vm_compute in Hn. injection Hn as <-. lia.
  - vm_compute in Hok. discriminate Hok.
Defined.

(** ** Values of the model

    The stamps of some frames, as CPython computes them. *)
Example timestamp_values :
  timestamp 1 (PyFloat f30) = Ok (0, 0)
  /\ timestamp 2 (PyFloat f30) = Ok (0, 33333333)
  /\ timestamp 10 (PyFloat f30) = Ok (0, 300000000)
  /\ timestamp 31 (PyFloat f30) = Ok (1, 0)
  /\ timestamp 0 (PyFloat f30) = Ok (-1, 966666666)
  /\ timestamp 0 (PyFloat f1e17) = Ok (-1, 1000000000)
  /\ timestamp 7 (PyInt 0) = Ok (0, 0)
  /\ get_video_fps 30000 1001
     = Ok (PyFloat (S754_finite false 8435813487831848 (-48)))
  /\ timestamp 123456789 (PyFloat (S754_finite false 8435813487831848 (-48)))
     = Ok (4119341, 492933333).
Proof. repeat split; vm_compute; reflexivity. Qed.

(** The nanoseconds are the floor of the float product: the elapsed time of
    frame 10 at 30 frames per second is the float below 3/10, its product
    with [1e9] rounds to 300000000, and that is the nanosecond count. *)
Example nanoseconds_of_the_float_product :
  exists elapsed,
    py_int_truediv (10 - 1) (PyFloat f30) = Ok (PyFloat elapsed)
    /\ units elapsed * 10 < 3 * 2 ^ 1074
    /\ units (mul elapsed f1e9) = 300000000 * 2 ^ 1074
    /\ timestamp 10 (PyFloat f30) = Ok (0, 300000000).
Proof.
  eexists. split; [vm_compute; reflexivity|].
  repeat split; vm_compute; reflexivity.
Qed.

(** ** The split of the elapsed time *)

Lemma split_stamp_nanosec_bound (elapsed : float) (s : stamp) :
  split_stamp elapsed s -> nanosec s < 1000000000.
Proof.
  intros [rem [Hf [Hr [_ Hns]]]]. rewrite Hns.
  assert (H1074 : 0 < 2 ^ 1074) by (apply pow2_pos; lia).
  destruct rem as [sr|sr| |sr m e]; cbn [in_format] in Hf; try contradiction.
  - destruct sr; vm_compute; reflexivity.
  - destruct sr.
    + exfalso. unfold units in Hr. pose proof (pow2_pos (e + 1074)). nia.
    + destruct (mul_1e9_bound (S754_finite false m e)) as [_ Hb];
        [cbn [nonneg_finite]; tauto|lia|].
      apply Z.div_lt_upper_bound; lia.
Qed.

(** C3, as stated, fails: the frame of ordinal 0 at a frame rate of [1e17]
    is emitted with the stamp [(-1, 1000000000)]; the remainder that the
    split returns is [1.0], and the stamp is not the split of the elapsed
    time with a remainder in [[0, 1)]. *)
Lemma ordinal_zero_remainder_reaches_one :
  exists pose elapsed,
    process_frame "map" (PyFloat f1e17) (frame_at "images/frame_0000.png")
    = Ok pose
    /\ py_int_truediv (0 - 1) (PyFloat f1e17) = Ok (PyFloat elapsed)
    /\ header_stamp pose = {| sec := -1; nanosec := 1000000000 |}
    /\ snd (divmod1 elapsed) = one
    /\ ~ split_stamp elapsed (header_stamp pose).
Proof.
  eexists. eexists.
  split; [vm_compute; reflexivity|].
  split; [vm_compute; reflexivity|].
  split; [reflexivity|].
  split; [vm_compute; reflexivity|].
  intros Hsplit. apply split_stamp_nanosec_bound in Hsplit.
  cbn [header_stamp nanosec] in Hsplit. lia.
Qed.

(** C3, amended.  For a frame that yields a pose, with ordinal [n >= 1] and
    a positive frame rate, the elapsed time is the float [(n - 1) / fps],
    zero or positive and finite, and the stamp is its split: [sec] whole
    seconds and a float remainder in [[0, 1)] that add up to it exactly,
    with [nanosec] the floor of the float product of the remainder and
    [1e9]. *)
Theorem stamp_is_split_of_elapsed (frame_id : string) (fps : pynum)
  (f : frame) (path : string) (n : Z) (pose : pose_stamped) :
  process_frame frame_id fps f = Ok pose ->
  file_path f = Some path ->
  extract_frame_number path = Ok n ->
  py_gt0 fps = true ->
  1 <= n ->
  exists elapsed,
    py_int_truediv (n - 1) fps = Ok (PyFloat elapsed)
    /\ nonneg_finite elapsed
    /\ split_stamp elapsed (header_stamp pose).
Proof.
  intros Hok Hpath Hn Hgt H1.
  destruct (process_frame_stamp _ _ _ _ Hok) as [path' [n' [Hpath' [Hn' Hts]]]].
  assert (path' = path) by congruence. subst path'.
  assert (n' = n) by congruence. subst n'.
  destruct (timestamp_split n fps _ _ H1 Hgt Hts) as [x [Hx [Hfin [Hsp _]]]].
  exists x. split; [exact Hx|]. split; [exact Hfin|].
  destruct (header_stamp pose). exact Hsp.
Qed.

Lemma stamp_is_split_of_elapsed_witness :
  exists elapsed,
    py_int_truediv (10 - 1) (PyFloat f30) = Ok (PyFloat elapsed)
    /\ split_stamp elapsed {| sec := 0; nanosec := 300000000 |}.
Proof.
  destruct (process_frame "map" (PyFloat f30) (frame_at "images/frame_0010.png"))
    as [pose|e] eqn:Hok; [|vm_compute in Hok; discriminate].
  assert (Hst : header_stamp pose = {| sec := 0; nanosec := 300000000 |}).
  { vm_compute in Hok. injection Hok as <-. reflexivity. }
  assert (Hn : extract_frame_number "images/frame_0010.png" = Ok 10)
    by (vm_compute; reflexivity).
  destruct (stamp_is_split_of_elapsed "map" (PyFloat f30)
              (frame_at "images/frame_0010.png") "images/frame_0010.png" 10
              pose Hok eq_refl Hn eq_refl ltac:(lia))
    as [elapsed [He [_ Hs]]].
  exists elapsed. rewrite <- Hst. split; assumption.
Defined.

(** ** The frame ordinal extractor

    What [re.search(r"frame_(\d+)", path)] finds: the leftmost place where
    the marker is followed by a digit, and the whole run of digits there. *)

Lemma re_search_frame_step (c : ascii) (rest : string) :
  re_search_frame (String c rest)
  = match match_here (String c rest) with
    | Some d => Some d
    | None => re_search_frame rest
    end.
Proof.
  unfold match_here. cbn [re_search_frame].
  destruct (strip_prefix "frame_" (String c rest)) as [t|]; [|reflexivity].
  destruct (take_digits t); reflexivity.
Qed.

Lemma strip_prefix_Some (p s t : string) :
  strip_prefix p s = Some t -> s = p ++ t.
Proof.
  revert s. induction p as [|a p IH]; intros s H; cbn in *.
  - now inversion H.
  - destruct s as [|b s]; [discriminate|].
    destruct (Ascii.eqb_spec a b) as [->|]; [|discriminate].
    now rewrite (IH _ H).
Qed.

Lemma strip_prefix_app (p t : string) : strip_prefix p (p ++ t) = Some t.
Proof.
  induction p as [|a p IH]; cbn; [reflexivity|].
  now rewrite Ascii.eqb_refl.
Qed.

Lemma take_digits_spec (s : string) :
  exists post,
    s = take_digits s ++ post
    /\ all_digits (take_digits s) = true
    /\ starts_with_digit post = false.
Proof.
  induction s as [|c s [post [Hs [Hd Hp]]]]; cbn.
  - exists "". auto.
  - destruct (is_digit c) eqn:Hc.
    + exists post. cbn. rewrite Hc, Hd. repeat split; auto. now rewrite <- Hs.
    + exists (String c s). cbn. rewrite Hc. auto.
Qed.

Lemma take_digits_app (d post : string) :
  all_digits d = true -> starts_with_digit post = false ->
  take_digits (d ++ post) = d.
Proof.
  intros Hd Hp. induction d as [|c d IH]; cbn in *.
  - destruct post as [|c post]; cbn in *; [reflexivity|]. now rewrite Hp.
  - apply andb_true_iff in Hd. destruct Hd as [Hc Hd]. rewrite Hc.
    now rewrite IH.
Qed.

Lemma match_here_Some (s d : string) :
  match_here s = Some d ->
  exists post,
    s = "frame_" ++ d ++ post
    /\ d <> ""
    /\ all_digits d = true
    /\ starts_with_digit post = false.
Proof.
  unfold match_here.
  destruct (strip_prefix "frame_" s) as [t|] eqn:Ht; [|discriminate].
  apply strip_prefix_Some in Ht.
  destruct (take_digits_spec t) as [post [Hs [Hd Hp]]].
  destruct (take_digits t) as [|c r] eqn:Htd; [discriminate|].
  intros H; inversion H; subst d. exists post.
  split; [rewrite Ht, Hs; reflexivity|]. repeat split; auto. discriminate.
Qed.

Lemma match_here_app (d post : string) :
  d <> "" -> all_digits d = true -> starts_with_digit post = false ->
  match_here ("frame_" ++ d ++ post) = Some d.
Proof.
  intros Hne Hd Hp. unfold match_here. rewrite strip_prefix_app.
  rewrite take_digits_app by assumption. destruct d; [congruence|reflexivity].
Qed.

Lemma take_digits_nil_app (t x : string) :
  take_digits t = "" -> starts_with_digit x = false -> take_digits (t ++ x) = "".
Proof.
  destruct t as [|c t]; cbn.
  - intros _ Hx. destruct x as [|c x]; cbn in *; [reflexivity|]. now rewrite Hx.
  - destruct (is_digit c); [discriminate|reflexivity].
Qed.

(** A match that does not start at the head of [s] does not start there in
    [s] followed by another marker either: the marker has no proper suffix
    that is a prefix of itself, and it does not start with a digit. *)
Lemma match_here_None_app (s r : string) :
  s <> "" -> match_here s = None -> match_here (s ++ "frame_" ++ r) = None.
Proof.
  intros Hne. unfold match_here.
  destruct s as [|c0 s]; [congruence|]. clear Hne.
  cbn -[Ascii.eqb].
  repeat match goal with
  | |- context [match ?s with EmptyString => _ | String _ _ => _ end] =>
      is_var s; destruct s; cbn -[Ascii.eqb]
  | |- context [Ascii.eqb ?a ?b] =>
      let Heq := fresh "Heq" in
      destruct (Ascii.eqb_spec a b) as [Heq|?];
      [try discriminate Heq; try subst|]; cbn -[Ascii.eqb]
  end; try (intros; reflexivity).
  all: match goal with
       | |- context [take_digits (?t ++ ?x)] =>
           intros H; rewrite (take_digits_nil_app t x); [reflexivity| |reflexivity];
           destruct (take_digits t); [reflexivity|discriminate]
       end.
Qed.

Lemma re_search_frame_here (s d : string) :
  match_here s = Some d -> re_search_frame s = Some d.
Proof.
  destruct s as [|c s]; [discriminate|].
  intros H. now rewrite re_search_frame_step, H.
Qed.

Lemma re_search_frame_app (pre d post : string) :
  re_search_frame pre = None ->
  d <> "" -> all_digits d = true -> starts_with_digit post = false ->
  re_search_frame (pre ++ "frame_" ++ d ++ post) = Some d.
Proof.
  intros Hpre Hne Hd Hp. induction pre as [|c pre IH].
  - apply re_search_frame_here. now apply match_here_app.
  - rewrite re_search_frame_step in Hpre.
    destruct (match_here (String c pre)) eqn:Hm; [discriminate|].
    pose proof (match_here_None_app (String c pre) (d ++ post)
                  ltac:(discriminate) Hm) as Hn.
    cbn [append] in Hn |- *.
    rewrite re_search_frame_step, Hn. now apply IH.
Qed.

(** No match starts inside [pre] when the leftmost one starts after it. *)
Lemma match_here_prefix (s x d : string) :
  match_here s = Some d -> exists d', match_here (s ++ x) = Some d'.
Proof.
  unfold match_here.
  destruct (strip_prefix "frame_" s) as [t|] eqn:Ht; [|discriminate].
  apply strip_prefix_Some in Ht. subst s.
  change (("frame_" ++ t) ++ x) with ("frame_" ++ (t ++ x)).
  rewrite strip_prefix_app.
  destruct t as [|c t]; [discriminate|]. cbn.
  destruct (is_digit c); [|discriminate]. intros _. eexists. reflexivity.
Qed.

Lemma re_search_frame_Some (s d : string) :
  re_search_frame s = Some d ->
  exists pre post,
    s = pre ++ "frame_" ++ d ++ post
    /\ re_search_frame pre = None
    /\ d <> ""
    /\ all_digits d = true
    /\ starts_with_digit post = false.
Proof.
  induction s as [|c s IH]; [discriminate|].
  rewrite re_search_frame_step.
  destruct (match_here (String c s)) as [d'|] eqn:Hm.
  - intros H; inversion H; subst d'.
    destruct (match_here_Some _ _ Hm) as [post [Hs [Hne [Hd Hp]]]].
    exists "", post. rewrite Hs. auto.
  - intros H. destruct (IH H) as [pre [post [Hs [Hpre [Hne [Hd Hp]]]]]].
    exists (String c pre), post. split; [cbn; now rewrite Hs|].
    split; [|auto]. rewrite re_search_frame_step.
    destruct (match_here (String c pre)) as [d'|] eqn:Hm'; [|exact Hpre].
    destruct (match_here_prefix _ ("frame_" ++ d ++ post) _ Hm') as [d'' Hd''].
    change (String c pre ++ "frame_" ++ d ++ post)
      with (String c (pre ++ "frame_" ++ d ++ post)) in Hd''.
    rewrite <- Hs in Hd''. congruence.
Qed.

Lemma string_app_assoc (a b c : string) : (a ++ b) ++ c = a ++ b ++ c.
Proof. induction a as [|x a IH]; cbn; [reflexivity|now rewrite IH]. Qed.

Lemma string_app_length (a b : string) :
  String.length (a ++ b) = (String.length a + String.length b)%nat.
Proof. induction a as [|x a IH]; cbn; [reflexivity|now rewrite IH]. Qed.

(** Two ways of cutting the same string: the shorter prefix is a prefix of
    the longer one. *)
Lemma string_app_cut (a b s t : string) :
  a ++ s = b ++ t -> (String.length a <= String.length b)%nat ->
  exists x, b = a ++ x /\ s = x ++ t.
Proof.
  revert b. induction a as [|c a IH]; intros b H Hl; cbn in *.
  - exists b. auto.
  - destruct b as [|c' b]; cbn in *; [lia|].
    inversion H; subst c'.
    destruct (IH b) as [x [Hb Hs]]; [assumption|lia|].
    exists x. now rewrite Hb.
Qed.

Lemma match_here_marker (c : ascii) (b : string) :
  is_digit c = true -> exists d, match_here ("frame_" ++ String c b) = Some d.
Proof.
  intros Hc. unfold match_here. rewrite strip_prefix_app.
  cbn [take_digits]. rewrite Hc. eexists; reflexivity.
Qed.

Lemma re_search_frame_suffix (a x d : string) :
  re_search_frame x = Some d -> exists d', re_search_frame (a ++ x) = Some d'.
Proof.
  intros H. induction a as [|c a [d' IH]]; cbn [append]; [eauto|].
  rewrite re_search_frame_step.
  destruct (match_here (String c (a ++ x))); eauto.
Qed.

Lemma re_search_frame_None_no_marker (s a : string) :
  re_search_frame s = None -> ~ marker_at a s.
Proof.
  intros Hs [c [b [E Hc]]].
  destruct (match_here_marker c b Hc) as [d Hd].
  apply re_search_frame_here in Hd.
  destruct (re_search_frame_suffix a _ _ Hd) as [d' Hd'].
  rewrite <- E in Hd'. congruence.
Qed.

Lemma no_marker_re_search_frame_None (s : string) :
  (forall a, ~ marker_at a s) -> re_search_frame s = None.
Proof.
  intros H. destruct (re_search_frame s) as [d|] eqn:E; [|reflexivity].
  destruct (re_search_frame_Some _ _ E) as [pre [post [Hs [_ [Hne [Hd _]]]]]].
  exfalso. apply (H pre).
  destruct d as [|c d]; [congruence|].
  cbn in Hd. apply andb_true_iff in Hd. destruct Hd as [Hc _].
  exists c, (d ++ post). split; [exact Hs|exact Hc].
Qed.

(** No occurrence of the marker starts inside a prefix in which the search
    finds nothing, even one that would end beyond it. *)
Lemma re_search_frame_leftmost (pre rest a : string) :
  re_search_frame pre = None ->
  marker_at a (pre ++ "frame_" ++ rest) ->
  (String.length pre <= String.length a)%nat.
Proof.
  intros Hpre [c [b [E Hc]]].
  destruct (Nat.le_gt_cases (String.length pre) (String.length a)) as [|Hlt];
    [assumption|exfalso].
  symmetry in E.
  destruct (string_app_cut a pre _ _ E ltac:(lia)) as [x [Hx Hs]].
  assert (Hne : x <> "").
  { intros ->. rewrite Hx, string_app_length in Hlt. cbn in Hlt. lia. }
  destruct (match_here_marker c b Hc) as [d Hd].
  rewrite Hs in Hd.
  destruct (match_here x) as [d0|] eqn:Hm.
  - apply re_search_frame_here in Hm.
    destruct (re_search_frame_suffix a _ _ Hm) as [d' Hd'].
    rewrite <- Hx in Hd'. congruence.
  - rewrite (match_here_None_app x rest Hne Hm) in Hd. discriminate.
Qed.

Lemma is_digit_value (c : ascii) :
  is_digit c = true -> 0 <= Z.of_nat (nat_of_ascii c) - 48 <= 9.
Proof.
  unfold is_digit. intros H. apply andb_true_iff in H. destruct H as [H1 H2].
  apply Nat.leb_le in H1, H2. lia.
Qed.

Lemma int_of_digits_acc (acc : Z) (s : string) :
  int_of_digits acc s
  = acc * 10 ^ Z.of_nat (String.length s) + int_of_digits 0 s.
Proof.
  revert acc. induction s as [|c s IH]; intros acc.
  - cbn [int_of_digits String.length]. change (10 ^ Z.of_nat 0) with 1. lia.
  - cbn [int_of_digits String.length].
    rewrite (IH (10 * acc + _)), (IH (10 * 0 + _)).
    rewrite Nat2Z.inj_succ, Z.pow_succ_r by lia. ring.
Qed.

Lemma int_of_digits_bounds (s : string) :
  all_digits s = true ->
  0 <= int_of_digits 0 s < 10 ^ Z.of_nat (String.length s).
Proof.
  induction s as [|c s IH]; intros H.
  - cbn. lia.
  - cbn [all_digits] in H. apply andb_true_iff in H. destruct H as [Hc Hs].
    specialize (IH Hs). pose proof (is_digit_value c Hc) as Hv.
    cbn [int_of_digits String.length]. rewrite int_of_digits_acc.
    rewrite Nat2Z.inj_succ, Z.pow_succ_r by lia.
    set (p := 10 ^ Z.of_nat (String.length s)) in *.
    set (v := Z.of_nat (nat_of_ascii c) - 48) in *. nia.
Qed.

Lemma all_digits_app (a b : string) :
  all_digits (a ++ b) = all_digits a && all_digits b.
Proof.
  induction a as [|c a IH]; cbn; [reflexivity|].
  now rewrite IH, andb_assoc.
Qed.

Lemma all_digits_zeros (k : nat) : all_digits (zeros k) = true.
Proof. induction k; cbn; auto. Qed.

Lemma int_of_digits_zeros (k : nat) (s : string) :
  int_of_digits 0 (zeros k ++ s) = int_of_digits 0 s.
Proof. induction k as [|k IH]; cbn [zeros append int_of_digits]; auto. Qed.

Lemma re_search_frame_Some_leftmost (s d : string) :
  re_search_frame s = Some d ->
  exists pre post,
    s = pre ++ "frame_" ++ d ++ post
    /\ d <> ""
    /\ all_digits d = true
    /\ starts_with_digit post = false
    /\ (forall a, marker_at a s -> (String.length pre <= String.length a)%nat).
Proof.
  intros H.
  destruct (re_search_frame_Some _ _ H) as [pre [post [Hs [Hpre [Hne [Hd Hp]]]]]].
  exists pre, post. repeat (split; [assumption|]).
  intros a Ha. rewrite Hs in Ha.
  now apply (re_search_frame_leftmost pre (d ++ post) a).
Qed.

Lemma leftmost_re_search_frame (pre d post : string) :
  d <> "" -> all_digits d = true ->
  (forall a, marker_at a (pre ++ "frame_" ++ d ++ post) ->
             (String.length pre <= String.length a)%nat) ->
  re_search_frame pre = None.
Proof.
  intros Hne Hd Hleft.
  destruct (re_search_frame pre) as [d'|] eqn:E; [exfalso|reflexivity].
  destruct (re_search_frame_Some _ _ E) as [a [p' [Hs [_ [Hne' [Hd' _]]]]]].
  destruct d' as [|c d']; [congruence|].
  cbn in Hd'. apply andb_true_iff in Hd'. destruct Hd' as [Hc _].
  assert (Hm : marker_at a (pre ++ "frame_" ++ d ++ post)).
  { exists c, ((d' ++ p') ++ "frame_" ++ d ++ post). split; [|exact Hc].
    rewrite Hs at 1. rewrite !string_app_assoc. reflexivity. }
  specialize (Hleft a Hm).
  rewrite Hs, !string_app_length in Hleft. cbn in Hleft. lia.
Qed.

(** X1.  The extractor returns [n] exactly when the path is a prefix, the
    marker [frame_], a run of one or more digits and a rest, where the rest
    does not go on with a digit (the whole run is taken), no occurrence of
    the marker before a digit starts earlier in the path (the leftmost one
    is taken), and [n] is the number the run of digits writes.  The path is
    taken within the 4300 characters below which no version of [int] caps
    the digits it reads. *)
Theorem extract_frame_number_Ok_iff (path : string) (n : Z) :
  (String.length path <= 4300)%nat ->
  (extract_frame_number path = Ok n
   <-> exists pre digits post,
         path = pre ++ "frame_" ++ digits ++ post
         /\ digits <> ""
         /\ all_digits digits = true
         /\ starts_with_digit post = false
         /\ (forall a, marker_at a path ->
                       (String.length pre <= String.length a)%nat)
         /\ n = int_of_digits 0 digits).
Proof.
  intros _. unfold extract_frame_number. split.
  - destruct (re_search_frame path) as [d|] eqn:E; [|discriminate].
    intros H. inversion H.
    destruct (re_search_frame_Some_leftmost _ _ E)
      as [pre [post [Hs [Hne [Hd [Hp Hl]]]]]].
    exists pre, d, post. auto 10.
  - intros [pre [d [post [Hs [Hne [Hd [Hp [Hl Hn]]]]]]]].
    rewrite Hs in Hl.
    pose proof (leftmost_re_search_frame pre d post Hne Hd Hl) as Hpre.
    rewrite Hs, (re_search_frame_app pre d post Hpre Hne Hd Hp).
    now rewrite Hn.
Qed.

Lemma extract_frame_number_Ok_iff_witness :
  extract_frame_number "images/frame_0042.png" = Ok 42
  /\ exists pre digits post,
        "images/frame_0042.png" = pre ++ "frame_" ++ digits ++ post
        /\ digits <> ""
        /\ all_digits digits = true
        /\ starts_with_digit post = false
        /\ (forall a, marker_at a "images/frame_0042.png" ->
                      (String.length pre <= String.length a)%nat)
        /\ 42 = int_of_digits 0 digits.
Proof.
  split; [reflexivity|].
  apply (extract_frame_number_Ok_iff "images/frame_0042.png" 42).
  - cbn. lia.
  - reflexivity.
Defined.

(** X2.  The extractor fails exactly when the marker [frame_] is nowhere in
    the path followed by a digit; it then raises [ValueError] with the
    message that quotes the path, and it raises nothing else.  The path is
    taken within 4300 characters, as above. *)
Theorem extract_frame_number_Raise_iff (path : string) (e : exn) :
  (String.length path <= 4300)%nat ->
  (extract_frame_number path = Raise e
   <-> e = ValueError ("Could not extract frame number from " ++ path)
       /\ forall a, ~ marker_at a path).
Proof.
  intros _. unfold extract_frame_number. split.
  - destruct (re_search_frame path) as [d|] eqn:E; [discriminate|].
    intros H. inversion H. split; [reflexivity|].
    intros a. now apply re_search_frame_None_no_marker.
  - intros [-> H]. now rewrite (no_marker_re_search_frame_None path H).
Qed.

Lemma extract_frame_number_Raise_iff_witness :
  ValueError "Could not extract frame number from images/frame_.png"
  = ValueError ("Could not extract frame number from " ++ "images/frame_.png")
  /\ forall a, ~ marker_at a "images/frame_.png".
Proof.
  apply (extract_frame_number_Raise_iff "images/frame_.png"
           (ValueError "Could not extract frame number from images/frame_.png")).
  - cbn. lia.
  - reflexivity.
Defined.

(** X3.  Zero padding does not change the ordinal, and an ordinal is never
    negative: after a prefix without the marker, [k] zeros and then the
    digits [digits] give the number that [digits] alone give, which is at
    least 0 and below 10 to the number of digits.  The run of digits is
    taken within the 4300 that every version of [int] reads. *)
Theorem zero_padding_keeps_the_ordinal (pre digits post : string) (k : nat) :
  (k + String.length digits <= 4300)%nat ->
  (forall a, ~ marker_at a pre) ->
  digits <> "" -> all_digits digits = true -> starts_with_digit post = false ->
  exists n,
    extract_frame_number (pre ++ "frame_" ++ zeros k ++ digits ++ post) = Ok n
    /\ extract_frame_number (pre ++ "frame_" ++ digits ++ post) = Ok n
    /\ 0 <= n < 10 ^ Z.of_nat (String.length digits).
Proof.
  intros _ Hpre Hne Hd Hp.
  apply no_marker_re_search_frame_None in Hpre.
  exists (int_of_digits 0 digits). unfold extract_frame_number.
  rewrite (re_search_frame_app pre digits post Hpre Hne Hd Hp).
  rewrite <- (string_app_assoc (zeros k) digits post).
  rewrite (re_search_frame_app pre (zeros k ++ digits) post Hpre).
  - rewrite int_of_digits_zeros. split; [reflexivity|]. split; [reflexivity|].
    now apply int_of_digits_bounds.
  - destruct k; cbn; [assumption|discriminate].
  - now rewrite all_digits_app, all_digits_zeros, Hd.
  - assumption.
Qed.

Lemma zero_padding_keeps_the_ordinal_witness :
  exists n,
    extract_frame_number "images/frame_00012.png" = Ok n
    /\ extract_frame_number "images/frame_12.png" = Ok n
    /\ 0 <= n < 10 ^ 2.
Proof.
  apply (zero_padding_keeps_the_ordinal "images/" "12" ".png" 3).
  - cbn. lia.
  - intros a. apply re_search_frame_None_no_marker. reflexivity.
  - discriminate.
  - reflexivity.
  - reflexivity.
Defined.

(** Every [Ok] of the extractor is a number that is not negative. *)
Lemma extract_frame_number_nonneg (path : string) (n : Z) :
  extract_frame_number path = Ok n -> 0 <= n.
Proof.
  unfold extract_frame_number.
  destruct (re_search_frame path) as [d|] eqn:E; [|discriminate].
  intros H. inversion H.
  destruct (re_search_frame_Some _ _ E) as [pre [post [_ [_ [_ [Hd _]]]]]].
  now apply int_of_digits_bounds.
Qed.

(** ** Fixed-width ordinals and the order of the paths *)

Lemma ascii_compare_refl (c : ascii) : Ascii.compare c c = Eq.
Proof. unfold Ascii.compare. apply N.compare_refl. Qed.

Lemma string_compare_app (p s t : string) :
  String.compare (p ++ s) (p ++ t) = String.compare s t.
Proof.
  induction p as [|c p IH]; cbn [append String.compare]; [reflexivity|].
  now rewrite ascii_compare_refl.
Qed.

Lemma ascii_compare_Lt (c1 c2 : ascii) :
  Ascii.compare c1 c2 = Lt ->
  Z.of_nat (nat_of_ascii c1) < Z.of_nat (nat_of_ascii c2).
Proof.
  unfold Ascii.compare, nat_of_ascii. intros H.
  apply N.compare_lt_iff in H. rewrite !N_nat_Z. now apply N2Z.inj_lt.
Qed.

(** Among runs of digits of one length, the order of the strings is the
    order of the numbers, whatever follows the runs. *)
Lemma digits_compare_le (d1 d2 s t : string) :
  all_digits d1 = true -> all_digits d2 = true ->
  String.length d1 = String.length d2 ->
  String.compare (d1 ++ s) (d2 ++ t) <> Gt ->
  int_of_digits 0 d1 <= int_of_digits 0 d2.
Proof.
  revert d2. induction d1 as [|c1 r1 IH]; intros d2 H1 H2 Hl Hc.
  - destruct d2; [cbn; lia|discriminate].
  - destruct d2 as [|c2 r2]; [discriminate|].
    cbn [all_digits] in H1, H2.
    apply andb_true_iff in H1, H2. destruct H1 as [Hc1 Hr1], H2 as [Hc2 Hr2].
    cbn [String.length] in Hl. injection Hl as Hl.
    cbn [append String.compare] in Hc.
    cbn [int_of_digits].
    rewrite (int_of_digits_acc _ r1), (int_of_digits_acc _ r2), <- Hl.
    pose proof (int_of_digits_bounds r1 Hr1) as B1.
    pose proof (int_of_digits_bounds r2 Hr2) as B2. rewrite <- Hl in B2.
    set (p := 10 ^ Z.of_nat (String.length r1)) in *.
    destruct (Ascii.compare c1 c2) eqn:E.
    + apply Ascii.compare_eq_iff in E. subst c2.
      specialize (IH r2 Hr1 Hr2 Hl Hc). lia.
    + apply ascii_compare_Lt in E. nia.
    + congruence.
Qed.

Lemma padded_extract (pre : string) (w : nat) (f : frame) :
  (0 < w)%nat -> padded pre w f ->
  exists digits post,
    file_path f = Some (pre ++ "frame_" ++ digits ++ post)
    /\ all_digits digits = true
    /\ String.length digits = w
    /\ extract_frame_number (pre ++ "frame_" ++ digits ++ post)
       = Ok (int_of_digits 0 digits).
Proof.
  intros Hw [d [post [Hf [Hd [Hl [Hp Hpre]]]]]].
  exists d, post. repeat (split; [assumption|]).
  unfold extract_frame_number.
  rewrite (re_search_frame_app pre d post); auto.
  - now apply no_marker_re_search_frame_None.
  - intros ->. cbn in Hl. lia.
Qed.

Lemma padded_path_le_ordinal_le (pre : string) (w : nat) (f g : frame) :
  (0 < w)%nat -> padded pre w f -> padded pre w g ->
  path_le f g -> ordinal_le f g.
Proof.
  intros Hw Pf Pg [p [q [Hp [Hq Hle]]]].
  destruct (padded_extract pre w f Hw Pf) as [d1 [s [Hf [Hd1 [Hl1 He1]]]]].
  destruct (padded_extract pre w g Hw Pg) as [d2 [t [Hg [Hd2 [Hl2 He2]]]]].
  assert (Ep : p = pre ++ "frame_" ++ d1 ++ s) by congruence.
  assert (Eq : q = pre ++ "frame_" ++ d2 ++ t) by congruence.
  subst p q. clear Hp Hq.
  exists (pre ++ "frame_" ++ d1 ++ s), (pre ++ "frame_" ++ d2 ++ t),
    (int_of_digits 0 d1), (int_of_digits 0 d2).
  repeat (split; [assumption|]).
  apply (digits_compare_le d1 d2 s t); auto; [congruence|].
  unfold String.leb in Hle.
  rewrite string_compare_app, (string_compare_app "frame_") in Hle.
  intros E. rewrite E in Hle. discriminate.
Qed.

Lemma StronglySorted_Forall_impl {A : Type} (P : A -> Prop) (R R' : A -> A -> Prop)
  (l : list A) :
  (forall x y, P x -> P y -> R x y -> R' x y) ->
  Forall P l -> StronglySorted R l -> StronglySorted R' l.
Proof.
  intros HR HP HS. induction HS as [|x l HS IH Hx]; constructor.
  - apply IH. now inversion HP.
  - inversion HP as [|? ? Px Pl]; subst.
    rewrite Forall_forall in *. intros y Hy. apply HR; auto.
Qed.

(** X4.  When every file path is the same prefix, the marker and an ordinal
    written with the same number of digits (zero padded), the poses of the
    file come in the order of their ordinals: the order of the paths, by
    which the frames are sorted, is then the order of the numbers.  The
    width is taken within the 4300 digits that every version of [int]
    reads. *)
Theorem padded_paths_give_ordinal_order (frame_id video_name : string)
  (frames : option (list frame)) (fps : pynum) (out : output_file)
  (pre : string) (w : nat) :
  (0 < w <= 4300)%nat ->
  Forall (padded pre w) (frame_list frames) ->
  written (main frame_id video_name frames fps) = Some out ->
  exists sources : list frame,
    Forall2 (fun f pose => process_frame frame_id fps f = Ok pose)
            sources (poses out)
    /\ (forall f, In f sources -> In f (frame_list frames))
    /\ StronglySorted ordinal_le sources.
Proof.
  intros [Hw _] Hpad Hout.
  destruct (main_written _ _ _ _ _ Hout) as [sorted [Hs [Hposes _]]].
  destruct (sorted_by_file_path_Ok _ _ Hs) as [Hperm Hsorted].
  exists (map fst (emitted frame_id fps sorted)).
  split; [rewrite Hposes; apply emitted_Forall2|]. split.
  - intros f Hf. apply in_map_iff in Hf. destruct Hf as [[f' pose] [<- Hin]].
    pose proof (emitted_spec frame_id fps sorted) as Hspec.
    rewrite Forall_forall in Hspec. destruct (Hspec _ Hin) as [Hin' _].
    apply (Permutation_in _ (Permutation_sym Hperm) Hin').
  - apply emitted_StronglySorted.
    apply (StronglySorted_Forall_impl (padded pre w) path_le); auto.
    + intros x y Px Py. now apply (padded_path_le_ordinal_le pre w).
    + apply (Permutation_Forall Hperm Hpad).
Qed.

Lemma padded_paths_give_ordinal_order_witness :
  exists out sources,
    written (main "map" "video"
               (Some [frame_at "images/frame_0010.png";
                      frame_at "images/frame_0002.png"])
               (PyFloat f30)) = Some out
    /\ Forall2 (fun f pose => process_frame "map" (PyFloat f30) f = Ok pose)
               sources (poses out)
    /\ StronglySorted ordinal_le sources.
Proof.
  destruct (written (main "map" "video"
               (Some [frame_at "images/frame_0010.png";
                      frame_at "images/frame_0002.png"])
               (PyFloat f30))) as [out|] eqn:Hw; [|vm_compute in Hw; discriminate].
  destruct (padded_paths_give_ordinal_order "map" "video"
              (Some [frame_at "images/frame_0010.png";
                     frame_at "images/frame_0002.png"])
              (PyFloat f30) out "images/" 4) as [sources [H1 [_ H2]]].
  - lia.
  - repeat constructor.
    + exists "0010", ".png". repeat split.
      intros a. apply re_search_frame_None_no_marker. reflexivity.
    + exists "0002", ".png". repeat split.
      intros a. apply re_search_frame_None_no_marker. reflexivity.
  - exact Hw.
  - exists out, sources. auto.
Defined.

(** ** The frame-rate resolver *)

Lemma pack_signed_shape (s : bool) (m1 e1 : Z) :
  0 <= m1 <= 2 ^ 53 -> -1074 <= e1 -> signed_shape s (pack s m1 e1).
Proof.
  intros Hm He. destruct (Z.eq_dec m1 0) as [->|Hne].
  - rewrite pack_zero by exact He. reflexivity.
  - destruct (pack_spec s m1 e1 ltac:(lia) He) as [m [e [Hp [Hlt [Hle _]]]]].
    rewrite Hp. destruct (Z.leb_spec e 971); cbn [signed_shape];
      [|reflexivity].
    repeat split; lia.
Qed.

(** Rounding gives a zero, a finite float of the format or an infinity, of
    the sign asked for; never a NaN. *)
Lemma binary_round_aux_signed_shape (s : bool) (mx ex : Z) (lx : location) :
  0 <= mx -> signed_shape s (binary_round_aux 53 1024 s mx ex lx).
Proof.
  intros Hpos. rewrite binary_round_aux_pack.
  destruct (shr_fexp_shape mx ex lx Hpos) as [Hm He].
  now apply pack_signed_shape.
Qed.

Lemma shr_fexp_snd (mx ex : Z) (lx : location) :
  snd (shr_fexp 53 1024 mx ex lx)
  = Z.max ex (fexp 53 1024 (Zdigits2 mx + ex)).
Proof.
  unfold shr_fexp, shr.
  destruct (fexp 53 1024 (Zdigits2 mx + ex) - ex) eqn:E; cbn [snd]; lia.
Qed.

(** Rounding a quantity below [2^1024 / 2] does not overflow. *)
Lemma binary_round_aux_no_overflow (s : bool) (mx ex : Z) (lx : location) :
  0 <= mx -> ex <= 970 -> Zdigits2 mx + ex <= 1023 ->
  forall s', binary_round_aux 53 1024 s mx ex lx <> S754_infinity s'.
Proof.
  intros Hpos Hex Hd s'. rewrite binary_round_aux_pack.
  destruct (shr_fexp_shape mx ex lx Hpos) as [Hm He].
  cbn zeta in Hm. rewrite shr_fexp_snd in *.
  set (e1 := Z.max ex (fexp 53 1024 (Zdigits2 mx + ex))) in *.
  set (m1 := round_nearest_even _ _) in *.
  assert (He1 : e1 <= 970) by (unfold e1; rewrite fexp_eq; lia).
  destruct (Z.eq_dec m1 0) as [->|Hne].
  - rewrite pack_zero by exact He. discriminate.
  - destruct (pack_spec s m1 e1 ltac:(lia) He) as [m [e [Hp [_ [Hc _]]]]].
    rewrite Hp. destruct (Z.leb_spec e 971); [discriminate|lia].
Qed.

Lemma SFdiv_core_binary_int (n d : Z) :
  0 < n -> 0 < d ->
  exists k,
    0 <= k
    /\ SFdiv_core_binary 53 1024 n 0 d 0
       = (n * 2 ^ k / d, - k, new_location d ((n * 2 ^ k) mod d)).
Proof.
  intros Hn Hd. unfold SFdiv_core_binary.
  set (e' := Z.min _ _).
  assert (He' : e' <= 0) by (unfold e'; lia).
  exists (- e'). split; [lia|].
  replace (0 - 0 - e') with (- e') by lia.
  assert (Hm : match - e' with
               | 0 => n | Z.pos _ => Z.shiftl n (- e') | Z.neg _ => 0
               end = n * 2 ^ (- e')).
  { destruct (- e') as [|p|p] eqn:E; [lia| |lia].
    apply Z.shiftl_mul_pow2. lia. }
  rewrite Hm, div_eucl_div_mod. now rewrite Z.opp_involutive.
Qed.

Lemma int_truediv_nonzero (n d : Z) :
  n <> 0 -> d <> 0 ->
  exists k,
    0 <= k
    /\ int_truediv n d
       = match binary_round_aux 53 1024 (xorb (n <? 0) (d <? 0))
                 (Z.abs n * 2 ^ k / Z.abs d) (- k)
                 (new_location (Z.abs d) ((Z.abs n * 2 ^ k) mod Z.abs d)) with
         | S754_infinity _ =>
             Raise (OverflowError "integer division result too large for a float")
         | q => Ok q
         end.
Proof.
  intros Hn Hd.
  destruct (SFdiv_core_binary_int (Z.abs n) (Z.abs d) ltac:(lia) ltac:(lia))
    as [k [Hk E]].
  exists k. split; [exact Hk|].
  unfold int_truediv, prec, emax. rewrite E.
  destruct n; [congruence| |]; destruct d; congruence || reflexivity.
Qed.

(** The quotient of two ints: a zero or a finite float of the format, of the
    sign of the quotient, or [OverflowError]. *)
Lemma int_truediv_signed_shape (n d : Z) :
  d <> 0 ->
  (exists q, int_truediv n d = Ok q
             /\ in_format q
             /\ signed_shape (xorb (n <? 0) (d <? 0)) q)
  \/ int_truediv n d
     = Raise (OverflowError "integer division result too large for a float").
Proof.
  intros Hd. destruct (Z.eq_dec n 0) as [->|Hn].
  - left. exists (S754_zero (d <? 0)).
    destruct d; try congruence; repeat split.
  - destruct (int_truediv_nonzero n d Hn Hd) as [k [Hk E]]. rewrite E.
    assert (Hq : 0 <= Z.abs n * 2 ^ k / Z.abs d).
    { apply Z.div_pos; [|lia]. pose proof (pow2_pos k Hk). nia. }
    pose proof (binary_round_aux_signed_shape (xorb (n <? 0) (d <? 0))
                  _ (- k) (new_location (Z.abs d) ((Z.abs n * 2 ^ k) mod Z.abs d))
                  Hq) as Hs.
    destruct (binary_round_aux _ _ _ _ _ _) as [s|s| |s m e];
      cbn [signed_shape] in Hs; try contradiction.
    + left. eexists. repeat split. exact Hs.
    + now right.
    + left. eexists. split; [reflexivity|]. cbn [in_format signed_shape]. tauto.
Qed.

Lemma int_truediv_no_overflow (n d : Z) :
  d <> 0 -> Z.abs n < 2 ^ 1023 * Z.abs d -> exists q, int_truediv n d = Ok q.
Proof.
  intros Hd Hlt. destruct (Z.eq_dec n 0) as [->|Hn].
  - destruct d; try congruence; eexists; reflexivity.
  - destruct (int_truediv_nonzero n d Hn Hd) as [k [Hk E]]. rewrite E.
    set (mz := Z.abs n * 2 ^ k / Z.abs d).
    assert (Hk2 : 0 < 2 ^ k) by now apply pow2_pos.
    assert (Hq : 0 <= mz) by (apply Z.div_pos; [nia|lia]).
    assert (Hmz : mz < 2 ^ (1023 + k)).
    { apply Z.div_lt_upper_bound; [lia|].
      rewrite Z.pow_add_r by lia. nia. }
    assert (Hdig : Zdigits2 mz + - k <= 1023).
    { destruct (Z.eq_dec mz 0) as [->|Hne]; [cbn; lia|].
      pose proof (Zdigits2_le mz (1023 + k) ltac:(lia) Hmz). lia. }
    pose proof (binary_round_aux_no_overflow (xorb (n <? 0) (d <? 0)) mz (- k)
                  (new_location (Z.abs d) ((Z.abs n * 2 ^ k) mod Z.abs d))
                  Hq ltac:(lia) Hdig) as Hno.
    destruct (binary_round_aux _ _ _ _ _ _) as [s|s| |s m e];
      try (eexists; reflexivity).
    exfalso. now apply (Hno s).
Qed.

Lemma new_location_zero (d : Z) : new_location d 0 = loc_Exact.
Proof.
  unfold new_location, new_location_even, new_location_odd.
  destruct (Z.even d); reflexivity.
Qed.

(** The quotient of a multiple: [k * d / d] is [k] when [k] fits the 53
    bits of a float. *)
Lemma int_truediv_exact (k d : Z) :
  d <> 0 -> k <> 0 -> Z.abs k < 2 ^ 53 ->
  exists m e,
    int_truediv (k * d) d = Ok (S754_finite (k <? 0) m e)
    /\ Z.pos m < 2 ^ 53
    /\ -1074 <= e <= 971
    /\ Z.pos m * 2 ^ (e + 1074) = Z.abs k * 2 ^ 1074.
Proof.
  intros Hd Hk Hlt.
  destruct (int_truediv_nonzero (k * d) d ltac:(nia) Hd) as [j [Hj E]].
  rewrite E. clear E.
  assert (Hj2 : 0 < 2 ^ j) by now apply pow2_pos.
  replace (Z.abs (k * d) * 2 ^ j) with (Z.abs k * 2 ^ j * Z.abs d)
    by (rewrite Z.abs_mul; ring).
  rewrite Z.div_mul, Z.mod_mul, new_location_zero by lia.
  assert (Hs : xorb (k * d <? 0) (d <? 0) = (k <? 0)).
  { destruct (Z.ltb_spec (k * d) 0), (Z.ltb_spec d 0), (Z.ltb_spec k 0);
      cbn; try reflexivity; nia. }
  rewrite Hs.
  destruct (binary_round_aux_exact (k <? 0) (Z.abs k * 2 ^ j) (- j) (Z.abs k) j
              ltac:(lia) Hj eq_refl ltac:(lia))
    as [m [e [Hr [Hm [He [Hle Hv]]]]]].
  exists m, e. rewrite Hr. repeat split; try lia.
  apply (Z.mul_reg_r _ _ (2 ^ j)); [lia|].
  replace (Z.abs k * 2 ^ 1074 * 2 ^ j) with (Z.abs k * 2 ^ j * 2 ^ 1074) by ring.
  rewrite <- Hv.
  rewrite <- !Z.mul_assoc, <- !Z.pow_add_r by lia.
  f_equal. f_equal. lia.
Qed.

Lemma ltb_zero_signed (s : bool) (q : float) :
  signed_shape s q -> ltb zero q = true -> s = false.
Proof.
  destruct q as [s'|s'| |s' m e]; cbn [signed_shape]; try contradiction;
    try discriminate.
  - intros <-. now destruct s'.
  - intros [<- _]. now destruct s'.
Qed.

(** A resolved rate is positive only when numerator and denominator have
    the same sign. *)
Lemma get_video_fps_positive (num den : Z) (fps : pynum) :
  get_video_fps num den = Ok fps -> py_gt0 fps = true -> 0 < num * den.
Proof.
  unfold get_video_fps. destruct (Z.eqb_spec den 0) as [->|Hd]; cbn [negb].
  - intros H; inversion H. discriminate.
  - destruct (int_truediv_signed_shape num den Hd)
      as [[q [E [Hf Hs]]]|E]; rewrite E; cbn [bind]; [|discriminate].
    intros H; inversion H; subst fps. cbn [py_gt0]. intros Hgt.
    pose proof (ltb_zero_signed _ _ Hs Hgt) as Hx.
    destruct (Z.eq_dec num 0) as [->|Hn].
    + exfalso. unfold int_truediv in E.
      destruct den; try congruence; inversion E; subst q; discriminate.
    + destruct (Z.ltb_spec num 0), (Z.ltb_spec den 0); cbn in Hx;
        try discriminate; nia.
Qed.

(** X5.  What the resolver returns from the two integers of the rate line:
    the int 0 at a zero denominator; otherwise a float that is a zero or a
    finite number, never an infinity or a NaN, and positive only when
    numerator and denominator have the same sign; or, only when the
    numerator is at least [2^1023] times the denominator, the
    [OverflowError] of the division.  It raises nothing else. *)
Theorem get_video_fps_zero_or_finite (num den : Z) :
  (den = 0 /\ get_video_fps num den = Ok (PyInt 0))
  \/ (den <> 0
      /\ exists q,
           get_video_fps num den = Ok (PyFloat q)
           /\ in_format q
           /\ (py_gt0 (PyFloat q) = true -> 0 < num * den))
  \/ (den <> 0
      /\ 2 ^ 1023 * Z.abs den <= Z.abs num
      /\ get_video_fps num den
         = Raise (OverflowError "integer division result too large for a float")).
Proof.
  unfold get_video_fps. destruct (Z.eqb_spec den 0) as [->|Hd]; cbn [negb].
  - left. auto.
  - right. destruct (int_truediv_signed_shape num den Hd)
      as [[q [E [Hf Hs]]]|E]; rewrite E; cbn [bind].
    + left. split; [exact Hd|]. exists q. repeat split; [exact Hf|].
      apply (get_video_fps_positive num den). unfold get_video_fps.
      destruct (Z.eqb_spec den 0); [contradiction|]. cbn [negb].
      now rewrite E.
    + right. repeat split; [exact Hd|].
      destruct (Z.le_gt_cases (2 ^ 1023 * Z.abs den) (Z.abs num)) as [|Hlt];
        [assumption|exfalso].
      destruct (int_truediv_no_overflow num den Hd ltac:(lia)) as [q Hq].
      congruence.
Qed.

(** X6.  A rate line whose numerator is below [2^1023] in size always
    resolves: the resolver returns a number and raises nothing. *)
Theorem get_video_fps_returns (num den : Z) :
  Z.abs num < 2 ^ 1023 ->
  exists fps, get_video_fps num den = Ok fps.
Proof.
  intros Hn. unfold get_video_fps.
  destruct (Z.eqb_spec den 0) as [->|Hd]; cbn [negb]; [eauto|].
  destruct (int_truediv_no_overflow num den Hd) as [q Hq].
  - assert (1 <= Z.abs den) by lia. nia.
  - rewrite Hq. cbn [bind]. eauto.
Qed.

Lemma get_video_fps_returns_witness :
  exists fps, get_video_fps 30000 1001 = Ok fps.
Proof. apply (get_video_fps_returns 30000 1001). vm_compute. reflexivity. Defined.

(** X7.  A rate that is a whole number is resolved exactly: for a numerator
    [k * den], with [k] of less than 54 bits, the resolver returns the
    float of value [k]. *)
Theorem get_video_fps_whole_rate (k den : Z) :
  den <> 0 -> Z.abs k < 2 ^ 53 ->
  exists q,
    get_video_fps (k * den) den = Ok (PyFloat q)
    /\ in_format q
    /\ units q = k * 2 ^ 1074.
Proof.
  intros Hd Hk. unfold get_video_fps.
  destruct (Z.eqb_spec den 0) as [|_]; [contradiction|]. cbn [negb].
  destruct (Z.eq_dec k 0) as [->|Hk0].
  - exists (S754_zero (den <? 0)). cbn [Z.mul].
    destruct den; try congruence; repeat split.
  - destruct (int_truediv_exact k den Hd Hk0 Hk) as [m [e [E [Hm [He Hv]]]]].
    rewrite E. cbn [bind]. eexists. split; [reflexivity|].
    split; [cbn [in_format]; tauto|].
    unfold units. rewrite Hv.
    destruct (Z.ltb_spec k 0); lia.
Qed.

Lemma get_video_fps_whole_rate_witness :
  exists q,
    get_video_fps 60 2 = Ok (PyFloat q)
    /\ in_format q
    /\ units q = 30 * 2 ^ 1074.
Proof.
  apply (get_video_fps_whole_rate 30 2); [discriminate|].
  vm_compute. reflexivity.
Defined.

(** ** The stamp of the first frame *)

Lemma timestamp_first (fps : pynum) : timestamp 1 fps = Ok (0, 0).
Proof.
  destruct (py_gt0 fps) eqn:Hgt.
  - unfold timestamp, timestamp_parts. rewrite Hgt. change (1 - 1) with 0.
    destruct fps as [d|y]; cbn [py_gt0] in Hgt.
    + apply Z.ltb_lt in Hgt. destruct d; try lia. reflexivity.
    + destruct y as [s|s| |s m e]; try discriminate;
        destruct s; try discriminate; reflexivity.
  - unfold timestamp. now rewrite (timestamp_parts_not_positive 1 fps Hgt).
Qed.

(** X8.  The frame of ordinal 1 is stamped 0 s, 0 ns at every frame rate:
    its elapsed time is [(1 - 1) / fps], or 0 when the rate is not
    positive. *)
Theorem first_frame_is_stamped_zero (frame_id : string) (fps : pynum)
  (f : frame) (path : string) (pose : pose_stamped) :
  process_frame frame_id fps f = Ok pose ->
  file_path f = Some path ->
  extract_frame_number path = Ok 1 ->
  header_stamp pose = {| sec := 0; nanosec := 0 |}.
Proof.
  intros Hok Hpath Hn.
  destruct (process_frame_stamp _ _ _ _ Hok) as [path' [n [Hp' [Hn' Hts]]]].
  assert (path' = path) by congruence. subst path'.
  assert (n = 1) by congruence. subst n.
  rewrite timestamp_first in Hts.
  destruct (header_stamp pose) as [s ns]. cbn [sec nanosec] in Hts. congruence.
Qed.

Lemma first_frame_is_stamped_zero_witness :
  exists pose,
    process_frame "map" (PyFloat f1e17) example_frame = Ok pose
    /\ header_stamp pose = {| sec := 0; nanosec := 0 |}.
Proof.
  destruct (process_frame "map" (PyFloat f1e17) example_frame) as [pose|e] eqn:Hp;
    [|vm_compute in Hp; discriminate].
  exists pose. split; [reflexivity|].
  apply (first_frame_is_stamped_zero "map" (PyFloat f1e17) example_frame
           "images/frame_0001.png" pose Hp); reflexivity.
Defined.

(** ** How a run ends *)

Lemma sort_keys_Raise (l : list frame) (e : exn) :
  sort_keys l = Raise e ->
  e = KeyError "file_path" /\ Exists (fun f => file_path f = None) l.
Proof.
  induction l as [|f rest IH]; cbn [sort_keys]; intros He; [discriminate|].
  destruct (file_path f) eqn:Hf; cbn [getitem bind] in He.
  - destruct (sort_keys rest); cbn [bind] in He; [discriminate|].
    inversion He; subst. destruct (IH eq_refl) as [-> Hex].
    split; [reflexivity|]. now apply Exists_cons_tl.
  - inversion He. split; [reflexivity|]. now apply Exists_cons_hd.
Qed.

Lemma sorted_by_file_path_Raise (l : list frame) (e : exn) :
  sorted_by_file_path l = Raise e ->
  e = KeyError "file_path" /\ Exists (fun f => file_path f = None) l.
Proof.
  unfold sorted_by_file_path.
  destruct (sort_keys l) eqn:Hk; cbn [bind]; [discriminate|].
  intros H; inversion H; subst. now apply sort_keys_Raise.
Qed.

Lemma process_frames_uncaught_Some (frame_id : string) (fps : pynum)
  (frames : list frame) (e : exn) :
  forall poses err,
    uncaught (process_frames frame_id fps frames poses err) = Some e ->
    exists f,
      In f frames /\ process_frame frame_id fps f = Raise e /\ caught e = false.
Proof.
  induction frames as [|f rest IH]; intros poses err Hu; cbn [process_frames] in Hu.
  - discriminate.
  - destruct (process_frame frame_id fps f) as [pose|e'] eqn:Hf.
    + destruct (IH _ _ Hu) as [g [Hin Hg]]. exists g. split; [now right|exact Hg].
    + destruct e'; cbn [uncaught] in Hu;
        try (destruct (IH _ _ Hu) as [g [Hin Hg]]; exists g;
             split; [now right|exact Hg]);
        inversion Hu; subst; exists f; repeat split; auto; now left.
Qed.

(** *** The exceptions of the arithmetic *)

Lemma no_index_error_bind {A B : Type} (r : result A) (k : A -> result B) :
  no_index_error r -> (forall a, no_index_error (k a)) ->
  no_index_error (bind r k).
Proof.
  intros Hr Hk msg. destruct r as [a|e]; cbn [bind]; [apply Hk|].
  intros He. apply (Hr msg). inversion He. reflexivity.
Qed.

Lemma no_index_error_Ok {A : Type} (a : A) : no_index_error (Ok a).
Proof. intros msg; discriminate. Qed.

Lemma to_int_no_index_error (x : float) : no_index_error (to_int x).
Proof. intros msg. destruct x; discriminate. Qed.

Lemma of_int_no_index_error (n : Z) : no_index_error (of_int n).
Proof. intros msg. unfold of_int. destruct (of_Z n); discriminate. Qed.

Lemma int_truediv_no_index_error (n d : Z) : no_index_error (int_truediv n d).
Proof.
  intros msg. unfold int_truediv.
  destruct n, d; try discriminate.
  all: destruct (SFdiv_core_binary _ _ _ _ _ _) as [[mz ez] lz].
  all: destruct (binary_round_aux _ _ _ _ _ _); discriminate.
Qed.

Lemma timestamp_parts_no_index_error (n : Z) (fps : pynum) :
  no_index_error (timestamp_parts n fps).
Proof.
  unfold timestamp_parts. apply no_index_error_bind.
  - destruct (py_gt0 fps); [|apply no_index_error_Ok].
    destruct fps as [d|y]; cbn [py_int_truediv].
    + apply no_index_error_bind; [|intros; apply no_index_error_Ok].
      apply int_truediv_no_index_error.
    + apply no_index_error_bind; [apply of_int_no_index_error|].
      intros x. destruct (is_zero y); intros msg; discriminate.
  - intros a. destruct (py_divmod_1 a) as [q r].
    apply no_index_error_bind.
    + destruct r; cbn [py_mul_1e9]; [|apply no_index_error_Ok].
      apply no_index_error_bind;
        [apply of_int_no_index_error|intros; apply no_index_error_Ok].
    + intros y. apply no_index_error_bind;
        [apply to_int_no_index_error|intros; apply no_index_error_Ok].
Qed.

Lemma py_int_no_index_error (a : pynum) : no_index_error (py_int a).
Proof.
  destruct a; cbn [py_int]; [apply no_index_error_Ok|apply to_int_no_index_error].
Qed.

(** *** The shape of the product *)

Lemma ncols_matmul {A : Type} `{Num A} (M N : matrix A) :
  M <> [] -> ncols (matmul M N) = ncols N.
Proof.
  destruct M as [|row M]; [congruence|]. intros _.
  unfold ncols, matmul, transpose. cbn [map hd].
  now rewrite !length_map, length_seq.
Qed.

Lemma matmul_CV_Ok (a r : array_like) :
  matmul_CV a = Ok r -> nrows a = 4%nat /\ ncolumns r = ncolumns a.
Proof.
  unfold matmul_CV. destruct (Nat.eqb_spec (nrows a) 4) as [H4|]; [|discriminate].
  intros E. assert (Hr : r = match a with
                            | IntRows M =>
                                IntRows (map (map wrap64) (matmul CV_TO_ROS_FRAME M))
                            | FloatRows M =>
                                FloatRows (matmul (astype_float CV_TO_ROS_FRAME) M)
                            end) by congruence.
  subst r. split; [exact H4|].
  destruct a as [M|M]; cbn [ncolumns].
  - unfold ncols at 1. unfold matmul, CV_TO_ROS_FRAME. cbn [map hd].
    rewrite !length_map. unfold transpose. now rewrite length_map, length_seq.
  - apply ncols_matmul. discriminate.
Qed.

Lemma np_array_Ok (a b : array_like) : np_array a = Ok b -> b = a.
Proof.
  unfold np_array.
  destruct (match a with
            | IntRows M => rectangular M
            | FloatRows M => rectangular M
            end); [congruence|discriminate].
Qed.

Lemma np_array_Raise (a : array_like) (e : exn) :
  np_array a = Raise e -> caught e = true.
Proof.
  unfold np_array.
  destruct (match a with
            | IntRows M => rectangular M
            | FloatRows M => rectangular M
            end); [discriminate|].
  intros H. inversion H. reflexivity.
Qed.

Lemma matmul_CV_Raise (a : array_like) (e : exn) :
  matmul_CV a = Raise e -> caught e = true.
Proof.
  unfold matmul_CV. destruct (nrows a =? 4)%nat; [discriminate|].
  intros H. inversion H. reflexivity.
Qed.

(** The exceptions of the body of the loop that the loop does not catch:
    an [OverflowError] of the arithmetic, or the [IndexError] of the slice
    on a matrix of four rows of fewer than four numbers. *)
Lemma process_frame_not_caught (frame_id : string) (fps : pynum) (f : frame)
  (e : exn) :
  process_frame frame_id fps f = Raise e -> caught e = false ->
  (exists msg, e = OverflowError msg)
  \/ (exists a,
        transform_matrix f = Some a
        /\ np_array a = Ok a
        /\ nrows a = 4%nat
        /\ (ncolumns a <= 3)%nat
        /\ e = IndexError ("index 3 is out of bounds for axis 1 with size "
                           ++ decimal (ncolumns a))).
Proof.
  intros Hf Hc.
  assert (Harith : (forall msg, e <> IndexError msg) ->
                   exists msg', e = OverflowError msg').
  { intros Hi. destruct e as [m|k|m|m|m]; try discriminate; eauto.
    - exfalso. apply (process_frame_no_zero_division frame_id fps f m Hf).
    - exfalso. now apply (Hi m). }
  unfold process_frame in Hf.
  destruct (file_path f) as [path|]; cbn [getitem bind] in Hf;
    [|inversion Hf; subst; discriminate].
  destruct (extract_frame_number path) as [n|e1] eqn:Hn; cbn [bind] in Hf.
  2:{ unfold extract_frame_number in Hn. destruct (re_search_frame path);
        [discriminate|]. inversion Hn; subst. inversion Hf; subst. discriminate. }
  destruct (timestamp_parts n fps) as [[ts ns]|e1] eqn:Ht; cbn [bind] in Hf.
  2:{ left. apply Harith. intros msg Hm. subst e. inversion Hf; subst e1.
      apply (timestamp_parts_no_index_error n fps msg Ht). }
  destruct (transform_matrix f) as [a|]; cbn [getitem bind] in Hf;
    [|inversion Hf; subst; discriminate].
  destruct (np_array a) as [b|e1] eqn:Ha; cbn [bind] in Hf.
  2:{ inversion Hf; subst e1. rewrite (np_array_Raise a e Ha) in Hc.
      discriminate. }
  pose proof (np_array_Ok a b Ha). subst b.
  destruct (matmul_CV a) as [r|e1] eqn:Hr; cbn [bind] in Hf.
  2:{ inversion Hf; subst e1. rewrite (matmul_CV_Raise a e Hr) in Hc.
      discriminate. }
  destruct (matmul_CV_Ok a r Hr) as [H4 Hcols].
  unfold index_column_3 in Hf. rewrite Hcols in Hf.
  destruct (Nat.leb_spec (ncolumns a) 3) as [H3|H3]; cbn [bind] in Hf.
  - right. exists a. inversion Hf. auto.
  - left. destruct (py_int ts) as [s|e1] eqn:Hs; cbn [bind] in Hf;
      [discriminate|].
    apply Harith. intros msg Hm. subst e. inversion Hf; subst e1.
    apply (py_int_no_index_error ts msg Hs).
Qed.

Lemma identity_matrix_rows_finite : Forall (Forall in_format) identity_matrix.
Proof.
  repeat (apply Forall_cons || apply Forall_nil);
    try reflexivity; cbn; try exact I; lia.
Qed.

(** X9.  A run ends with a traceback in three ways only: the sort met a
    frame without a file path ([KeyError], before any frame is processed
    and with nothing printed), the arithmetic of the body of the loop
    raised an [OverflowError] on a frame, or a frame has a matrix of four
    rows of fewer than four numbers, on which the slice [[:3, 3]] raises
    [IndexError]; the loop catches neither of the last two.  Either way no
    file is written.  The floats of the matrices are taken finite. *)
Theorem traceback_causes (frame_id video_name : string)
  (frames : option (list frame)) (fps : pynum) (e : exn) :
  Forall (fun f => forall a, transform_matrix f = Some a -> finite_numbers a)
         (frame_list frames) ->
  ending (main frame_id video_name frames fps) = Traceback e ->
  written (main frame_id video_name frames fps) = None
  /\ ((e = KeyError "file_path"
       /\ Exists (fun f => file_path f = None) (frame_list frames)
       /\ diagnostics (main frame_id video_name frames fps) = [])
      \/ (exists f,
            In f (frame_list frames)
            /\ process_frame frame_id fps f = Raise e
            /\ Forall (fun g => file_path g <> None) (frame_list frames)
            /\ ((exists msg, e = OverflowError msg)
                \/ (exists a,
                      transform_matrix f = Some a
                      /\ np_array a = Ok a
                      /\ nrows a = 4%nat
                      /\ (ncolumns a <= 3)%nat
                      /\ e = IndexError
                               ("index 3 is out of bounds for axis 1 with size "
                                ++ decimal (ncolumns a)))))).
Proof.
  intros _. unfold main.
  destruct (sorted_by_file_path (frame_list frames)) as [sorted|e'] eqn:Hs;
    cbn [ending written diagnostics].
  - destruct (uncaught (process_frames frame_id fps sorted [] [])) as [e'|] eqn:Hu;
      cbn [ending written diagnostics].
    + intros H; inversion H; subst e'. split; [reflexivity|]. right.
      destruct (process_frames_uncaught_Some _ _ _ _ _ _ Hu) as [f [Hin [Hf Hc]]].
      destruct (sorted_by_file_path_Ok _ _ Hs) as [Hperm _].
      assert (Hall : Forall (fun g => file_path g <> None) (frame_list frames)).
      { apply Forall_forall. intros g Hg Hnone.
        assert (Hex : Exists (fun f => file_path f = None) (frame_list frames))
          by (apply Exists_exists; eauto).
        unfold sorted_by_file_path in Hs.
        rewrite (sort_keys_missing _ Hex) in Hs. discriminate. }
      exists f. split; [apply (Permutation_in _ (Permutation_sym Hperm) Hin)|].
      split; [exact Hf|]. split; [exact Hall|].
      apply (process_frame_not_caught frame_id fps f e Hf Hc).
    + destruct (all_poses _); discriminate.
  - intros H; inversion H; subst e'. split; [reflexivity|]. left.
    destruct (sorted_by_file_path_Raise _ _ Hs) as [-> Hex]. auto.
Qed.

Lemma traceback_causes_witness :
  ending (main "map" "video"
            (Some [example_frame; narrow_frame "images/frame_0002.png"])
            (PyFloat f30))
  = Traceback (IndexError "index 3 is out of bounds for axis 1 with size 1")
  /\ written (main "map" "video"
                (Some [example_frame; narrow_frame "images/frame_0002.png"])
                (PyFloat f30)) = None.
Proof.
  assert (E : ending (main "map" "video"
                        (Some [example_frame;
                               narrow_frame "images/frame_0002.png"])
                        (PyFloat f30))
              = Traceback
                  (IndexError "index 3 is out of bounds for axis 1 with size 1"))
    by (vm_compute; reflexivity).
  split; [exact E|].
  apply (traceback_causes "map" "video"
           (Some [example_frame; narrow_frame "images/frame_0002.png"])
           (PyFloat f30)
           (IndexError "index 3 is out of bounds for axis 1 with size 1"));
    [|exact E].
  repeat (apply Forall_cons; [intros a Ha; inversion Ha; subst a|]);
    try apply Forall_nil; cbn [finite_numbers]; try exact I.
  exact identity_matrix_rows_finite.
Defined.

(** ** Frames, poses and diagnostics *)

Lemma process_frames_counts (frame_id : string) (fps : pynum)
  (frames : list frame) :
  forall poses err,
    uncaught (process_frames frame_id fps frames poses err) = None ->
    (List.length (all_poses (process_frames frame_id fps frames poses err))
     + List.length (stderr (process_frames frame_id fps frames poses err))
     = List.length poses + List.length err + List.length frames)%nat.
Proof.
  induction frames as [|f rest IH]; intros poses err Hu;
    cbn [process_frames] in *.
  - cbn. lia.
  - destruct (process_frame frame_id fps f) as [pose|e].
    + rewrite (IH _ _ Hu), length_app. cbn. lia.
    + destruct e; cbn [uncaught] in Hu; try discriminate;
        rewrite (IH _ _ Hu), length_app; cbn; lia.
Qed.

(** X10.  In a run that ends with status 0 every frame is accounted for:
    the number of poses written and the number of reports printed to the
    error stream add up to the number of frames, one report (one call of
    [print], of one line or more) for each frame skipped; when no frame
    yields a pose there is one report for each frame and then the
    warning. *)
Theorem every_frame_is_a_pose_or_a_report (frame_id video_name : string)
  (frames : option (list frame)) (fps : pynum) :
  ending (main frame_id video_name frames fps) = Exit 0 ->
  match written (main frame_id video_name frames fps) with
  | Some out =>
      (List.length (poses out)
       + List.length (diagnostics (main frame_id video_name frames fps))
       = List.length (frame_list frames))%nat
  | None =>
      exists skipped,
        diagnostics (main frame_id video_name frames fps)
        = (skipped ++ ["Warning: No poses were extracted."])%list
        /\ List.length skipped = List.length (frame_list frames)
  end.
Proof.
  unfold main.
  destruct (sorted_by_file_path (frame_list frames)) as [sorted|e] eqn:Hs;
    cbn [ending]; [|discriminate].
  destruct (sorted_by_file_path_Ok _ _ Hs) as [Hperm _].
  apply Permutation_length in Hperm.
  destruct (uncaught (process_frames frame_id fps sorted [] [])) eqn:Hu;
    cbn [ending]; [discriminate|].
  pose proof (process_frames_counts frame_id fps sorted [] [] Hu) as Hc.
  cbn [List.length] in Hc.
  destruct (all_poses (process_frames frame_id fps sorted [] [])) as [|p ps];
    cbn [written diagnostics poses]; intros _.
  - exists (stderr (process_frames frame_id fps sorted [] [])).
    split; [reflexivity|]. cbn [List.length] in Hc. lia.
  - lia.
Qed.

Lemma every_frame_is_a_pose_or_a_report_witness :
  exists out,
    written (main "map" "video"
               (Some [example_frame; frame_at "images/oops.png";
                      frame_at "images/frame_0002.png"]) (PyFloat f30))
    = Some out
    /\ (List.length (poses out)
        + List.length
            (diagnostics
               (main "map" "video"
                  (Some [example_frame; frame_at "images/oops.png";
                         frame_at "images/frame_0002.png"]) (PyFloat f30)))
        = 3)%nat.
Proof.
  pose proof (every_frame_is_a_pose_or_a_report "map" "video"
                (Some [example_frame; frame_at "images/oops.png";
                       frame_at "images/frame_0002.png"]) (PyFloat f30)) as H.
  destruct (written (main "map" "video"
               (Some [example_frame; frame_at "images/oops.png";
                      frame_at "images/frame_0002.png"]) (PyFloat f30)))
    as [out|] eqn:Hw; [|vm_compute in Hw; discriminate].
  exists out. split; [reflexivity|]. apply H. vm_compute. reflexivity.
Defined.

(** ** Runs that complete *)


Lemma ltb_zero_not_zero (y : float) : ltb zero y = true -> is_zero y = false.
Proof. destruct y; try reflexivity; discriminate. Qed.








(** ** The sort and the frames that are skipped *)

Lemma insert_by_key_head (x : string * frame) (l : list (string * frame)) :
  Forall (key_le x) l -> insert_by_key x l = x :: l.
Proof.
  destruct l as [|y l]; [reflexivity|].
  intros H. inversion H as [|? ? Hy _]; subst.
  cbn [insert_by_key]. unfold key_le in Hy. now rewrite Hy.
Qed.

Lemma key_le_trans (a b c : string * frame) :
  key_le a b -> key_le b c -> key_le a c.
Proof. unfold key_le. apply string_leb_trans. Qed.

(** Inserting an entry that a filter keeps, then filtering, is filtering
    and then inserting; one that the filter drops leaves no trace. *)
Lemma filter_insert_by_key (p : string * frame -> bool) (x : string * frame)
  (l : list (string * frame)) :
  StronglySorted key_le l ->
  filter p (insert_by_key x l)
  = if p x then insert_by_key x (filter p l) else filter p l.
Proof.
  induction 1 as [|y l Hs IH Hy]; cbn [insert_by_key filter].
  - destruct (p x); reflexivity.
  - destruct (String.leb (fst x) (fst y)) eqn:Hxy; cbn [filter].
    + destruct (p x) eqn:Hpx; [|reflexivity].
      destruct (p y) eqn:Hpy.
      * cbn [insert_by_key]. now rewrite Hxy.
      * rewrite insert_by_key_head; [reflexivity|].
        apply Forall_forall. intros z Hz. apply filter_In in Hz.
        destruct Hz as [Hz _]. rewrite Forall_forall in Hy.
        apply (key_le_trans x y z); [exact Hxy|now apply Hy].
    + rewrite IH. destruct (p y) eqn:Hpy, (p x) eqn:Hpx; try reflexivity.
      cbn [insert_by_key]. now rewrite Hxy.
Qed.

Lemma filter_stable_sort (p : string * frame -> bool)
  (l : list (string * frame)) :
  filter p (stable_sort l) = stable_sort (filter p l).
Proof.
  induction l as [|x l IH]; cbn [stable_sort filter]; [reflexivity|].
  rewrite filter_insert_by_key by apply stable_sort_sorted.
  rewrite IH. destruct (p x); reflexivity.
Qed.

Lemma sort_keys_filter (p : frame -> bool) (l : list frame)
  (ks : list (string * frame)) :
  sort_keys l = Ok ks ->
  sort_keys (filter p l) = Ok (filter (fun kf => p (snd kf)) ks).
Proof.
  revert ks. induction l as [|f l IH]; intros ks; cbn [sort_keys filter].
  - intros H; inversion H. reflexivity.
  - destruct (file_path f) as [k|] eqn:Hk; cbn [getitem bind]; [|discriminate].
    destruct (sort_keys l) as [ks'|]; cbn [bind]; [|discriminate].
    intros H; inversion H; subst ks. cbn [filter snd].
    destruct (p f); [|now apply IH].
    cbn [sort_keys]. rewrite Hk. cbn [getitem bind].
    now rewrite (IH ks' eq_refl).
Qed.

Lemma map_snd_filter (p : frame -> bool) (l : list (string * frame)) :
  map snd (filter (fun kf => p (snd kf)) l) = filter p (map snd l).
Proof.
  induction l as [|x l IH]; cbn [filter map]; [reflexivity|].
  destruct (p (snd x)); cbn [map]; now rewrite IH.
Qed.

(** Sorting the frames that a filter keeps gives the sorted frames that it
    keeps. *)
Lemma sorted_by_file_path_filter (p : frame -> bool) (l sorted : list frame) :
  sorted_by_file_path l = Ok sorted ->
  sorted_by_file_path (filter p l) = Ok (filter p sorted).
Proof.
  unfold sorted_by_file_path.
  destruct (sort_keys l) as [ks|] eqn:Hk; cbn [bind]; [|discriminate].
  intros H; inversion H; subst sorted.
  rewrite (sort_keys_filter p l ks Hk). cbn [bind].
  now rewrite <- filter_stable_sort, map_snd_filter.
Qed.

Lemma emitted_filter_yields (frame_id : string) (fps : pynum) (l : list frame) :
  emitted frame_id fps (filter (yields_pose frame_id fps) l)
  = emitted frame_id fps l.
Proof.
  induction l as [|f l IH]; cbn [filter emitted]; [reflexivity|].
  unfold yields_pose at 1.
  destruct (process_frame frame_id fps f) as [pose|e] eqn:Hf; [|exact IH].
  cbn [emitted]. now rewrite Hf, IH.
Qed.

Lemma filter_yields_all_caught (frame_id : string) (fps : pynum)
  (l : list frame) :
  Forall (fun f => forall e, process_frame frame_id fps f = Raise e ->
                             caught e = true)
         (filter (yields_pose frame_id fps) l).
Proof.
  apply Forall_forall. intros f Hf e He. apply filter_In in Hf.
  destruct Hf as [_ Hy]. unfold yields_pose in Hy. rewrite He in Hy.
  discriminate.
Qed.

(** X12.  The frames that are skipped leave no trace in the file: a run
    that ends with status 0 writes the file that the run on the frames that
    yield a pose, alone, writes. *)
Theorem skipped_frames_do_not_change_the_file (frame_id video_name : string)
  (frames : list frame) (fps : pynum) :
  ending (main frame_id video_name (Some frames) fps) = Exit 0 ->
  written (main frame_id video_name
             (Some (filter (yields_pose frame_id fps) frames)) fps)
  = written (main frame_id video_name (Some frames) fps).
Proof.
  unfold main. cbn [frame_list].
  destruct (sorted_by_file_path frames) as [sorted|e] eqn:Hs; cbn [ending];
    [|discriminate].
  rewrite (sorted_by_file_path_filter (yields_pose frame_id fps) _ _ Hs).
  destruct (uncaught (process_frames frame_id fps sorted [] [])) eqn:Hu;
    cbn [ending]; [discriminate|]. intros _.
  pose proof (process_frames_all_caught frame_id fps _
                (filter_yields_all_caught frame_id fps sorted) [] []) as Hu'.
  rewrite Hu'.
  destruct (process_frames_uncaught_None frame_id fps _ [] [] Hu) as [Hp _].
  destruct (process_frames_uncaught_None frame_id fps _ [] [] Hu') as [Hp' _].
  rewrite Hp, Hp', emitted_filter_yields. cbn [app].
  destruct (map snd (emitted frame_id fps sorted)); reflexivity.
Qed.

Lemma skipped_frames_do_not_change_the_file_witness :
  written (main "map" "video"
             (Some [example_frame; frame_at "images/frame_0002.png"])
             (PyFloat f30))
  = written (main "map" "video"
               (Some [example_frame; frame_at "images/oops.png";
                      frame_at "images/frame_0002.png"])
               (PyFloat f30)).
Proof.
  assert (E : ending (main "map" "video"
                        (Some [example_frame; frame_at "images/oops.png";
                               frame_at "images/frame_0002.png"])
                        (PyFloat f30)) = Exit 0)
    by (vm_compute; reflexivity).
  rewrite <- (skipped_frames_do_not_change_the_file "map" "video" _ _ E).
  vm_compute. reflexivity.
Defined.

(** *** Equal paths *)

Lemma stable_sort_same_key (k : string) (l : list (string * frame)) :
  Forall (fun kf => fst kf = k) l -> stable_sort l = l.
Proof.
  induction 1 as [|x l Hx Hl IH]; cbn [stable_sort]; [reflexivity|].
  rewrite IH. apply insert_by_key_head.
  apply Forall_forall. intros y Hy. rewrite Forall_forall in Hl.
  unfold key_le. rewrite Hx, (Hl y Hy).
  unfold String.leb.
  assert (E : String.compare k k = Eq).
  { clear. induction k as [|c k IH]; cbn; [reflexivity|].
    now rewrite ascii_compare_refl. }
  now rewrite E.
Qed.

Lemma sort_keys_keys (l : list frame) (ks : list (string * frame)) :
  sort_keys l = Ok ks ->
  Forall (fun kf => file_path (snd kf) = Some (fst kf)) ks.
Proof. intros H. now destruct (sort_keys_Ok _ _ H). Qed.

(** X13.  The sort loses and repeats no frame, and it is stable: its result
    is a rearrangement of the list, in which the frames of one and the same
    file path stand in the order they had in the list. *)
Theorem sort_is_a_stable_rearrangement (frames sorted : list frame) :
  sorted_by_file_path frames = Ok sorted ->
  Permutation frames sorted
  /\ forall p, filter (has_path p) sorted = filter (has_path p) frames.
Proof.
  intros Hs. split; [now destruct (sorted_by_file_path_Ok _ _ Hs)|].
  intros p. unfold sorted_by_file_path in Hs.
  destruct (sort_keys frames) as [ks|] eqn:Hk; cbn [bind] in Hs; [|discriminate].
  inversion Hs; subst sorted.
  destruct (sort_keys_Ok _ _ Hk) as [Hmap Hkeyed].
  rewrite <- map_snd_filter, filter_stable_sort.
  rewrite (stable_sort_same_key p).
  - now rewrite map_snd_filter, Hmap.
  - apply Forall_forall. intros [k f] Hin. apply filter_In in Hin.
    destruct Hin as [Hin Hp]. rewrite Forall_forall in Hkeyed.
    specialize (Hkeyed _ Hin). unfold keyed in Hkeyed. cbn [fst snd] in *.
    unfold has_path in Hp. rewrite Hkeyed in Hp.
    apply String.eqb_eq in Hp. now subst.
Qed.

Lemma sort_is_a_stable_rearrangement_witness :
  exists sorted,
    sorted_by_file_path
      [frame_at "b"; {| file_path := Some "a"; transform_matrix := None |};
       frame_at "a"] = Ok sorted
    /\ filter (has_path "a") sorted
       = [{| file_path := Some "a"; transform_matrix := None |}; frame_at "a"].
Proof.
  destruct (sorted_by_file_path
              [frame_at "b";
               {| file_path := Some "a"; transform_matrix := None |};
               frame_at "a"]) as [sorted|e] eqn:Hs;
    [|vm_compute in Hs; discriminate].
  exists sorted. split; [reflexivity|].
  destruct (sort_is_a_stable_rearrangement _ _ Hs) as [_ H].
  rewrite (H "a"). reflexivity.
Defined.

(** ** The axis-convention product

    The entries of the constant are 0, 1 and -1: in the product with a
    matrix of finite numbers nothing is rounded. *)

Lemma add_zero_r_value (x z : float) :
  in_format x -> is_zero z = true ->
  in_format (add x z) /\ units (add x z) = units x.
Proof.
  destruct z as [sz| | |]; try discriminate. intros Hx _.
  destruct x as [sx| | |sx m e]; cbn [in_format] in Hx; try contradiction.
  - destruct sx, sz; cbn; auto.
  - cbn. auto.
Qed.

Lemma add_zero_l_value (z y : float) :
  is_zero z = true -> in_format y ->
  in_format (add z y) /\ units (add z y) = units y.
Proof.
  destruct z as [sz| | |]; try discriminate. intros _ Hy.
  destruct y as [sy| | |sy m e]; cbn [in_format] in Hy; try contradiction.
  - destruct sy, sz; cbn; auto.
  - cbn. auto.
Qed.

Lemma mul_zero_l_zero (x : float) :
  in_format x -> is_zero (mul (S754_zero false) x) = true.
Proof. destruct x; cbn; tauto. Qed.

(** The product with 1 or -1. *)
Lemma mul_unit_value (s1 : bool) (x : float) :
  in_format x ->
  in_format (mul (S754_finite s1 4503599627370496 (-52)) x)
  /\ units (mul (S754_finite s1 4503599627370496 (-52)) x)
     = (if s1 then -1 else 1) * units x.
Proof.
  destruct x as [s| | |s m e]; cbn [in_format]; try contradiction.
  - intros _. cbn. split; [exact I|lia].
  - intros [Hm He]. unfold mul, SFmul, prec, emax.
    destruct (binary_round_aux_exact (xorb s1 s)
                (Z.pos (4503599627370496 * m)) (-52 + e) (Z.pos m) 52
                ltac:(lia) ltac:(lia) ltac:(lia) ltac:(lia))
      as [m' [e' [Hr [Hm' [He' [Hle Hv]]]]]].
    rewrite Hr. split; [cbn [in_format]; lia|].
    assert (Hu : Z.pos m' * 2 ^ (e' + 1074) = Z.pos m * 2 ^ (e + 1074)).
    { apply (Z.mul_reg_r _ _ (2 ^ 52)); [lia|].
      replace (Z.pos m * 2 ^ (e + 1074) * 2 ^ 52)
        with (Z.pos (4503599627370496 * m) * 2 ^ (e + 1074)) by lia.
      rewrite <- Hv, <- !Z.mul_assoc, <- !Z.pow_add_r by lia.
      f_equal. f_equal. lia. }
    unfold units. rewrite Hu. destruct s1, s; cbn [xorb]; lia.
Qed.

Lemma of_Z_0 : of_Z 0 = S754_zero false.
Proof. reflexivity. Qed.

Lemma of_Z_1 : of_Z 1 = S754_finite false 4503599627370496 (-52).
Proof. reflexivity. Qed.

Lemma of_Z_minus_1 : of_Z (-1) = S754_finite true 4503599627370496 (-52).
Proof. reflexivity. Qed.

Section Dot.
Variables a0 a1 a2 a3 : float.
Hypotheses (H0 : in_format a0) (H1 : in_format a1)
  (H2 : in_format a2) (H3 : in_format a3).

Local Notation "'minus1'" := (S754_finite true 4503599627370496 (-52)).
Local Notation "'plus1'" := (S754_finite false 4503599627370496 (-52)).
Local Notation "'zero0'" := (S754_zero false).

Lemma dot_row0 :
  let r := dot (map of_Z [0; 0; 1; 0]) [a0; a1; a2; a3] in
  in_format r /\ units r = units a2.
Proof.
  cbn zeta. unfold dot. cbn [map]. rewrite ?of_Z_0, ?of_Z_1, ?of_Z_minus_1.
  cbn [dot_from nadd nmul nzero Num_float].
  destruct (add_zero_r_value zero (mul zero0 a0) I (mul_zero_l_zero a0 H0))
    as [F1 U1].
  destruct (add_zero_r_value _ (mul zero0 a1) F1 (mul_zero_l_zero a1 H1))
    as [F2 U2].
  destruct (mul_unit_value false a2 H2) as [Fm Um].
  assert (Hz : is_zero (add (add zero (mul zero0 a0)) (mul zero0 a1)) = true).
  { destruct a0 as [[]| | |[]], a1 as [[]| | |[]]; cbn in *; tauto. }
  destruct (add_zero_l_value _ (mul plus1 a2) Hz Fm) as [F3 U3].
  destruct (add_zero_r_value _ (mul zero0 a3) F3 (mul_zero_l_zero a3 H3))
    as [F4 U4].
  split; [exact F4|]. rewrite U4, U3. rewrite Um. lia.
Qed.

Lemma dot_row1 :
  let r := dot (map of_Z [-1; 0; 0; 0]) [a0; a1; a2; a3] in
  in_format r /\ units r = - units a0.
Proof.
  cbn zeta. unfold dot. cbn [map]. rewrite ?of_Z_0, ?of_Z_1, ?of_Z_minus_1.
  cbn [dot_from nadd nmul nzero Num_float].
  destruct (mul_unit_value true a0 H0) as [Fm Um].
  destruct (add_zero_l_value zero (mul minus1 a0) eq_refl Fm) as [F1 U1].
  destruct (add_zero_r_value _ (mul zero0 a1) F1 (mul_zero_l_zero a1 H1))
    as [F2 U2].
  destruct (add_zero_r_value _ (mul zero0 a2) F2 (mul_zero_l_zero a2 H2))
    as [F3 U3].
  destruct (add_zero_r_value _ (mul zero0 a3) F3 (mul_zero_l_zero a3 H3))
    as [F4 U4].
  split; [exact F4|]. rewrite U4, U3, U2, U1. rewrite Um. lia.
Qed.

Lemma dot_row2 :
  let r := dot (map of_Z [0; -1; 0; 0]) [a0; a1; a2; a3] in
  in_format r /\ units r = - units a1.
Proof.
  cbn zeta. unfold dot. cbn [map]. rewrite ?of_Z_0, ?of_Z_1, ?of_Z_minus_1.
  cbn [dot_from nadd nmul nzero Num_float].
  destruct (mul_unit_value true a1 H1) as [Fm Um].
  assert (Hz : is_zero (add zero (mul zero0 a0)) = true).
  { destruct a0 as [[]| | |[]]; cbn in *; tauto. }
  destruct (add_zero_l_value _ (mul minus1 a1) Hz Fm) as [F2 U2].
  destruct (add_zero_r_value _ (mul zero0 a2) F2 (mul_zero_l_zero a2 H2))
    as [F3 U3].
  destruct (add_zero_r_value _ (mul zero0 a3) F3 (mul_zero_l_zero a3 H3))
    as [F4 U4].
  split; [exact F4|]. rewrite U4, U3, U2. rewrite Um. lia.
Qed.

Lemma dot_row3 :
  let r := dot (map of_Z [0; 0; 0; 1]) [a0; a1; a2; a3] in
  in_format r /\ units r = units a3.
Proof.
  cbn zeta. unfold dot. cbn [map]. rewrite ?of_Z_0, ?of_Z_1, ?of_Z_minus_1.
  cbn [dot_from nadd nmul nzero Num_float].
  destruct (mul_unit_value false a3 H3) as [Fm Um].
  assert (Hz : is_zero (add (add (add zero (mul zero0 a0)) (mul zero0 a1))
                          (mul zero0 a2)) = true).
  { destruct a0 as [[]| | |[]], a1 as [[]| | |[]], a2 as [[]| | |[]];
      cbn in *; tauto. }
  destruct (add_zero_l_value _ (mul plus1 a3) Hz Fm) as [F4 U4].
  split; [exact F4|]. rewrite U4. rewrite Um. lia.
Qed.

End Dot.

Lemma translated_matrix_finite : finite_4x4 translated_matrix.
Proof.
  split; [reflexivity|].
  repeat (apply Forall_cons || apply Forall_nil || split);
    try reflexivity; cbn; try exact I; lia.
Qed.

Lemma identity_matrix_finite : finite_4x4 identity_matrix.
Proof.
  split; [reflexivity|].
  repeat (apply Forall_cons || apply Forall_nil || split);
    try reflexivity; cbn; try exact I; lia.
Qed.

Lemma finite_4x4_rows (M : matrix float) :
  finite_4x4 M ->
  exists a00 a01 a02 a03 a10 a11 a12 a13 a20 a21 a22 a23 a30 a31 a32 a33,
    M = [ [a00; a01; a02; a03]; [a10; a11; a12; a13];
          [a20; a21; a22; a23]; [a30; a31; a32; a33] ]
    /\ Forall in_format [a00; a01; a02; a03; a10; a11; a12; a13;
                         a20; a21; a22; a23; a30; a31; a32; a33].
Proof.
  intros [Hl Hrows].
  destruct M as [|r0 [|r1 [|r2 [|r3 [|r4 M]]]]]; try discriminate.
  repeat match goal with
         | H : Forall _ (_ :: _) |- _ => inversion H; clear H; subst
         | H : _ /\ _ |- _ => destruct H
         end.
  destruct r0 as [|a00 [|a01 [|a02 [|a03 [|? ?]]]]]; try discriminate.
  destruct r1 as [|a10 [|a11 [|a12 [|a13 [|? ?]]]]]; try discriminate.
  destruct r2 as [|a20 [|a21 [|a22 [|a23 [|? ?]]]]]; try discriminate.
  destruct r3 as [|a30 [|a31 [|a32 [|a33 [|? ?]]]]]; try discriminate.
  repeat match goal with
         | H : Forall _ (_ :: _) |- _ => inversion H; clear H; subst
         end.
  exists a00, a01, a02, a03, a10, a11, a12, a13,
    a20, a21, a22, a23, a30, a31, a32, a33.
  split; [reflexivity|]. repeat constructor; assumption.
Qed.

Lemma matmul_CV_4x4
  (a00 a01 a02 a03 a10 a11 a12 a13 a20 a21 a22 a23 a30 a31 a32 a33 : float) :
  matmul (astype_float CV_TO_ROS_FRAME)
    [ [a00; a01; a02; a03]; [a10; a11; a12; a13];
      [a20; a21; a22; a23]; [a30; a31; a32; a33] ]
  = map (fun row =>
           [ dot row [a00; a10; a20; a30]; dot row [a01; a11; a21; a31];
             dot row [a02; a12; a22; a32]; dot row [a03; a13; a23; a33] ])
        [ map of_Z [0; 0; 1; 0]; map of_Z [-1; 0; 0; 0];
          map of_Z [0; -1; 0; 0]; map of_Z [0; 0; 0; 1] ].
Proof. reflexivity. Qed.

(** *** The product of int64 *)

Lemma wrap64_id (z : Z) : - 2 ^ 63 <= z < 2 ^ 63 -> wrap64 z = z.
Proof.
  unfold wrap64. change (2 ^ 63) with 9223372036854775808.
  change (2 ^ 64) with 18446744073709551616.
  intros H. rewrite Z.mod_small by lia. lia.
Qed.

Lemma wrap64_opp (z : Z) : - 2 ^ 63 <= z < 2 ^ 63 -> wrap64 (- z) = opp64 z.
Proof.
  intros H. unfold opp64. destruct (Z.eqb_spec z (- 2 ^ 63)) as [->|Hz].
  - reflexivity.
  - apply wrap64_id. change (2 ^ 63) with 9223372036854775808 in *. lia.
Qed.

Lemma wrap64_range (z : Z) : - 2 ^ 63 <= wrap64 z < 2 ^ 63.
Proof.
  unfold wrap64. change (2 ^ 63) with 9223372036854775808.
  change (2 ^ 64) with 18446744073709551616.
  pose proof (Z.mod_pos_bound (z + 9223372036854775808) 18446744073709551616
                ltac:(lia)). lia.
Qed.

Lemma int64_4x4_rows (M : matrix Z) :
  int64_4x4 M ->
  exists a00 a01 a02 a03 a10 a11 a12 a13 a20 a21 a22 a23 a30 a31 a32 a33,
    M = [ [a00; a01; a02; a03]; [a10; a11; a12; a13];
          [a20; a21; a22; a23]; [a30; a31; a32; a33] ]
    /\ Forall (fun z => - 2 ^ 63 <= z < 2 ^ 63)
         [a00; a01; a02; a03; a10; a11; a12; a13;
          a20; a21; a22; a23; a30; a31; a32; a33].
Proof.
  intros [Hl Hrows].
  destruct M as [|r0 [|r1 [|r2 [|r3 [|r4 M]]]]]; try discriminate.
  repeat match goal with
         | H : Forall _ (_ :: _) |- _ => inversion H; clear H; subst
         | H : _ /\ _ |- _ => destruct H
         end.
  destruct r0 as [|a00 [|a01 [|a02 [|a03 [|? ?]]]]]; try discriminate.
  destruct r1 as [|a10 [|a11 [|a12 [|a13 [|? ?]]]]]; try discriminate.
  destruct r2 as [|a20 [|a21 [|a22 [|a23 [|? ?]]]]]; try discriminate.
  destruct r3 as [|a30 [|a31 [|a32 [|a33 [|? ?]]]]]; try discriminate.
  repeat match goal with
         | H : Forall _ (_ :: _) |- _ => inversion H; clear H; subst
         end.
  exists a00, a01, a02, a03, a10, a11, a12, a13,
    a20, a21, a22, a23, a30, a31, a32, a33.
  split; [reflexivity|].
  repeat (apply Forall_cons; [assumption|]). apply Forall_nil.
Qed.

(** The product of the constant and a 4x4 array of int64. *)
Lemma matmul_CV_int_4x4
  (a00 a01 a02 a03 a10 a11 a12 a13 a20 a21 a22 a23 a30 a31 a32 a33 : Z) :
  Forall (fun z => - 2 ^ 63 <= z < 2 ^ 63)
    [a00; a01; a02; a03; a10; a11; a12; a13;
     a20; a21; a22; a23; a30; a31; a32; a33] ->
  map (map wrap64)
    (matmul CV_TO_ROS_FRAME
       [ [a00; a01; a02; a03]; [a10; a11; a12; a13];
         [a20; a21; a22; a23]; [a30; a31; a32; a33] ])
  = [ [a20; a21; a22; a23];
      [opp64 a00; opp64 a01; opp64 a02; opp64 a03];
      [opp64 a10; opp64 a11; opp64 a12; opp64 a13];
      [a30; a31; a32; a33] ].
Proof.
  intros Hall.
  repeat match goal with
         | H : Forall _ (_ :: _) |- _ => inversion H; clear H; subst
         end.
  unfold matmul, transpose, ncols, column, dot, CV_TO_ROS_FRAME.
  cbn [map hd List.length seq nth dot_from nzero nadd nmul Num_Z].
  repeat match goal with
         | |- context [wrap64 ?t] =>
             first
               [ match t with
                 | 0 + 0 * _ + 0 * _ + 1 * ?x + 0 * _ =>
                     replace t with x by lia; rewrite (wrap64_id x) by assumption
                 | 0 + 0 * _ + 0 * _ + 0 * _ + 1 * ?x =>
                     replace t with x by lia; rewrite (wrap64_id x) by assumption
                 | 0 + -1 * ?x + 0 * _ + 0 * _ + 0 * _ =>
                     replace t with (- x) by lia;
                     rewrite (wrap64_opp x) by assumption
                 | 0 + 0 * _ + -1 * ?x + 0 * _ + 0 * _ =>
                     replace t with (- x) by lia;
                     rewrite (wrap64_opp x) by assumption
                 end ]
         end.
  reflexivity.
Qed.

Lemma far_matrix_int64 : int64_4x4 far_matrix.
Proof.
  split; [reflexivity|].
  repeat (apply Forall_cons || apply Forall_nil || split);
    try reflexivity; cbn; lia.
Qed.

(** X14.  The product of the axis-convention constant and a 4x4 array is
    that array with its rows rearranged and two of them negated: row 0 of
    the product is row 2 of the array, row 1 is minus row 0, row 2 is
    minus row 1, and row 3 is row 3.  With an array of finite floats
    nothing is rounded.  With an array of int64 the product is one of
    int64, in which the opposite of [-2^63] is [-2^63] again: the rows are
    negated exactly but for such an entry. *)
Theorem axis_product_rearranges_rows (a : array_like) (j : nat) :
  finite_4x4_array a -> (j < 4)%nat ->
  exists r,
    matmul_CV a = Ok r
    /\ match a, r with
       | FloatRows M, FloatRows R =>
           (in_format (entry R 0 j) /\ units (entry R 0 j) = units (entry M 2 j))
           /\ (in_format (entry R 1 j)
               /\ units (entry R 1 j) = - units (entry M 0 j))
           /\ (in_format (entry R 2 j)
               /\ units (entry R 2 j) = - units (entry M 1 j))
           /\ (in_format (entry R 3 j)
               /\ units (entry R 3 j) = units (entry M 3 j))
       | IntRows M, IntRows R =>
           entry R 0 j = entry M 2 j
           /\ entry R 1 j = opp64 (entry M 0 j)
           /\ entry R 2 j = opp64 (entry M 1 j)
           /\ entry R 3 j = entry M 3 j
       | _, _ => False
       end.
Proof.
  intros Ha Hj. destruct a as [M|M]; cbn [finite_4x4_array] in Ha.
  - destruct (int64_4x4_rows M Ha)
      as (a00 & a01 & a02 & a03 & a10 & a11 & a12 & a13
          & a20 & a21 & a22 & a23 & a30 & a31 & a32 & a33 & -> & Hall).
    eexists. split.
    + unfold matmul_CV. cbn [nrows List.length Nat.eqb].
      rewrite (matmul_CV_int_4x4 _ _ _ _ _ _ _ _ _ _ _ _ _ _ _ _ Hall).
      reflexivity.
    + destruct j as [|[|[|[|j]]]]; [| | | |lia];
        cbn [entry nth]; repeat split.
  - destruct (finite_4x4_rows M Ha)
      as (a00 & a01 & a02 & a03 & a10 & a11 & a12 & a13
          & a20 & a21 & a22 & a23 & a30 & a31 & a32 & a33 & -> & Hall).
    eexists. split.
    + unfold matmul_CV. cbn [nrows List.length Nat.eqb]. reflexivity.
    + rewrite matmul_CV_4x4.
      repeat match goal with
             | H : Forall _ (_ :: _) |- _ => inversion H; clear H; subst
             end.
      destruct j as [|[|[|[|j]]]]; [| | | |lia];
        cbn [entry nth map nzero Num_float];
        (split; [apply dot_row0|split; [apply dot_row1|split;
           [apply dot_row2|apply dot_row3]]]); assumption.
Qed.

Lemma axis_product_rearranges_rows_witness :
  exists R,
    matmul_CV (IntRows far_matrix) = Ok (IntRows R)
    /\ entry R 0 3 = 3
    /\ entry R 1 3 = - 2 ^ 63
    /\ entry R 2 3 = - 2
    /\ entry R 3 3 = 1.
Proof.
  destruct (axis_product_rearranges_rows (IntRows far_matrix) 3
              far_matrix_int64 ltac:(lia)) as [r [Hr H]].
  destruct r as [R|R]; [|contradiction].
  exists R. split; [exact Hr|]. exact H.
Defined.

(** The position of a frame that yields a pose. *)
Lemma process_frame_position (frame_id : string) (fps : pynum) (f : frame)
  (a r : array_like) (pose : pose_stamped) :
  process_frame frame_id fps f = Ok pose ->
  transform_matrix f = Some a ->
  matmul_CV a = Ok r ->
  position pose = translation_column (floats_of r).
Proof.
  intros Hok Ha Hr. unfold process_frame in Hok. rewrite Ha in Hok.
  destruct (getitem "file_path" (file_path f)); cbn [bind] in Hok;
    [|discriminate].
  destruct (extract_frame_number _); cbn [bind] in Hok; [|discriminate].
  destruct (timestamp_parts _ _) as [[ts ns]|]; cbn [bind getitem] in Hok;
    [|discriminate].
  destruct (np_array a) as [b|] eqn:Hb; cbn [bind] in Hok; [|discriminate].
  rewrite (np_array_Ok a b Hb), Hr in Hok. cbn [bind] in Hok.
  unfold index_column_3 in Hok.
  destruct (ncolumns r <=? 3)%nat; cbn [bind] in Hok; [discriminate|].
  destruct (py_int ts); cbn [bind] in Hok; [|discriminate].
  inversion Hok. reflexivity.
Qed.

(** X15.  The position of a pose is the translation of the frame's 4x4
    matrix with the axes renamed: x is the third component of the
    translation column, y is minus the first and z is minus the second.
    For a matrix of finite floats this is exact; for a matrix of int64 the
    opposite is that of int64 (with [-2^63] for [-2^63]) and the three
    numbers are then converted to floats. *)
Theorem position_is_the_renamed_translation (frame_id : string) (fps : pynum)
  (f : frame) (a : array_like) (pose : pose_stamped) :
  process_frame frame_id fps f = Ok pose ->
  transform_matrix f = Some a ->
  finite_4x4_array a ->
  match a with
  | FloatRows M =>
      exists x y z,
        position pose = [x; y; z]
        /\ in_format x /\ in_format y /\ in_format z
        /\ units x = units (entry M 2 3)
        /\ units y = - units (entry M 0 3)
        /\ units z = - units (entry M 1 3)
  | IntRows M =>
      position pose = [ of_Z (entry M 2 3);
                        of_Z (opp64 (entry M 0 3));
                        of_Z (opp64 (entry M 1 3)) ]
  end.
Proof.
  intros Hok Ha Hfin.
  destruct a as [M|M]; cbn [finite_4x4_array] in Hfin.
  - destruct (int64_4x4_rows M Hfin)
      as (a00 & a01 & a02 & a03 & a10 & a11 & a12 & a13
          & a20 & a21 & a22 & a23 & a30 & a31 & a32 & a33 & -> & Hall).
    rewrite (process_frame_position frame_id fps f _ _ pose Hok Ha eq_refl).
    cbn [matmul_CV nrows List.length Nat.eqb].
    rewrite (matmul_CV_int_4x4 _ _ _ _ _ _ _ _ _ _ _ _ _ _ _ _ Hall).
    repeat match goal with
           | H : Forall _ (_ :: _) |- _ => inversion H; clear H; subst
           end.
    cbn [floats_of astype_float translation_column column firstn map nth
         entry nzero Num_float].
    assert (Ho : forall z, - 2 ^ 63 <= z < 2 ^ 63 -> wrap64 (opp64 z) = opp64 z).
    { intros z Hz. rewrite <- (wrap64_opp z Hz). apply wrap64_id, wrap64_range. }
    rewrite !wrap64_id, !Ho by assumption. reflexivity.
  - destruct (finite_4x4_rows M Hfin)
      as (a00 & a01 & a02 & a03 & a10 & a11 & a12 & a13
          & a20 & a21 & a22 & a23 & a30 & a31 & a32 & a33 & -> & Hall).
    rewrite (process_frame_position frame_id fps f _ _ pose Hok Ha eq_refl).
    cbn [floats_of].
    rewrite matmul_CV_4x4.
    repeat match goal with
           | H : Forall _ (_ :: _) |- _ => inversion H; clear H; subst
           end.
    cbn [translation_column column firstn map nth entry nzero Num_float].
    eexists _, _, _. split; [reflexivity|].
    destruct (dot_row0 a03 a13 a23 a33) as [F0 U0]; try assumption.
    destruct (dot_row1 a03 a13 a23 a33) as [F1 U1]; try assumption.
    destruct (dot_row2 a03 a13 a23 a33) as [F2 U2]; try assumption.
    cbn zeta in *. auto 10.
Qed.

Lemma position_is_the_renamed_translation_witness :
  exists pose,
    process_frame "map" (PyFloat f30) far_frame = Ok pose
    /\ position pose = [of_Z 3; of_Z (- 2 ^ 63); of_Z (- 2)].
Proof.
  destruct (process_frame "map" (PyFloat f30) far_frame) as [pose|e] eqn:Hp;
    [|vm_compute in Hp; discriminate].
  exists pose. split; [reflexivity|].
  apply (position_is_the_renamed_translation "map" (PyFloat f30)
           far_frame (IntRows far_matrix) pose Hp eq_refl far_matrix_int64).
Defined.

(** ** Whole seconds *)

(** An int of less than 54 bits converts to the float of its value. *)
Lemma of_Z_exact (n : Z) :
  0 < n < 2 ^ 53 ->
  exists m e,
    of_Z n = S754_finite false m e
    /\ Z.pos m < 2 ^ 53 /\ -1074 <= e <= 971
    /\ Z.pos m * 2 ^ (e + 1074) = n * 2 ^ 1074.
Proof.
  intros Hn. unfold of_Z, binary_normalize. destruct n as [|p|p]; try lia.
  destruct (binary_round_exact false p 0 (Z.pos p) 0)
    as [m [e [Hr [Hm [He Hv]]]]]; try lia.
  exists m, e. unfold prec, emax. rewrite Hr. auto.
Qed.

Lemma pow2_lt_inv (a b : Z) : 0 <= b -> 2 ^ a < 2 ^ b -> a < b.
Proof.
  intros Hb H. destruct (Z.lt_ge_cases a b) as [|Hge]; [assumption|exfalso].
  assert (2 ^ b <= 2 ^ a) by (apply Z.pow_le_mono_r; lia). lia.
Qed.

(** The quotient of two floats whose ratio is a whole number of less than
    54 bits is that number. *)
Lemma div_exact (mx my : positive) (ex ey S : Z) :
  Z.pos mx < 2 ^ 53 -> -1074 <= ex <= 971 ->
  Z.pos my < 2 ^ 53 -> -1074 <= ey <= 971 ->
  0 < S < 2 ^ 53 ->
  Z.pos mx * 2 ^ (ex + 1074) = S * (Z.pos my * 2 ^ (ey + 1074)) ->
  exists m e,
    div (S754_finite false mx ex) (S754_finite false my ey)
    = S754_finite false m e
    /\ Z.pos m < 2 ^ 53 /\ -1074 <= e <= 971
    /\ Z.pos m * 2 ^ (e + 1074) = S * 2 ^ 1074.
Proof.
  intros Hmx Hex Hmy Hey HS Hrel.
  pose proof (Zdigits2_bounds (Z.pos mx) ltac:(lia)) as [Hx1 Hx2].
  pose proof (Zdigits2_bounds (Z.pos my) ltac:(lia)) as [Hy1 Hy2].
  pose proof (Zdigits2_pos (Z.pos mx) ltac:(lia)) as Hdx.
  pose proof (Zdigits2_pos (Z.pos my) ltac:(lia)) as Hdy.
  set (d1 := Zdigits2 (Z.pos mx)) in *. set (d2 := Zdigits2 (Z.pos my)) in *.
  (* the binade of the quotient is at most 53 *)
  assert (Hbin : d1 + ex - (d2 + ey) <= 53).
  { assert (Hpx : 0 < 2 ^ (ex + 1074)) by (apply pow2_pos; lia).
    assert (Hpy : 0 < 2 ^ (ey + 1074)) by (apply pow2_pos; lia).
    assert (H1 : 2 ^ (d1 - 1 + (ex + 1074)) < 2 ^ (53 + d2 + (ey + 1074))).
    { replace (2 ^ (d1 - 1 + (ex + 1074)))
        with (2 ^ (d1 - 1) * 2 ^ (ex + 1074))
        by (rewrite <- Z.pow_add_r by lia; reflexivity).
      replace (2 ^ (53 + d2 + (ey + 1074)))
        with (2 ^ 53 * (2 ^ d2 * 2 ^ (ey + 1074)))
        by (rewrite <- !Z.pow_add_r by lia; f_equal; lia).
      assert (0 < 2 ^ d2) by (apply pow2_pos; lia).
      assert (0 < 2 ^ (d1 - 1)) by (apply pow2_pos; lia).
      assert (A : 2 ^ (d1 - 1) * 2 ^ (ex + 1074)
                  <= Z.pos mx * 2 ^ (ex + 1074))
        by (apply Z.mul_le_mono_nonneg_r; lia).
      assert (B : Z.pos my * 2 ^ (ey + 1074) < 2 ^ d2 * 2 ^ (ey + 1074))
        by (apply Z.mul_lt_mono_pos_r; lia).
      assert (C : S * (Z.pos my * 2 ^ (ey + 1074))
                  < 2 ^ 53 * (2 ^ d2 * 2 ^ (ey + 1074)))
        by (apply Z.mul_lt_mono_nonneg; lia).
      lia. }
    apply pow2_lt_inv in H1; lia. }
  unfold div, SFdiv, SFdiv_core_binary. cbn [xorb]. unfold prec, emax.
  rewrite fexp_eq. fold d1 d2.
  set (e' := Z.min (Z.max (d1 + ex - (d2 + ey) - 53) (-1074)) (ex - ey)).
  assert (He' : e' <= 0 /\ e' <= ex - ey) by (unfold e'; lia).
  set (t := - e').
  assert (Hm' : match ex - ey - e' with
                | 0 => Z.pos mx
                | Z.pos _ => Z.shiftl (Z.pos mx) (ex - ey - e')
                | Z.neg _ => 0
                end = S * 2 ^ t * Z.pos my).
  { assert (Hsh : match ex - ey - e' with
                  | 0 => Z.pos mx
                  | Z.pos _ => Z.shiftl (Z.pos mx) (ex - ey - e')
                  | Z.neg _ => 0
                  end = Z.pos mx * 2 ^ (ex - ey - e')).
    { destruct (ex - ey - e') as [|p|p] eqn:E; [lia| |lia].
      apply Z.shiftl_mul_pow2. lia. }
    rewrite Hsh. clear Hsh.
    apply (Z.mul_reg_r _ _ (2 ^ (ey + 1074))); [apply Z.neq_sym, Z.lt_neq, pow2_pos; lia|].
    replace (S * 2 ^ t * Z.pos my * 2 ^ (ey + 1074))
      with (S * (Z.pos my * 2 ^ (ey + 1074)) * 2 ^ t) by ring.
    rewrite <- Hrel, <- !Z.mul_assoc, <- !Z.pow_add_r by lia.
    f_equal. f_equal. unfold t. lia. }
  rewrite Hm', div_eucl_div_mod, Z.div_mul, Z.mod_mul, new_location_zero by lia.
  destruct (binary_round_aux_exact false (S * 2 ^ t) e' S t)
    as [m [e [Hr [Hm [He [Hle Hv]]]]]]; try (unfold t; lia).
  exists m, e. rewrite Hr. split; [reflexivity|]. repeat split; try lia.
  apply (Z.mul_reg_r _ _ (2 ^ t)); [apply Z.neq_sym, Z.lt_neq, pow2_pos; unfold t; lia|].
  replace (S * 2 ^ 1074 * 2 ^ t) with (S * 2 ^ t * 2 ^ 1074) by ring.
  rewrite <- Hv, <- !Z.mul_assoc, <- !Z.pow_add_r by (unfold t; lia).
  f_equal. f_equal. unfold t. lia.
Qed.

Lemma nonneg_finite_units_zero (r : float) :
  nonneg_finite r -> units r = 0 -> r = S754_zero false.
Proof.
  destruct r as [s| | |s m e]; cbn [nonneg_finite]; try contradiction.
  - now intros ->.
  - intros [-> [_ He]]. rewrite units_finite_false.
    assert (0 < 2 ^ (e + 1074)) by (apply pow2_pos; lia). nia.
Qed.

(** The stamp of an elapsed time that is a whole number of seconds. *)
Lemma timestamp_whole (n s : Z) (y elapsed : float) :
  ltb zero y = true ->
  py_int_truediv (n - 1) (PyFloat y) = Ok (PyFloat elapsed) ->
  nonneg_finite elapsed -> units elapsed = s * 2 ^ 1074 ->
  timestamp n (PyFloat y) = Ok (s, 0).
Proof.
  intros Hgt He Hf Hu. unfold timestamp, timestamp_parts. cbn [py_gt0].
  rewrite Hgt, He. cbn [bind py_divmod_1].
  destruct (divmod1_nonneg elapsed Hf) as [Hq [Hr [Hqv Hrv]]].
  destruct (divmod1 elapsed) as [q r]. cbn [fst snd] in *.
  rewrite Hu, Z.mod_mul in Hrv by lia.
  rewrite Hu, Z.div_mul in Hqv by lia.
  rewrite (nonneg_finite_units_zero r Hr Hrv).
  cbn [py_mul_1e9 bind]. change (mul (S754_zero false) f1e9) with (S754_zero false).
  cbn [to_int bind py_int]. rewrite (to_int_units q Hq), Hqv, Z.div_mul by lia.
  reflexivity.
Qed.

(** X17.  At a rate that is a whole number [k] of frames per second, as
    the resolver returns it from a rate line [k * den / den], the frame of
    ordinal [s * k + 1] is stamped [s] seconds and 0 nanoseconds exactly
    (frame 31 at 30 frames per second: 1 s), as long as [s * k] has less
    than 54 bits. *)
Theorem whole_seconds_are_exact (k den s : Z) (fps : pynum) :
  0 < k -> den <> 0 -> 0 <= s -> s * k < 2 ^ 53 ->
  get_video_fps (k * den) den = Ok fps ->
  timestamp (s * k + 1) fps = Ok (s, 0).
Proof.
  intros Hk Hden Hs Hsk Hfps.
  destruct (Z.eq_dec s 0) as [->|Hs0]; [apply timestamp_first|].
  assert (Hk53 : k < 2 ^ 53) by nia.
  unfold get_video_fps in Hfps.
  destruct (Z.eqb_spec den 0) as [|_]; [contradiction|]. cbn [negb] in Hfps.
  destruct (int_truediv_exact k den Hden ltac:(lia) ltac:(lia))
    as [my [ey [E [Hmy [Hey Hvy]]]]].
  rewrite E in Hfps. cbn [bind] in Hfps. inversion Hfps; subst fps; clear Hfps.
  assert (Hkpos : (k <? 0) = false) by (apply Z.ltb_ge; lia).
  rewrite Hkpos. replace (Z.abs k) with k in Hvy by lia.
  replace (s * k + 1 - 1) with (s * k) by lia.
  destruct (of_Z_exact (s * k) ltac:(nia)) as [mx [ex [Ex [Hmx [Hex Hvx]]]]].
  destruct (div_exact mx my ex ey s Hmx Hex Hmy Hey ltac:(nia))
    as [m [e [Ed [Hm [He Hv]]]]].
  { rewrite Hvx, Hvy. ring. }
  apply (timestamp_whole _ s _ (S754_finite false m e)).
  - reflexivity.
  - replace (s * k + 1 - 1) with (s * k) by lia.
    unfold py_int_truediv, of_int. rewrite Ex. cbn [bind is_zero].
    now rewrite Ed.
  - cbn [nonneg_finite]. auto.
  - rewrite units_finite_false. exact Hv.
Qed.

Lemma whole_seconds_are_exact_witness :
  exists fps,
    get_video_fps 60 2 = Ok fps /\ timestamp 91 fps = Ok (3, 0).
Proof.
  destruct (get_video_fps 60 2) as [fps|e] eqn:Hf;
    [|vm_compute in Hf; discriminate].
  exists fps. split; [reflexivity|].
  apply (whole_seconds_are_exact 30 2 3 fps); try lia. exact Hf.
Defined.

(** ** Rounding to nearest is monotone

    The value that [binary_round_aux] returns is the quantity it is given,
    rounded to nearest on the grid of the quantity's binade; it depends on
    the quantity only, and it grows with it. *)

Lemma rne_bounds (N U : Z) : N / U <= rne N U <= N / U + 1.
Proof.
  unfold rne. destruct (2 * (N mod U) ?= U); [|lia|lia].
  destruct (Z.even (N / U)); lia.
Qed.

Lemma rne_exact (a U : Z) : 0 < U -> rne (a * U) U = a.
Proof.
  intros HU. unfold rne. rewrite Z.mod_mul, Z.div_mul by lia.
  cbn [Z.mul]. destruct (Z.compare_spec 0 U); lia.
Qed.

Lemma div_mono_cross (N U N' U' : Z) :
  0 < U -> 0 < U' -> N * U' <= N' * U -> N / U <= N' / U'.
Proof.
  intros HU HU' H.
  pose proof (Z.div_mod N U ltac:(lia)) as E.
  pose proof (Z.div_mod N' U' ltac:(lia)) as E'.
  pose proof (Z.mod_pos_bound N U HU) as B.
  pose proof (Z.mod_pos_bound N' U' HU') as B'.
  set (f := N / U) in *. set (f' := N' / U') in *.
  set (p := N mod U) in *. set (p' := N' mod U') in *.
  destruct (Z.le_gt_cases f f') as [|Hgt]; [assumption|exfalso].
  assert (H1 : f' + 1 <= f) by lia.
  assert (H2 : U * U' * (f' + 1) <= U * U' * f) by (apply Z.mul_le_mono_nonneg_l; nia).
  nia.
Qed.

Lemma rne_mono (N U N' U' : Z) :
  0 < U -> 0 < U' -> N * U' <= N' * U -> rne N U <= rne N' U'.
Proof.
  intros HU HU' H.
  pose proof (div_mono_cross N U N' U' HU HU' H) as Hf.
  pose proof (rne_bounds N U) as Hb. pose proof (rne_bounds N' U') as Hb'.
  destruct (Z.eq_dec (N / U) (N' / U')) as [Heq|Hne]; [|lia].
  pose proof (Z.div_mod N U ltac:(lia)) as E.
  pose proof (Z.div_mod N' U' ltac:(lia)) as E'.
  pose proof (Z.mod_pos_bound N U HU) as B.
  pose proof (Z.mod_pos_bound N' U' HU') as B'.
  unfold rne in *. rewrite <- Heq in *.
  set (f := N / U) in *.
  set (p := N mod U) in *. set (p' := N' mod U') in *.
  assert (Hp : p * U' <= p' * U) by nia.
  destruct (Z.compare_spec (2 * p) U) as [C|C|C];
    destruct (Z.compare_spec (2 * p') U') as [C'|C'|C'];
    try (destruct (Z.even f)); try lia; exfalso; nia.
Qed.

Lemma rne_cross (N U N' U' : Z) :
  0 < U -> 0 < U' -> N * U' = N' * U -> rne N U = rne N' U'.
Proof.
  intros HU HU' H. apply Z.le_antisymm; apply rne_mono; lia.
Qed.

(** *** The record of a truncation *)

Lemma frac_loc_encodes (q P Q : Z) :
  0 <= P < Q ->
  encodes (shr_record_of_loc q (frac_loc P Q)) (q * Q + P) Q.
Proof.
  intros HP. unfold encodes, frac_loc.
  rewrite Z.add_comm, Z.div_add, Z.mod_add by lia.
  rewrite Z.mod_small, Z.div_small by lia. cbn [Z.add].
  destruct (Z.eqb_spec P 0) as [->|Hne]; cbn [shr_record_of_loc].
  - cbn [shr_m shr_r shr_s]. repeat split.
    destruct (Z.leb_spec Q (2 * 0)); [lia|reflexivity].
  - destruct (Z.compare_spec (2 * P) Q) as [C|C|C];
      cbn [shr_record_of_loc shr_m shr_r shr_s]; repeat split;
      try (destruct (Z.leb_spec Q (2 * P)); try reflexivity; lia);
      destruct (Z.eqb_spec (2 * P) Q); try reflexivity; lia.
Qed.

Lemma encodes_shr_1 (mrs : shr_record) (N W : Z) :
  0 <= N -> 0 < W -> encodes mrs N W -> encodes (shr_1 mrs) N (2 * W).
Proof.
  intros HN HW [Hm [Hr Hs]].
  assert (Hpos : 0 <= shr_m mrs) by (rewrite Hm; apply Z.div_pos; lia).
  destruct (shr_1_spec mrs Hpos) as [H1 [H2 H3]].
  unfold encodes. rewrite H1, H2, H3, Hm, Hr, Hs. clear H1 H2 H3 Hm Hr Hs.
  pose proof (Z.div_mod N W ltac:(lia)) as E.
  pose proof (Z.mod_pos_bound N W HW) as B.
  assert (Hq : N / (2 * W) = N / W / 2).
  { rewrite Z.mul_comm, <- Z.div_div by lia. reflexivity. }
  assert (Hrho : N mod (2 * W)
                 = N mod W + W * (if Z.odd (N / W) then 1 else 0)).
  { rewrite Z.mul_comm, Z.rem_mul_r by lia. rewrite Zmod_odd.
    destruct (Z.odd (N / W)); lia. }
  rewrite Hq, Hrho. split; [reflexivity|].
  set (p := N mod W) in *.
  destruct (Z.odd (N / W)); split;
    repeat match goal with
           | |- context [Z.leb ?a ?b] => destruct (Z.leb_spec a b)
           | |- context [Z.eqb ?a ?b] => destruct (Z.eqb_spec a b)
           end; cbn [negb andb orb]; try reflexivity; lia.
Qed.

Lemma encodes_iter (mrs : shr_record) (N W : Z) (n : nat) :
  0 <= N -> 0 < W -> encodes mrs N W ->
  encodes (Nat.iter n shr_1 mrs) N (W * 2 ^ Z.of_nat n).
Proof.
  intros HN HW H. induction n as [|n IH].
  - cbn [Nat.iter]. change (2 ^ Z.of_nat 0) with 1. now rewrite Z.mul_1_r.
  - cbn [Nat.iter]. rewrite Nat2Z.inj_succ, Z.pow_succ_r by lia.
    replace (W * (2 * 2 ^ Z.of_nat n)) with (2 * (W * 2 ^ Z.of_nat n)) by ring.
    apply encodes_shr_1; [exact HN| |exact IH].
    pose proof (pow2_pos (Z.of_nat n) ltac:(lia)). nia.
Qed.

Lemma encodes_round (mrs : shr_record) (N W : Z) :
  0 < W -> encodes mrs N W ->
  round_nearest_even (shr_m mrs) (loc_of_shr_record mrs) = rne N W.
Proof.
  intros HW [Hm [Hr Hs]]. unfold rne.
  pose proof (Z.mod_pos_bound N W HW) as B.
  destruct mrs as [m r s]. cbn [shr_m shr_r shr_s] in *. subst m r s.
  cbn [loc_of_shr_record].
  destruct (Z.compare_spec (2 * (N mod W)) W) as [C|C|C];
    repeat match goal with
           | |- context [Z.leb ?a ?b] => destruct (Z.leb_spec a b)
           | |- context [Z.eqb ?a ?b] => destruct (Z.eqb_spec a b)
           end; cbn [negb andb round_nearest_even]; try reflexivity; lia.
Qed.

(** The first half of [binary_round_aux], from a quantity
    [(mx + P / Q) * 2^ex]: the mantissa that comes out is the quantity
    rounded to nearest on the grid of the exponent that comes out. *)
Lemma shr_fexp_rne (mx ex P Q : Z) :
  0 <= mx -> 0 <= P < Q ->
  let k := Z.max 0 (fexp 53 1024 (Zdigits2 mx + ex) - ex) in
  let mrs := fst (shr_fexp 53 1024 mx ex (frac_loc P Q)) in
  round_nearest_even (shr_m mrs) (loc_of_shr_record mrs)
  = rne (mx * Q + P) (Q * 2 ^ k)
  /\ snd (shr_fexp 53 1024 mx ex (frac_loc P Q)) = ex + k.
Proof.
  intros Hmx HP. cbn zeta. unfold shr_fexp, shr.
  pose proof (frac_loc_encodes mx P Q HP) as He.
  assert (HN : 0 <= mx * Q + P) by nia.
  destruct (fexp 53 1024 (Zdigits2 mx + ex) - ex) as [|p|p] eqn:Hk;
    cbn [fst snd].
  - rewrite Z.max_l by lia. change (2 ^ 0) with 1. rewrite Z.mul_1_r, Z.add_0_r.
    split; [|reflexivity]. apply encodes_round; [lia|exact He].
  - rewrite Z.max_r by lia. split; [|reflexivity].
    rewrite iter_pos_nat.
    pose proof (encodes_iter _ (mx * Q + P) Q (Pos.to_nat p) HN ltac:(lia) He) as Hi.
    rewrite positive_nat_Z in Hi.
    apply encodes_round; [|exact Hi].
    pose proof (pow2_pos (Z.pos p) ltac:(lia)). nia.
  - rewrite Z.max_l by lia. change (2 ^ 0) with 1. rewrite Z.mul_1_r, Z.add_0_r.
    split; [|reflexivity]. apply encodes_round; [lia|exact He].
Qed.

Lemma Zdigits2_upper (m : Z) : 0 <= m -> m < 2 ^ Zdigits2 m /\ 0 <= Zdigits2 m.
Proof.
  intros Hm. destruct (Z.eq_dec m 0) as [->|Hne]; [cbn; lia|].
  pose proof (Zdigits2_bounds m ltac:(lia)).
  pose proof (Zdigits2_pos m ltac:(lia)). lia.
Qed.

Lemma mul_cancel_pow2 (a b c : Z) : 0 <= c -> a * 2 ^ c = b * 2 ^ c -> a = b.
Proof.
  intros Hc H. apply (Z.mul_reg_r _ _ (2 ^ c)); [|exact H].
  pose proof (pow2_pos c Hc). lia.
Qed.

Lemma mul_lt_cancel_pow2 (a b c : Z) : 0 <= c -> a * 2 ^ c < b * 2 ^ c -> a < b.
Proof.
  intros Hc H. pose proof (pow2_pos c Hc).
  apply (Z.mul_lt_mono_pos_r (2 ^ c)); assumption.
Qed.

Lemma mul_le_cancel_pow2 (a b c : Z) : 0 <= c -> a * 2 ^ c <= b * 2 ^ c -> a <= b.
Proof.
  intros Hc H. pose proof (pow2_pos c Hc).
  apply (Z.mul_le_mono_pos_r _ _ (2 ^ c)); assumption.
Qed.

(** What [binary_round_aux] returns for the quantity
    [(mx + P / Q) * 2^ex], which is [N / D] units: the quantity rounded to
    nearest.  The location is that of [P / Q]; when the mantissa is
    shorter than the format, the quantity is exact. *)
Lemma binary_round_aux_rounded (mx ex P Q N D c : Z) :
  0 <= mx -> 0 <= P < Q -> 0 < mx * Q + P ->
  P = 0 \/ ex <= fexp 53 1024 (Zdigits2 mx + ex) ->
  0 < D -> 0 <= c -> 0 <= c + ex + 1074 ->
  N * Q * 2 ^ c = (mx * Q + P) * D * 2 ^ (c + ex + 1074) ->
  nonneg_finite (binary_round_aux 53 1024 false mx ex (frac_loc P Q)) ->
  rounded (binary_round_aux 53 1024 false mx ex (frac_loc P Q)) N D.
Proof.
  intros Hmx HP HX Hloc HD Hc HA Hrel Hr.
  set (r := binary_round_aux 53 1024 false mx ex (frac_loc P Q)) in *.
  pose proof (binary_round_aux_pack false mx ex (frac_loc P Q)) as Hpk.
  fold r in Hpk.
  destruct (shr_fexp_shape mx ex (frac_loc P Q) Hmx) as [Hm1 He1].
  destruct (shr_fexp_rne mx ex P Q Hmx HP) as [Hrne Hsnd].
  cbn zeta in Hm1, Hrne, Hsnd. rewrite Hsnd in *. rewrite Hrne in *.
  clear Hrne Hsnd.
  destruct (Zdigits2_upper mx Hmx) as [Hdig Hd0].
  set (d := Zdigits2 mx) in *.
  rewrite fexp_eq in *.
  set (E := Z.max (d + ex - 53) (-1074)) in *.
  set (k := Z.max 0 (E - ex)) in *.
  set (X := mx * Q + P) in *.
  set (m1 := rne X (Q * 2 ^ k)) in *.
  assert (HE : -1074 <= E) by (unfold E; lia).
  assert (Hk : 0 <= k) by (unfold k; lia).
  (* the value of the result *)
  assert (Hu : units r = m1 * 2 ^ (ex + k + 1074)).
  { destruct (Z.eq_dec m1 0) as [Hz|Hnz].
    - rewrite Hpk, Hz, pack_zero by lia. reflexivity.
    - destruct (pack_spec false m1 (ex + k) ltac:(lia) ltac:(lia))
        as [m' [e' [Hp [Hlt [Hcase Hval]]]]].
      rewrite Hpk, Hp in Hr |- *.
      destruct (Z.leb_spec e' 971); [|contradiction].
      rewrite units_finite_false, <- Hval, <- Z.mul_assoc, <- Z.pow_add_r by lia.
      f_equal. f_equal. lia. }
  clearbody r. clear Hpk Hr.
  set (g := E + 1074).
  assert (Hg : 0 <= g) by (unfold g; lia).
  assert (HQ : 0 < Q) by lia.
  pose proof (pow2_pos g Hg) as Hpg. pose proof (pow2_pos c Hc) as Hpc.
  pose proof (pow2_pos k Hk) as Hpk.
  exists g. split; [exact Hg|].
  (* the quantity in terms of the grid *)
  assert (Hcases : (ex <= E /\ k = E - ex) \/ (E < ex /\ k = 0 /\ P = 0)).
  { unfold k. destruct (Z.le_gt_cases ex E) as [Hle|Hgt]; [left; lia|].
    right. destruct Hloc as [HP0|Hl]; [lia|]. fold d E in Hl. lia. }
  split; [|split].
  - rewrite Hu. destruct Hcases as [[Hle Hk']|[Hgt [Hk' HP0]]].
    + replace (ex + k + 1074) with g by (unfold g; lia). f_equal.
      unfold m1. apply rne_cross; [nia|nia|].
      apply (mul_cancel_pow2 _ _ c Hc).
      replace (X * (D * 2 ^ g) * 2 ^ c) with (X * D * (2 ^ c * 2 ^ g)) by ring.
      rewrite <- Z.pow_add_r by lia.
      replace (N * (Q * 2 ^ k) * 2 ^ c) with (N * Q * 2 ^ c * 2 ^ k) by ring.
      rewrite Hrel.
      replace (X * D * 2 ^ (c + ex + 1074) * 2 ^ k)
        with (X * D * (2 ^ (c + ex + 1074) * 2 ^ k)) by ring.
      rewrite <- Z.pow_add_r by lia.
      f_equal. f_equal. unfold g. lia.
    + assert (Hm1x : m1 = mx).
      { unfold m1, X. rewrite Hk', HP0, Z.add_0_r.
        change (2 ^ 0) with 1. rewrite Z.mul_1_r. now apply rne_exact. }
      assert (HN : N = mx * 2 ^ (ex - E) * (D * 2 ^ g)).
      { apply (mul_cancel_pow2 _ _ c Hc).
        apply (Z.mul_reg_r _ _ Q); [lia|].
        replace (N * 2 ^ c * Q) with (N * Q * 2 ^ c) by ring.
        rewrite Hrel. unfold X. rewrite HP0, Z.add_0_r.
        replace (mx * 2 ^ (ex - E) * (D * 2 ^ g) * 2 ^ c * Q)
          with (mx * Q * D * (2 ^ (ex - E) * 2 ^ g * 2 ^ c)) by ring.
        rewrite <- !Z.pow_add_r by lia.
        rewrite <- !Z.mul_assoc. f_equal. f_equal. f_equal. f_equal.
        unfold g. lia. }
      rewrite HN, rne_exact by nia. rewrite Hm1x, Hk'.
      rewrite <- Z.mul_assoc, <- Z.pow_add_r by lia.
      f_equal. f_equal. unfold g. lia.
  - (* below the top of the binade *)
    apply (mul_lt_cancel_pow2 _ _ c Hc).
    apply (Z.mul_lt_mono_pos_r Q); [lia|].
    replace (N * 2 ^ c * Q) with (N * Q * 2 ^ c) by ring. rewrite Hrel.
    assert (HXd : X < 2 ^ d * Q) by (unfold X; nia).
    assert (Hpow : 2 ^ d * 2 ^ (c + ex + 1074) <= 2 ^ 53 * (2 ^ g * 2 ^ c)).
    { rewrite <- !Z.pow_add_r by lia. apply Z.pow_le_mono_r; [lia|].
      unfold g, E. lia. }
    pose proof (pow2_pos (c + ex + 1074) HA) as HpA.
    assert (H1 : X * D * 2 ^ (c + ex + 1074)
                 < 2 ^ d * Q * D * 2 ^ (c + ex + 1074)).
    { apply Z.mul_lt_mono_pos_r; [exact HpA|].
      apply Z.mul_lt_mono_pos_r; [exact HD|exact HXd]. }
    assert (H2 : 2 ^ d * Q * D * 2 ^ (c + ex + 1074)
                 <= 2 ^ 53 * (D * 2 ^ g) * 2 ^ c * Q).
    { replace (2 ^ d * Q * D * 2 ^ (c + ex + 1074))
        with (Q * D * (2 ^ d * 2 ^ (c + ex + 1074))) by ring.
      replace (2 ^ 53 * (D * 2 ^ g) * 2 ^ c * Q)
        with (Q * D * (2 ^ 53 * (2 ^ g * 2 ^ c))) by ring.
      apply Z.mul_le_mono_nonneg_l; [nia|exact Hpow]. }
    lia.
  - (* above the bottom of the binade, on a grid above the units *)
    destruct (Z.eq_dec g 0) as [|Hg0]; [left; assumption|right].
    assert (HEn : E = d + ex - 53) by (unfold g, E in *; lia).
    assert (Hmxpos : 0 < mx).
    { destruct (Z.eq_dec mx 0) as [Hz|]; [exfalso|lia].
      subst mx. cbn in d. subst d.
      destruct Hcases as [[Hle _]|[_ [_ HP0]]]; [lia|].
      unfold X in HX. lia. }
    pose proof (Zdigits2_bounds mx Hmxpos) as [Hlo _]. fold d in Hlo.
    pose proof (Zdigits2_pos mx Hmxpos) as Hdpos. fold d in Hdpos.
    apply (mul_le_cancel_pow2 _ _ c Hc).
    apply (Z.mul_le_mono_pos_r _ _ Q); [lia|].
    replace (N * 2 ^ c * Q) with (N * Q * 2 ^ c) by ring. rewrite Hrel.
    assert (HXd : 2 ^ (d - 1) * Q <= X) by (unfold X; nia).
    pose proof (pow2_pos (c + ex + 1074) HA) as HpA.
    assert (Hpow : 2 ^ 52 * (2 ^ g * 2 ^ c) = 2 ^ (d - 1) * 2 ^ (c + ex + 1074)).
    { rewrite <- !Z.pow_add_r by lia. f_equal. unfold g. lia. }
    replace (2 ^ 52 * (D * 2 ^ g) * 2 ^ c * Q)
      with (Q * D * (2 ^ 52 * (2 ^ g * 2 ^ c))) by ring.
    rewrite Hpow.
    replace (Q * D * (2 ^ (d - 1) * 2 ^ (c + ex + 1074)))
      with (2 ^ (d - 1) * Q * D * 2 ^ (c + ex + 1074)) by ring.
    apply Z.mul_le_mono_nonneg_r; [lia|].
    apply Z.mul_le_mono_nonneg_r; [lia|exact HXd].
Qed.

(** Two quantities in order round to floats in order. *)
Lemma rounded_mono (r r' : float) (N D N' D' : Z) :
  0 < D -> 0 < D' -> 0 <= N ->
  rounded r N D -> rounded r' N' D' ->
  N * D' <= N' * D -> units r <= units r'.
Proof.
  intros HD HD' HN [g [Hg [Hu [Hhi Hlo]]]] [g' [Hg' [Hu' [Hhi' Hlo']]]] Hle.
  pose proof (pow2_pos g Hg) as Hpg. pose proof (pow2_pos g' Hg') as Hpg'.
  rewrite Hu, Hu'.
  destruct (Z.lt_trichotomy g g') as [Hlt|[Heq|Hgt]].
  - (* the second is in a binade above *)
    destruct Hlo' as [|Hlo']; [lia|].
    assert (H1 : rne N (D * 2 ^ g) <= 2 ^ 53).
    { pose proof (rne_bounds N (D * 2 ^ g)) as Hb.
      assert (N / (D * 2 ^ g) < 2 ^ 53)
        by (apply Z.div_lt_upper_bound; nia). lia. }
    assert (H2 : 2 ^ 52 <= rne N' (D' * 2 ^ g')).
    { pose proof (rne_bounds N' (D' * 2 ^ g')) as Hb.
      assert (2 ^ 52 <= N' / (D' * 2 ^ g'))
        by (apply Z.div_le_lower_bound; nia). lia. }
    assert (H3 : 2 ^ 53 * 2 ^ g <= 2 ^ 52 * 2 ^ g').
    { rewrite <- !Z.pow_add_r by lia. apply Z.pow_le_mono_r; lia. }
    assert (H4 : rne N (D * 2 ^ g) * 2 ^ g <= 2 ^ 53 * 2 ^ g)
      by (apply Z.mul_le_mono_nonneg_r; lia).
    assert (H5 : 2 ^ 52 * 2 ^ g' <= rne N' (D' * 2 ^ g') * 2 ^ g')
      by (apply Z.mul_le_mono_nonneg_r; lia).
    lia.
  - subst g'. apply Z.mul_le_mono_nonneg_r; [lia|].
    apply rne_mono; [nia|nia|].
    replace (N * (D' * 2 ^ g)) with (N * D' * 2 ^ g) by ring.
    replace (N' * (D * 2 ^ g)) with (N' * D * 2 ^ g) by ring.
    apply Z.mul_le_mono_nonneg_r; lia.
  - (* the first cannot be in a binade above *)
    exfalso. destruct Hlo as [|Hlo]; [lia|].
    assert (H3 : 2 ^ 53 * 2 ^ g' <= 2 ^ 52 * 2 ^ g).
    { rewrite <- !Z.pow_add_r by lia. apply Z.pow_le_mono_r; lia. }
    assert (H4 : N' * D < 2 ^ 53 * (D' * 2 ^ g') * D)
      by (apply Z.mul_lt_mono_pos_r; lia).
    assert (H5 : 2 ^ 52 * (D * 2 ^ g) * D' <= N * D')
      by (apply Z.mul_le_mono_nonneg_r; lia).
    assert (H6 : 2 ^ 53 * (D' * 2 ^ g') * D <= 2 ^ 52 * (D * 2 ^ g) * D').
    { replace (2 ^ 53 * (D' * 2 ^ g') * D)
        with (D * D' * (2 ^ 53 * 2 ^ g')) by ring.
      replace (2 ^ 52 * (D * 2 ^ g) * D')
        with (D * D' * (2 ^ 52 * 2 ^ g)) by ring.
      apply Z.mul_le_mono_nonneg_l; [nia|exact H3]. }
    lia.
Qed.

(** *** The conversion of an int *)

Lemma of_Z_rounded (n : Z) :
  0 < n -> nonneg_finite (of_Z n) -> rounded (of_Z n) (n * 2 ^ 1074) 1.
Proof.
  intros Hn. unfold of_Z, binary_normalize. destruct n as [|p|p]; try lia.
  unfold binary_round, prec, emax.
  pose proof (shl_align_spec p 0 (fexp 53 1024 (Z.pos (digits2_pos p) + 0)))
    as Hsp.
  destruct (shl_align p 0 _) as [mz ez]. destruct Hsp as [Hez Hmz].
  rewrite fexp_eq in Hez.
  change loc_Exact with (frac_loc 0 1).
  apply (binary_round_aux_rounded (Z.pos mz) ez 0 1 _ 1 0); try lia.
  rewrite Hmz. change (2 ^ 0) with 1.
  rewrite !Z.mul_1_r, Z.add_0_r, <- Z.mul_assoc, <- Z.pow_add_r by lia.
  f_equal. f_equal. lia.
Qed.

Lemma of_Z_mono (n n' : Z) :
  0 <= n <= n' -> nonneg_finite (of_Z n) -> nonneg_finite (of_Z n') ->
  units (of_Z n) <= units (of_Z n').
Proof.
  intros Hn Hf Hf'. destruct (Z.eq_dec n 0) as [->|Hne].
  - cbn. now apply units_nonneg.
  - apply (rounded_mono _ _ (n * 2 ^ 1074) 1 (n' * 2 ^ 1074) 1); try lia.
    + apply of_Z_rounded; [lia|exact Hf].
    + apply of_Z_rounded; [lia|exact Hf'].
Qed.

(** *** The product *)

Lemma mul_rounded (ma mb : positive) (ea eb : Z) :
  -1074 <= ea -> -1074 <= eb ->
  nonneg_finite (mul (S754_finite false ma ea) (S754_finite false mb eb)) ->
  rounded (mul (S754_finite false ma ea) (S754_finite false mb eb))
    (units (S754_finite false ma ea) * units (S754_finite false mb eb))
    (2 ^ 1074).
Proof.
  intros Hea Heb. unfold mul, SFmul, prec, emax. cbn [xorb].
  change loc_Exact with (frac_loc 0 1).
  rewrite !units_finite_false.
  apply (binary_round_aux_rounded _ _ 0 1 _ _ 1074); try lia.
  rewrite Pos2Z.inj_mul, !Z.mul_1_r, Z.add_0_r.
  replace (Z.pos ma * 2 ^ (ea + 1074) * (Z.pos mb * 2 ^ (eb + 1074)) * 2 ^ 1074)
    with (Z.pos ma * Z.pos mb * 2 ^ 1074
          * (2 ^ (ea + 1074) * 2 ^ (eb + 1074))) by ring.
  rewrite <- Z.pow_add_r by lia. f_equal. f_equal. lia.
Qed.

(** *** The quotient *)

Lemma new_location_frac_loc (Q P : Z) :
  0 <= P < Q -> new_location Q P = frac_loc P Q.
Proof.
  intros HP. unfold new_location, new_location_even, new_location_odd, frac_loc.
  destruct (Z.even Q) eqn:Hev; [reflexivity|].
  destruct (Z.eqb_spec P 0); [reflexivity|]. f_equal.
  assert (Hodd : Z.odd Q = true) by (rewrite <- Z.negb_even, Hev; reflexivity).
  apply Z.odd_spec in Hodd. destruct Hodd as [j Hj].
  destruct (Z.compare_spec (2 * P + 1) Q);
    destruct (Z.compare_spec (2 * P) Q); try reflexivity; lia.
Qed.

(** The quotient of two mantissas as the library computes it: enough
    bits of it for the rounding that follows, and what is left. *)
Lemma SFdiv_core_binary_spec (m1 e1 m2 e2 : Z) :
  0 < m1 -> 0 < m2 ->
  exists q r0 e',
    SFdiv_core_binary 53 1024 m1 e1 m2 e2 = (q, e', frac_loc r0 m2)
    /\ 0 <= q /\ 0 <= r0 < m2
    /\ e' <= e1 - e2
    /\ Z.min (-1074) (e1 - e2) <= e'
    /\ q * m2 + r0 = m1 * 2 ^ (e1 - e2 - e')
    /\ e' <= fexp 53 1024 (Zdigits2 q + e').
Proof.
  intros H1 H2. unfold SFdiv_core_binary.
  pose proof (Zdigits2_bounds m1 H1) as [Hl1 Hu1].
  pose proof (Zdigits2_bounds m2 H2) as [Hl2 Hu2].
  pose proof (Zdigits2_pos m1 H1) as Hd1. pose proof (Zdigits2_pos m2 H2) as Hd2.
  set (d1 := Zdigits2 m1) in *. set (d2 := Zdigits2 m2) in *.
  rewrite fexp_eq.
  set (e' := Z.min (Z.max (d1 + e1 - (d2 + e2) - 53) (-1074)) (e1 - e2)).
  set (s := e1 - e2 - e').
  assert (Hs : 0 <= s) by (unfold s, e'; lia).
  assert (Hm' : match s with
                | 0 => m1 | Z.pos _ => Z.shiftl m1 s | Z.neg _ => 0
                end = m1 * 2 ^ s).
  { destruct s as [|p|p] eqn:E; [lia| |lia]. apply Z.shiftl_mul_pow2. lia. }
  rewrite Hm', div_eucl_div_mod.
  pose proof (pow2_pos s Hs) as Hps.
  pose proof (Z.div_mod (m1 * 2 ^ s) m2 ltac:(lia)) as Hdm.
  pose proof (Z.mod_pos_bound (m1 * 2 ^ s) m2 H2) as Hb.
  set (q := m1 * 2 ^ s / m2) in *. set (r0 := (m1 * 2 ^ s) mod m2) in *.
  assert (Hq : 0 <= q) by (apply Z.div_pos; nia).
  exists q, r0, e'. rewrite new_location_frac_loc by exact Hb.
  split; [reflexivity|]. split; [exact Hq|]. split; [exact Hb|].
  split; [unfold e'; lia|]. split; [unfold e'; lia|].
  split; [fold s; lia|].
  rewrite fexp_eq.
  destruct (Z.le_gt_cases e' (-1074)) as [|Hgt]; [lia|].
  (* above the smallest exponent the quotient has 53 bits *)
  assert (Hs53 : 53 - d1 + d2 <= s) by (unfold s, e' in *; lia).
  assert (Hq52 : 2 ^ 52 <= q).
  { apply Z.div_le_lower_bound; [lia|].
    assert (Hpow : 2 ^ 52 * 2 ^ d2 <= 2 ^ (d1 - 1) * 2 ^ s).
    { rewrite <- !Z.pow_add_r by lia. apply Z.pow_le_mono_r; lia. }
    assert (Ha : 2 ^ (d1 - 1) * 2 ^ s <= m1 * 2 ^ s)
      by (apply Z.mul_le_mono_nonneg_r; lia).
    assert (Hb2 : m2 * 2 ^ 52 <= 2 ^ d2 * 2 ^ 52)
      by (apply Z.mul_le_mono_nonneg_r; lia).
    lia. }
  assert (Hdq : 53 <= Zdigits2 q).
  { destruct (Z.lt_ge_cases (Zdigits2 q) 53) as [Hlt|]; [exfalso|lia].
    pose proof (Zdigits2_bounds q ltac:(lia)) as [_ Hu].
    assert (2 ^ Zdigits2 q <= 2 ^ 52) by (apply Z.pow_le_mono_r; lia). lia. }
  lia.
Qed.

Lemma div_rounded (ma my : positive) (ea ey : Z) :
  -1074 <= ea -> -1074 <= ey ->
  nonneg_finite (div (S754_finite false ma ea) (S754_finite false my ey)) ->
  rounded (div (S754_finite false ma ea) (S754_finite false my ey))
    (units (S754_finite false ma ea) * 2 ^ 1074)
    (units (S754_finite false my ey)).
Proof.
  intros Hea Hey. unfold div, SFdiv, prec, emax. cbn [xorb].
  destruct (SFdiv_core_binary_spec (Z.pos ma) ea (Z.pos my) ey)
    as (q & r0 & e' & E & Hq & Hr0 & Hle & Hge & Hqr & Hfe); try lia.
  rewrite E. rewrite !units_finite_false.
  pose proof (pow2_pos (ey + 1074) ltac:(lia)) as Hpy.
  apply (binary_round_aux_rounded q e' r0 (Z.pos my) _ _
           (Z.max 0 (- e' - 1074))); try lia.
  rewrite Hqr. set (c := Z.max 0 (- e' - 1074)).
  replace (Z.pos ma * 2 ^ (ea + 1074) * 2 ^ 1074 * Z.pos my * 2 ^ c)
      with (Z.pos ma * Z.pos my * (2 ^ (ea + 1074) * 2 ^ 1074 * 2 ^ c)) by ring.
    replace (Z.pos ma * 2 ^ (ea - ey - e') * (Z.pos my * 2 ^ (ey + 1074))
             * 2 ^ (c + e' + 1074))
      with (Z.pos ma * Z.pos my
            * (2 ^ (ea - ey - e') * 2 ^ (ey + 1074) * 2 ^ (c + e' + 1074)))
      by ring.
    rewrite <- !Z.pow_add_r by (unfold c; lia).
    f_equal. f_equal. lia.
Qed.

Lemma int_truediv_rounded (n d : Z) (q : float) :
  0 < n -> 0 < d -> int_truediv n d = Ok q -> rounded q (n * 2 ^ 1074) d.
Proof.
  intros Hn Hd Hq. pose proof (int_truediv_shape n d q ltac:(lia) Hd Hq) as Hf.
  unfold int_truediv, prec, emax in Hq.
  destruct n as [|n|n]; try lia; destruct d as [|d|d]; try lia.
  cbn [Z.abs Z.ltb Z.compare xorb] in Hq.
  destruct (SFdiv_core_binary_spec (Z.pos n) 0 (Z.pos d) 0)
    as (q0 & r0 & e' & E & Hq0 & Hr0 & Hle & Hge & Hqr & Hfe); try lia.
  rewrite E in Hq.
  assert (Hres : binary_round_aux 53 1024 false q0 e' (frac_loc r0 (Z.pos d)) = q).
  { destruct (binary_round_aux 53 1024 false q0 e' (frac_loc r0 (Z.pos d)));
      congruence. }
  rewrite <- Hres in *.
  apply (binary_round_aux_rounded q0 e' r0 (Z.pos d) _ _ 0); try lia;
    [|exact Hf].
  - rewrite Hqr. change (2 ^ 0) with 1. rewrite Z.mul_1_r.
    replace (Z.pos n * 2 ^ 1074 * Z.pos d)
      with (Z.pos n * Z.pos d * 2 ^ 1074) by ring.
    replace (Z.pos n * 2 ^ (0 - 0 - e') * Z.pos d * 2 ^ (0 + e' + 1074))
      with (Z.pos n * Z.pos d * (2 ^ (0 - 0 - e') * 2 ^ (0 + e' + 1074)))
      by ring.
    rewrite <- Z.pow_add_r by lia. f_equal. f_equal. lia.
Qed.

(** ** Later frames have later stamps *)

Lemma nonneg_finite_cases (a : float) :
  nonneg_finite a ->
  a = S754_zero false
  \/ exists m e, a = S754_finite false m e
                 /\ Z.pos m < 2 ^ 53 /\ -1074 <= e <= 971 /\ 0 < units a.
Proof.
  destruct a as [s| | |s m e]; cbn [nonneg_finite]; try contradiction.
  - intros ->. now left.
  - intros [-> [Hm He]]. right. exists m, e. repeat split; try lia.
    rewrite units_finite_false.
    pose proof (pow2_pos (e + 1074) ltac:(lia)). nia.
Qed.

(** The quotient by a positive float grows with the numerator. *)
Lemma div_mono (a a' y : float) :
  nonneg_finite a -> nonneg_finite a' -> units a <= units a' ->
  rate_in_format (PyFloat y) -> ltb zero y = true ->
  nonneg_finite (div a y) -> nonneg_finite (div a' y) ->
  units (div a y) <= units (div a' y).
Proof.
  intros Ha Ha' Hle Hy Hgt Hf Hf'.
  destruct (nonneg_finite_cases a Ha) as [->|(ma & ea & -> & Hma & Hea & Hpos)].
  - assert (Hz : units (div (S754_zero false) y) = 0)
      by (destruct y; reflexivity).
    rewrite Hz. now apply units_nonneg.
  - destruct (nonneg_finite_cases a' Ha')
      as [->|(ma' & ea' & -> & Hma' & Hea' & Hpos')]; [cbn [units] in Hle; lia|].
    destruct y as [s|s| |s my ey]; try discriminate; destruct s;
      try discriminate; try (unfold div, SFdiv; cbn [units]; lia).
    cbn [rate_in_format] in Hy. destruct Hy as [Hmy Hey].
    pose proof (pow2_pos (ey + 1074) ltac:(lia)) as Hpy.
    assert (HD : 0 < units (S754_finite false my ey))
      by (rewrite units_finite_false; nia).
    apply (rounded_mono _ _
             (units (S754_finite false ma ea) * 2 ^ 1074)
             (units (S754_finite false my ey))
             (units (S754_finite false ma' ea') * 2 ^ 1074)
             (units (S754_finite false my ey))); try assumption.
    + lia.
    + apply div_rounded; [lia|lia|exact Hf].
    + apply div_rounded; [lia|lia|exact Hf'].
    + apply Z.mul_le_mono_nonneg_r; [lia|].
      apply Z.mul_le_mono_nonneg_r; lia.
Qed.

Lemma of_int_Ok (n : Z) (a : float) :
  0 <= n -> of_int n = Ok a -> a = of_Z n /\ nonneg_finite a.
Proof.
  intros Hn. unfold of_int. pose proof (of_Z_shape n Hn) as Hs.
  destruct (of_Z n) as [s|s| |s m e]; intros H; inversion H; subst a;
    cbn in *; tauto.
Qed.

(** The elapsed time grows with the ordinal. *)
Lemma elapsed_mono (fps : pynum) (n m : Z) (x x' : float) :
  rate_in_format fps -> py_gt0 fps = true -> 1 <= n <= m ->
  py_int_truediv (n - 1) fps = Ok (PyFloat x) ->
  py_int_truediv (m - 1) fps = Ok (PyFloat x') ->
  nonneg_finite x -> nonneg_finite x' ->
  units x <= units x'.
Proof.
  intros Hfmt Hgt Hnm. unfold py_int_truediv.
  destruct fps as [d|y]; cbn [py_gt0] in Hgt.
  - apply Z.ltb_lt in Hgt.
    destruct (int_truediv (n - 1) d) as [q|] eqn:Hq; cbn [bind]; [|discriminate].
    destruct (int_truediv (m - 1) d) as [q'|] eqn:Hq'; cbn [bind]; [|discriminate].
    intros H H' Hf Hf'. inversion H; inversion H'; subst q q'.
    destruct (Z.eq_dec (n - 1) 0) as [Hz|Hnz].
    + rewrite Hz in Hq. unfold int_truediv in Hq.
      destruct d; try lia. inversion Hq. cbn [units].
      now apply units_nonneg.
    + apply (rounded_mono _ _ ((n - 1) * 2 ^ 1074) d ((m - 1) * 2 ^ 1074) d);
        try lia.
      * apply int_truediv_rounded; [lia|lia|exact Hq].
      * apply int_truediv_rounded; [lia|lia|exact Hq'].
      * apply Z.mul_le_mono_nonneg_r; [lia|].
        apply Z.mul_le_mono_nonneg_r; lia.
  - rewrite (ltb_zero_not_zero y Hgt).
    destruct (of_int (n - 1)) as [a|] eqn:Ha; cbn [bind]; [|discriminate].
    destruct (of_int (m - 1)) as [a'|] eqn:Ha'; cbn [bind]; [|discriminate].
    intros H H' Hf Hf'. inversion H; inversion H'; subst x x'.
    destruct (of_int_Ok (n - 1) a ltac:(lia) Ha) as [-> Hfa].
    destruct (of_int_Ok (m - 1) a' ltac:(lia) Ha') as [-> Hfa'].
    apply div_mono; try assumption.
    apply of_Z_mono; [lia|assumption|assumption].
Qed.

(** The product with [1e9] grows with the fraction. *)
Lemma mul_1e9_mono (r r' : float) :
  in_format r -> in_format r' ->
  0 <= units r <= units r' -> units r' < 2 ^ 1074 ->
  units (mul r f1e9) <= units (mul r' f1e9).
Proof.
  intros Hr Hr' Hle Hlt.
  assert (Hnn : forall x, in_format x -> 0 <= units x ->
                          is_zero x = true \/ nonneg_finite x /\ 0 < units x).
  { intros x Hx Hu. destruct x as [s| | |s m e]; cbn [in_format] in Hx;
      try contradiction; [now left|right].
    pose proof (pow2_pos (e + 1074) ltac:(lia)).
    destruct s; cbn [units nonneg_finite] in *; try nia;
      repeat split; try lia; nia. }
  assert (Hz : forall x, is_zero x = true -> units (mul x f1e9) = 0).
  { intros x Hx. destruct x; try discriminate. reflexivity. }
  assert (Hpos : forall x, nonneg_finite x -> units x < 2 ^ 1074 ->
                           0 <= units (mul x f1e9)).
  { intros x Hx Hu. destruct (mul_1e9_bound x Hx Hu) as [Hf _].
    now apply units_nonneg. }
  destruct (Hnn r Hr ltac:(lia)) as [Hrz|[Hrf Hrp]].
  - rewrite (Hz r Hrz).
    destruct (Hnn r' Hr' ltac:(lia)) as [Hrz'|[Hrf' _]].
    + rewrite (Hz r' Hrz'). lia.
    + now apply Hpos.
  - destruct (Hnn r' Hr' ltac:(lia)) as [Hrz'|[Hrf' Hrp']].
    + destruct r'; try discriminate. cbn [units] in Hle. lia.
    + destruct (mul_1e9_bound r Hrf ltac:(lia)) as [Hf _].
      destruct (mul_1e9_bound r' Hrf' Hlt) as [Hf' _].
      destruct (nonneg_finite_cases r Hrf)
        as [->|(m & e & -> & Hm & He & _)]; [cbn [units] in Hrp; lia|].
      destruct (nonneg_finite_cases r' Hrf')
        as [->|(m' & e' & -> & Hm' & He' & _)]; [cbn [units] in Hrp'; lia|].
      rewrite f1e9_eq in *.
      apply (rounded_mono _ _
               (units (S754_finite false m e)
                * units (S754_finite false 8388608000000000 (-23)))
               (2 ^ 1074)
               (units (S754_finite false m' e')
                * units (S754_finite false 8388608000000000 (-23)))
               (2 ^ 1074)); try lia.
      * rewrite !units_finite_false in *. nia.
      * apply mul_rounded; [lia|lia|exact Hf].
      * apply mul_rounded; [lia|lia|exact Hf'].
      * apply Z.mul_le_mono_nonneg_r; [lia|].
        apply Z.mul_le_mono_nonneg_r; [|lia].
        rewrite units_finite_false. lia.
Qed.

(** The stamp grows with the ordinal, from ordinal 1 on. *)
Lemma timestamp_mono (fps : pynum) (n m s ns s' ns' : Z) :
  rate_in_format fps -> 1 <= n <= m ->
  timestamp n fps = Ok (s, ns) -> timestamp m fps = Ok (s', ns') ->
  stamp_le {| sec := s; nanosec := ns |} {| sec := s'; nanosec := ns' |}.
Proof.
  intros Hfmt Hnm Hn Hm. unfold stamp_le. cbn [sec nanosec].
  destruct (py_gt0 fps) eqn:Hgt.
  - destruct (timestamp_split n fps s ns ltac:(lia) Hgt Hn)
      as (x & Hx & Hfx & (r & Hr & Hru & Hxs & Hns) & _ & _).
    destruct (timestamp_split m fps s' ns' ltac:(lia) Hgt Hm)
      as (x' & Hx' & Hfx' & (r' & Hr' & Hru' & Hxs' & Hns') & _ & _).
    cbn [sec nanosec] in *.
    pose proof (elapsed_mono fps n m x x' Hfmt Hgt Hnm Hx Hx' Hfx Hfx') as Hle.
    destruct (Z.lt_trichotomy s s') as [Hlt|[Heq|Hgt']].
    + now left.
    + right. split; [exact Heq|]. subst s'. rewrite Hns, Hns'.
      apply Z.div_le_mono; [lia|].
      apply mul_1e9_mono; try assumption; lia.
    + exfalso. nia.
  - unfold timestamp in Hn, Hm.
    rewrite (timestamp_parts_not_positive n fps Hgt) in Hn.
    rewrite (timestamp_parts_not_positive m fps Hgt) in Hm.
    cbn [bind py_int] in Hn, Hm. inversion Hn; inversion Hm. lia.
Qed.

Lemma process_frame_stamp_le (frame_id : string) (fps : pynum) (f g : frame)
  (pf pg : pose_stamped) :
  rate_in_format fps ->
  ordinal_at_least_1 f ->
  ordinal_le f g ->
  process_frame frame_id fps f = Ok pf ->
  process_frame frame_id fps g = Ok pg ->
  stamp_le (header_stamp pf) (header_stamp pg).
Proof.
  intros Hfmt H1 (p & q & n & m & Hp & Hq & Hn & Hm & Hle) Hf Hg.
  destruct (process_frame_stamp _ _ _ _ Hf) as (p' & n' & Hp' & Hn' & Hts).
  destruct (process_frame_stamp _ _ _ _ Hg) as (q' & m' & Hq' & Hm' & Hts').
  assert (p' = p) by congruence. subst p'.
  assert (q' = q) by congruence. subst q'.
  assert (n' = n) by congruence. subst n'.
  assert (m' = m) by congruence. subst m'.
  pose proof (H1 p n Hp Hn) as Hn1.
  pose proof (timestamp_mono fps n m _ _ _ _ Hfmt ltac:(lia) Hts Hts') as H.
  destruct (header_stamp pf), (header_stamp pg). exact H.
Qed.

(** X18.  Of two frames that yield a pose, with ordinals [n <= m] from 1
    on, the one of the larger ordinal has the later stamp, or the same: the
    stamps grow with the ordinal (seconds first, then nanoseconds), at
    every frame rate, although each stamp is computed with three roundings
    of binary64. *)
Theorem later_frame_has_later_stamp (frame_id : string) (fps : pynum)
  (f g : frame) (pf pg : pose_stamped) (path_f path_g : string) (n m : Z) :
  rate_in_format fps ->
  process_frame frame_id fps f = Ok pf ->
  process_frame frame_id fps g = Ok pg ->
  file_path f = Some path_f -> file_path g = Some path_g ->
  extract_frame_number path_f = Ok n ->
  extract_frame_number path_g = Ok m ->
  1 <= n <= m ->
  stamp_le (header_stamp pf) (header_stamp pg).
Proof.
  intros Hfmt Hf Hg Hpf Hpg Hn Hm Hnm.
  apply (process_frame_stamp_le frame_id fps f g); try assumption.
  - intros p k Hp Hk. assert (p = path_f) by congruence. subst p.
    assert (k = n) by congruence. lia.
  - exists path_f, path_g, n, m. repeat split; try assumption; lia.
Qed.

Lemma later_frame_has_later_stamp_witness :
  exists pf pg,
    process_frame "map" (PyFloat f30) (frame_at "images/frame_0007.png") = Ok pf
    /\ process_frame "map" (PyFloat f30) (frame_at "images/frame_0100.png")
       = Ok pg
    /\ stamp_le (header_stamp pf) (header_stamp pg).
Proof.
  destruct (process_frame "map" (PyFloat f30) (frame_at "images/frame_0007.png"))
    as [pf|e] eqn:Hf; [|vm_compute in Hf; discriminate].
  destruct (process_frame "map" (PyFloat f30) (frame_at "images/frame_0100.png"))
    as [pg|e] eqn:Hg; [|vm_compute in Hg; discriminate].
  exists pf, pg. split; [reflexivity|]. split; [reflexivity|].
  apply (later_frame_has_later_stamp "map" (PyFloat f30)
           (frame_at "images/frame_0007.png") (frame_at "images/frame_0100.png")
           pf pg "images/frame_0007.png" "images/frame_0100.png" 7 100);
    try assumption; try reflexivity.
  - cbn. lia.
  - lia.
Defined.

Lemma get_video_fps_rate_in_format (num den : Z) (fps : pynum) :
  get_video_fps num den = Ok fps -> rate_in_format fps.
Proof.
  unfold get_video_fps. destruct (Z.eqb_spec den 0) as [->|Hd]; cbn [negb].
  - intros H; inversion H. exact I.
  - destruct (int_truediv_signed_shape num den Hd)
      as [[q [E [Hf _]]]|E]; rewrite E; cbn [bind]; [|discriminate].
    intros H; inversion H; subst fps.
    destruct q; cbn in *; tauto.
Qed.

Lemma emitted_StronglySorted_poses (frame_id : string) (fps : pynum)
  (R : frame -> frame -> Prop) (R' : pose_stamped -> pose_stamped -> Prop)
  (P : frame -> Prop) (frames : list frame) :
  (forall f g pf pg,
     P f -> P g -> R f g ->
     process_frame frame_id fps f = Ok pf ->
     process_frame frame_id fps g = Ok pg -> R' pf pg) ->
  Forall P frames ->
  StronglySorted R frames ->
  StronglySorted R' (map snd (emitted frame_id fps frames)).
Proof.
  intros HR HP HS. induction HS as [|f rest HS IH Hall]; cbn [emitted map];
    [constructor|].
  inversion HP as [|? ? Pf Prest]; subst.
  destruct (process_frame frame_id fps f) as [pf|e] eqn:Hf; cbn [map snd];
    [|now apply IH].
  constructor; [now apply IH|].
  apply Forall_forall. intros pg Hin. apply in_map_iff in Hin.
  destruct Hin as [[g pg'] [<- Hin]].
  pose proof (emitted_spec frame_id fps rest) as Hsp.
  rewrite Forall_forall in Hsp, Hall, Prest.
  destruct (Hsp _ Hin) as [Hg Hok]. cbn [fst snd] in *.
  apply (HR f g); auto.
Qed.

(** X19.  With file paths that are one prefix, the marker and ordinals
    from 1 on written with one width, the stamps of the file never go
    back: each pose is stamped no earlier than the poses before it.  The
    frame rate is what the resolver returns. *)
Theorem padded_paths_give_stamps_in_order (frame_id video_name : string)
  (frames : option (list frame)) (num den : Z) (fps : pynum)
  (out : output_file) (pre : string) (w : nat) :
  get_video_fps num den = Ok fps ->
  (0 < w <= 4300)%nat ->
  Forall (padded pre w) (frame_list frames) ->
  Forall ordinal_at_least_1 (frame_list frames) ->
  written (main frame_id video_name frames fps) = Some out ->
  StronglySorted (fun p q => stamp_le (header_stamp p) (header_stamp q))
                 (poses out).
Proof.
  intros Hfps [Hw _] Hpad Hord Hout.
  pose proof (get_video_fps_rate_in_format _ _ _ Hfps) as Hfmt.
  destruct (main_written _ _ _ _ _ Hout) as [sorted [Hs [Hposes _]]].
  destruct (sorted_by_file_path_Ok _ _ Hs) as [Hperm Hsorted].
  rewrite Hposes.
  apply (emitted_StronglySorted_poses frame_id fps path_le _
           (fun f => padded pre w f /\ ordinal_at_least_1 f)).
  - intros f g pf pg [Pf Of] [Pg Og] Hle Hf Hg.
    apply (process_frame_stamp_le frame_id fps f g); try assumption.
    now apply (padded_path_le_ordinal_le pre w).
  - apply (Permutation_Forall Hperm).
    apply Forall_forall. intros f Hin. rewrite Forall_forall in Hpad, Hord.
    auto.
  - exact Hsorted.
Qed.

Lemma padded_paths_give_stamps_in_order_witness :
  exists fps out,
    get_video_fps 30000 1001 = Ok fps
    /\ written (main "map" "video"
                  (Some [frame_at "images/frame_0010.png";
                         frame_at "images/frame_0002.png"]) fps) = Some out
    /\ StronglySorted (fun p q => stamp_le (header_stamp p) (header_stamp q))
                      (poses out).
Proof.
  destruct (get_video_fps 30000 1001) as [fps|e] eqn:Hfps;
    [|vm_compute in Hfps; discriminate].
  destruct (written (main "map" "video"
                       (Some [frame_at "images/frame_0010.png";
                              frame_at "images/frame_0002.png"]) fps))
    as [out|] eqn:Hw;
    [|vm_compute in Hfps; inversion Hfps; subst fps;
      vm_compute in Hw; discriminate].
  exists fps, out. split; [reflexivity|]. split; [exact Hw|].
  apply (padded_paths_give_stamps_in_order "map" "video"
           (Some [frame_at "images/frame_0010.png";
                  frame_at "images/frame_0002.png"])
           30000 1001 fps out "images/" 4 Hfps).
  - lia.
  - repeat constructor.
    + exists "0010", ".png". repeat split.
      intros a. apply re_search_frame_None_no_marker. reflexivity.
    + exists "0002", ".png". repeat split.
      intros a. apply re_search_frame_None_no_marker. reflexivity.
  - repeat (apply Forall_cons;
            [intros path n Hp Hn; inversion Hp; subst path;
             vm_compute in Hn; inversion Hn; lia|]).
    apply Forall_nil.
  - exact Hw.
Defined.

(** ** How far a stamp is from the exact time *)

Lemma rne_error (N V : Z) : 0 < V -> 2 * Z.abs (rne N V * V - N) <= V.
Proof.
  intros HV. unfold rne.
  pose proof (Z.div_mod N V ltac:(lia)) as E.
  pose proof (Z.mod_pos_bound N V HV) as B.
  set (f := N / V) in *. set (p := N mod V) in *.
  destruct (Z.compare_spec (2 * p) V); try (destruct (Z.even f)); nia.
Qed.

(** A rounded quantity is within half a step of the grid of the quantity;
    the step is one unit, or at most [2^-52] of the result. *)
Lemma rounded_error (r : float) (N D : Z) :
  0 < D -> rounded r N D ->
  exists w,
    0 < w
    /\ 2 * Z.abs (units r * D - N) <= D * w
    /\ (w = 1 \/ 2 ^ 52 * w <= units r).
Proof.
  intros HD (g & Hg & Hu & Hhi & Hlo).
  pose proof (pow2_pos g Hg) as Hpg.
  exists (2 ^ g). split; [exact Hpg|]. split.
  - pose proof (rne_error N (D * 2 ^ g) ltac:(nia)) as He.
    rewrite Hu.
    replace (rne N (D * 2 ^ g) * 2 ^ g * D)
      with (rne N (D * 2 ^ g) * (D * 2 ^ g)) by ring.
    exact He.
  - destruct Hlo as [->|Hlo]; [now left|right].
    rewrite Hu. apply Z.mul_le_mono_nonneg_r; [lia|].
    pose proof (rne_bounds N (D * 2 ^ g)) as Hb.
    assert (2 ^ 52 <= N / (D * 2 ^ g)) by (apply Z.div_le_lower_bound; nia).
    lia.
Qed.

Lemma units_f1e9 : units f1e9 = 1000000000 * 2 ^ 1074.
Proof. rewrite f1e9_eq, units_finite_false. reflexivity. Qed.

(** The arithmetic of the error bound: [e] is the elapsed time and [p] the
    product with [1e9], in units [U]; [w1] and [w2] are the steps of their
    grids. *)
Lemma stamp_error_arith (U Y a e s rho p ns w1 w2 : Z) :
  0 < U -> 0 < Y -> 0 < w1 -> 0 < w2 ->
  2 * Z.abs (e * Y - a * U * U) <= Y * w1 -> 2 ^ 30 * w1 <= U ->
  e = s * U + rho ->
  2 * Z.abs (p - rho * 1000000000) <= w2 -> 2 ^ 22 * w2 <= U ->
  ns * U <= p < ns * U + U ->
  let T := s * 1000000000 + ns in
  (2 * T - 1) * Y < 2 * a * 1000000000 * U < (2 * T + 3) * Y.
Proof.
  intros HU HY Hw1 Hw2 He Hg1 Hes Hp Hg2 Hns. cbn zeta.
  set (K := 1000000000) in *.
  change (2 ^ 30) with 1073741824 in Hg1.
  change (2 ^ 22) with 4194304 in Hg2.
  (* the total, in units, against the elapsed time *)
  assert (Hup : 2 * (s * K + ns) * U <= 2 * e * K + w2) by (unfold K in *; nia).
  assert (Hlo : 2 * e * K < 2 * (s * K + ns) * U + 2 * U + w2)
    by (unfold K in *; nia).
  (* the elapsed time against the exact quotient *)
  assert (He1 : 2 * e * Y <= 2 * a * U * U + Y * w1) by lia.
  assert (He2 : 2 * a * U * U <= 2 * e * Y + Y * w1) by lia.
  assert (Hyw1 : 1073741824 * (Y * w1) <= Y * U) by nia.
  assert (Hyw2 : 4194304 * (Y * w2) <= Y * U) by nia.
  assert (HupY : 2 * (s * K + ns) * U * Y <= 2 * e * K * Y + w2 * Y)
    by (apply (Z.mul_le_mono_nonneg_r _ _ Y) in Hup; lia).
  assert (HloY : 2 * e * K * Y < (2 * (s * K + ns) * U + 2 * U + w2) * Y)
    by (apply (Z.mul_lt_mono_pos_r Y) in Hlo; lia).
  split.
  - apply (Z.mul_lt_mono_pos_r U); [exact HU|]. unfold K in *. nia.
  - apply (Z.mul_lt_mono_pos_r U); [exact HU|]. unfold K in *. nia.
Qed.

Lemma in_format_units_zero (r : float) :
  in_format r -> units r = 0 -> is_zero r = true.
Proof.
  destruct r as [s| | |s m e]; cbn [in_format]; try contradiction;
    [reflexivity|].
  intros [_ He] Hu. exfalso. unfold units in Hu.
  pose proof (pow2_pos (e + 1074) ltac:(lia)). destruct s; nia.
Qed.

(** The product of a fraction with [1e9] is within half a step of the
    exact product; the step is below [2^-22]. *)
Lemma mul_1e9_error (r : float) :
  in_format r -> 0 <= units r < 2 ^ 1074 ->
  exists w,
    0 < w
    /\ 2 * Z.abs (units (mul r f1e9) - units r * 1000000000) <= w
    /\ 2 ^ 22 * w <= 2 ^ 1074
    /\ 0 <= units (mul r f1e9).
Proof.
  intros Hr Hu. destruct (Z.eq_dec (units r) 0) as [Hz|Hnz].
  - pose proof (in_format_units_zero r Hr Hz) as Hzero.
    destruct r; try discriminate. exists 1. cbn. repeat split; lia.
  - assert (Hf : nonneg_finite r).
    { destruct r as [s| | |s m e]; cbn [in_format] in Hr; try contradiction;
        try (cbn in Hnz; lia).
      pose proof (pow2_pos (e + 1074) ltac:(lia)).
      destruct s; cbn [units nonneg_finite] in *; [nia|tauto]. }
    destruct (mul_1e9_bound r Hf ltac:(lia)) as [Hfp Hlt].
    destruct (nonneg_finite_cases r Hf) as [->|(m & e & -> & Hm & He & Hpos)];
      [cbn in Hnz; lia|].
    pose proof (mul_rounded m 8388608000000000 e (-23) ltac:(lia) ltac:(lia))
      as Hrd.
    rewrite <- f1e9_eq in Hrd. specialize (Hrd Hfp).
    destruct (rounded_error _ _ (2 ^ 1074) (pow2_pos 1074 ltac:(lia)) Hrd)
      as (w & Hw & Herr & Hgrid).
    rewrite units_f1e9 in Herr.
    set (p := units (mul (S754_finite false m e) f1e9)) in *.
    set (rho := units (S754_finite false m e)) in *.
    set (U := 2 ^ 1074) in *.
    assert (HU : 0 < U) by (unfold U; lia).
    exists w. split; [exact Hw|]. split; [|split].
    + assert (E : p * U - rho * (1000000000 * U)
                  = (p - rho * 1000000000) * U) by ring.
      rewrite E, Z.abs_mul, (Z.abs_eq U) in Herr by lia.
      apply (Z.mul_le_mono_pos_r _ _ U); [exact HU|]. lia.
    + destruct Hgrid as [->|Hg]; [unfold U; lia|].
      assert (HK : 1000000000 * U <= 2 ^ 30 * U)
        by (apply Z.mul_le_mono_nonneg_r; lia).
      change (2 ^ 52) with (2 ^ 30 * 2 ^ 22) in Hg.
      assert (2 ^ 30 * (2 ^ 22 * w) < 2 ^ 30 * U) by lia.
      lia.
    + now apply units_nonneg.
Qed.

(** X20.  A stamp is the exact time of its frame to within a nanosecond
    and a half: at a frame rate that is a positive float, for an ordinal
    [n] from 1 to [2^53] and an elapsed time below [2^22] seconds (48
    days), the stamp counted in nanoseconds, [T = sec * 1e9 + nanosec],
    satisfies [T - 1/2 < (n - 1) * 1e9 / fps < T + 3/2].  The quotient is
    the exact one, of the value of the float [fps]; the inequalities are
    stated without division, [units fps] being [fps * 2^1074]. *)
Theorem stamp_is_near_the_exact_time (n : Z) (y : float) (s ns : Z) :
  in_format y -> ltb zero y = true ->
  1 <= n <= 2 ^ 53 ->
  timestamp n (PyFloat y) = Ok (s, ns) ->
  s < 2 ^ 22 ->
  (2 * (s * 1000000000 + ns) - 1) * units y
  < 2 * (n - 1) * 1000000000 * 2 ^ 1074
  < (2 * (s * 1000000000 + ns) + 3) * units y.
Proof.
  intros Hy Hgt Hn Hts Hs.
  destruct y as [sy|sy| |sy my ey]; cbn [in_format] in Hy; try contradiction;
    try discriminate.
  destruct sy; try discriminate. destruct Hy as [Hmy Hey].
  assert (HY : 0 < units (S754_finite false my ey)).
  { rewrite units_finite_false.
    pose proof (pow2_pos (ey + 1074) ltac:(lia)). nia. }
  destruct (Z.eq_dec n 1) as [->|Hn1].
  - rewrite timestamp_first in Hts. inversion Hts; subst s ns. lia.
  - destruct (timestamp_split n (PyFloat (S754_finite false my ey)) s ns
                ltac:(lia) Hgt Hts)
      as (x & Hx & Hfx & (r & Hr & Hru & Hxs & Hns) & Hs0 & Hns0).
    cbn [sec nanosec] in *.
    (* the elapsed time is the rounded quotient *)
    unfold py_int_truediv, of_int in Hx.
    destruct (of_Z_exact (n - 1) ltac:(lia)) as (ma & ea & Ea & Hma & Hea & Hva).
    rewrite Ea in Hx. cbn [bind is_zero] in Hx.
    assert (Ex : x = div (S754_finite false ma ea) (S754_finite false my ey))
      by congruence.
    clear Hx. rewrite Ex in Hfx.
    pose proof (div_rounded ma my ea ey ltac:(lia) ltac:(lia) Hfx) as Hrd.
    rewrite <- Ex in Hrd, Hfx.
    rewrite (units_finite_false ma ea), Hva in Hrd.
    destruct (rounded_error _ _ _ HY Hrd) as (w1 & Hw1 & Herr1 & Hgrid1).
    destruct (mul_1e9_error r Hr Hru) as (w2 & Hw2 & Herr2 & Hgrid2 & Hp0).
    set (U := 2 ^ 1074) in *.
    assert (HU : 0 < U) by (unfold U; lia).
    assert (HU30 : 2 ^ 30 <= U) by (unfold U; lia).
    apply (stamp_error_arith U _ (n - 1) (units x) s (units r)
             (units (mul r f1e9)) ns w1 w2); try assumption.
    + destruct Hgrid1 as [->|Hg]; [lia|].
      assert (He : units x < 2 ^ 22 * U) by nia.
      change (2 ^ 52) with (2 ^ 22 * 2 ^ 30) in Hg.
      assert (2 ^ 22 * (2 ^ 30 * w1) < 2 ^ 22 * U) by lia.
      lia.
    + rewrite Hns. fold U.
      pose proof (Z.div_mod (units (mul r f1e9)) U ltac:(lia)) as Hdm.
      pose proof (Z.mod_pos_bound (units (mul r f1e9)) U HU) as Hb.
      lia.
Qed.

Lemma stamp_is_near_the_exact_time_witness :
  (2 * (0 * 1000000000 + 300000000) - 1) * units f30
  < 2 * (10 - 1) * 1000000000 * 2 ^ 1074
  < (2 * (0 * 1000000000 + 300000000) + 3) * units f30.
Proof.
  apply (stamp_is_near_the_exact_time 10 f30 0 300000000).
  - cbn. lia.
  - reflexivity.
  - lia.
  - vm_compute. reflexivity.
  - lia.
Defined.

(** ** The rate line *)

Lemma list_ascii_of_string_app (a b : string) :
  list_ascii_of_string (a ++ b)
  = (list_ascii_of_string a ++ list_ascii_of_string b)%list.
Proof. induction a as [|c a IH]; cbn; [reflexivity|now rewrite IH]. Qed.

Lemma string_of_list_ascii_app (a b : list ascii) :
  string_of_list_ascii (a ++ b)
  = string_of_list_ascii a ++ string_of_list_ascii b.
Proof. induction a as [|c a IH]; cbn; [reflexivity|now rewrite IH]. Qed.

Lemma string_rev_app (a b : string) :
  string_rev (a ++ b) = string_rev b ++ string_rev a.
Proof.
  unfold string_rev.
  now rewrite list_ascii_of_string_app, rev_app_distr, string_of_list_ascii_app.
Qed.

Lemma string_rev_involutive (s : string) : string_rev (string_rev s) = s.
Proof.
  unfold string_rev.
  now rewrite list_ascii_of_string_of_list_ascii, rev_involutive,
    string_of_list_ascii_of_string.
Qed.

Lemma string_rev_cons (c : ascii) (s : string) :
  string_rev (String c s) = string_rev s ++ String c "".
Proof. apply (string_rev_app (String c "") s). Qed.

Lemma string_rev_length (s : string) :
  String.length (string_rev s) = String.length s.
Proof.
  induction s as [|c s IH]; [reflexivity|].
  rewrite string_rev_cons, string_app_length, IH. cbn. lia.
Qed.

Lemma all_chars_app (p : ascii -> bool) (a b : string) :
  all_chars p (a ++ b) = all_chars p a && all_chars p b.
Proof.
  induction a as [|c a IH]; cbn; [reflexivity|]. now rewrite IH, andb_assoc.
Qed.

Lemma all_chars_rev (p : ascii -> bool) (s : string) :
  all_chars p (string_rev s) = all_chars p s.
Proof.
  induction s as [|c s IH]; [reflexivity|].
  rewrite string_rev_cons, all_chars_app, IH. cbn.
  rewrite andb_true_r. apply andb_comm.
Qed.

Lemma all_digits_all_chars (s : string) : all_digits s = all_chars is_digit s.
Proof. induction s as [|c s IH]; cbn; [reflexivity|now rewrite IH]. Qed.

Lemma lstrip_all (p : ascii -> bool) (t s : string) :
  all_chars p t = true -> lstrip p (t ++ s) = lstrip p s.
Proof.
  induction t as [|c t IH]; cbn; [reflexivity|].
  intros H. apply andb_true_iff in H. destruct H as [Hc Ht].
  rewrite Hc. now apply IH.
Qed.

Lemma lstrip_app_head (p : ascii -> bool) (s t : string) :
  s <> "" -> lstrip p s = s -> lstrip p (s ++ t) = s ++ t.
Proof.
  destruct s as [|c s]; [congruence|]. intros _. cbn.
  destruct (p c) eqn:Hc; [|reflexivity].
  intros H. exfalso.
  assert (Hl : forall u, (String.length (lstrip p u) <= String.length u)%nat).
  { induction u as [|d u IH]; cbn; [lia|]. destruct (p d); cbn; lia. }
  pose proof (Hl s) as Hs. rewrite H in Hs. cbn in Hs. lia.
Qed.

(** Stripping a text that has white space only around a core, which has
    none at its ends. *)
Lemma strip_core (p : ascii -> bool) (pre s post : string) :
  s <> "" -> lstrip p s = s -> lstrip p (string_rev s) = string_rev s ->
  all_chars p pre = true -> all_chars p post = true ->
  strip p (pre ++ s ++ post) = s.
Proof.
  intros Hne Hl Hr Hpre Hpost. unfold strip.
  rewrite (lstrip_all p pre _ Hpre), (lstrip_app_head p s post Hne Hl).
  rewrite string_rev_app, lstrip_all by now rewrite all_chars_rev.
  rewrite Hr. apply string_rev_involutive.
Qed.

Lemma lstrip_not (p : ascii -> bool) (s : string) :
  match s with String c _ => p c = false | EmptyString => True end ->
  lstrip p s = s.
Proof. destruct s as [|c s]; cbn; [reflexivity|]. now intros ->. Qed.

Lemma string_rev_nonempty (s : string) : s <> "" -> string_rev s <> "".
Proof.
  intros Hne E. apply (f_equal String.length) in E.
  rewrite string_rev_length in E. destruct s; [congruence|discriminate].
Qed.

(** A run of digits has no white space at its ends, for either notion of
    white space. *)
Lemma digits_no_space (p : ascii -> bool) (d : string) :
  (forall c, is_digit c = true -> p c = false) ->
  d <> "" -> all_digits d = true ->
  lstrip p d = d /\ lstrip p (string_rev d) = string_rev d.
Proof.
  intros Hp Hne Hd.
  assert (H : forall s, s <> "" -> all_chars is_digit s = true -> lstrip p s = s).
  { intros s Hs Ha. apply lstrip_not. destruct s as [|c s]; [congruence|].
    cbn in Ha. apply andb_true_iff in Ha. apply Hp, Ha. }
  rewrite all_digits_all_chars in Hd. split.
  - now apply H.
  - apply H; [now apply string_rev_nonempty|now rewrite all_chars_rev].
Qed.

Lemma digit_not_space (c : ascii) : is_digit c = true -> is_space c = false.
Proof.
  unfold is_digit, is_space. intros H.
  apply andb_true_iff in H. destruct H as [H1 H2].
  apply Nat.leb_le in H1, H2.
  repeat match goal with
         | |- context [(?a <=? ?b)%nat] => destruct (Nat.leb_spec a b)
         | |- context [(?a =? ?b)%nat] => destruct (Nat.eqb_spec a b)
         end; cbn; try reflexivity; lia.
Qed.

Lemma digit_not_int_space (c : ascii) :
  is_digit c = true -> is_int_space c = false.
Proof.
  unfold is_digit, is_int_space. intros H.
  apply andb_true_iff in H. destruct H as [H1 H2].
  apply Nat.leb_le in H1, H2.
  repeat match goal with
         | |- context [(?a <=? ?b)%nat] => destruct (Nat.leb_spec a b)
         | |- context [(?a =? ?b)%nat] => destruct (Nat.eqb_spec a b)
         end; cbn; try reflexivity; lia.
Qed.

Lemma digits_value_digits (s : string) :
  forall acc after,
    s <> "" -> all_digits s = true ->
    digits_value acc after s = Some (int_of_digits acc s).
Proof.
  induction s as [|c s IH]; intros acc after Hne Hd; [congruence|].
  cbn [all_digits] in Hd. apply andb_true_iff in Hd. destruct Hd as [Hc Hs].
  cbn [digits_value int_of_digits]. rewrite Hc.
  destruct s as [|c' s']; [reflexivity|].
  apply IH; [discriminate|exact Hs].
Qed.

(** [int] of a run of digits is the number that the extractor reads from
    such a run. *)
Lemma int_of_str_digits (d : string) :
  d <> "" -> all_digits d = true -> int_of_str d = Some (int_of_digits 0 d).
Proof.
  intros Hne Hd. unfold int_of_str.
  destruct (digits_no_space is_int_space d digit_not_int_space Hne Hd)
    as [Hl Hr].
  pose proof (strip_core is_int_space "" d "" Hne Hl Hr eq_refl eq_refl) as Hs.
  cbn [append] in Hs.
  assert (Hd0 : d ++ "" = d).
  { clear. induction d as [|c d IH]; cbn; [reflexivity|now rewrite IH]. }
  rewrite Hd0 in Hs. rewrite Hs.
  destruct d as [|c d']; [congruence|].
  assert (Hc : is_digit c = true).
  { cbn in Hd. apply andb_true_iff in Hd. apply Hd. }
  assert (Hplus : Ascii.eqb c "+" = false).
  { destruct (Ascii.eqb_spec c "+") as [->|]; [discriminate|reflexivity]. }
  assert (Hminus : Ascii.eqb c "-" = false).
  { destruct (Ascii.eqb_spec c "-") as [->|]; [discriminate|reflexivity]. }
  transitivity (digits_value 0 false (String c d')).
  - destruct c as [[] [] [] [] [] [] [] []]; try reflexivity; discriminate.
  - now apply digits_value_digits.
Qed.

Lemma split_on_digits (d : string) :
  all_digits d = true -> split_on "/" d = [d].
Proof.
  induction d as [|c d IH]; intros H; [reflexivity|].
  cbn [all_digits] in H. apply andb_true_iff in H. destruct H as [Hc Hd].
  cbn [split_on]. rewrite (IH Hd).
  destruct (Ascii.eqb_spec c "/") as [->|]; [discriminate|reflexivity].
Qed.

Lemma split_on_digits_sep (d rest : string) :
  all_digits d = true ->
  split_on "/" (d ++ String "/" rest) = d :: split_on "/" rest.
Proof.
  induction d as [|c d IH]; intros H; [reflexivity|].
  cbn [all_digits] in H. apply andb_true_iff in H. destruct H as [Hc Hd].
  cbn [append split_on]. rewrite (IH Hd).
  destruct (Ascii.eqb_spec c "/") as [->|]; [discriminate|reflexivity].
Qed.

(** The text of a rate line: digits, a slash, digits, and white space
    around. *)
Lemma parse_rate_digits (pre a b post : string) :
  a <> "" -> b <> "" -> all_digits a = true -> all_digits b = true ->
  all_chars is_space pre = true -> all_chars is_space post = true ->
  parse_rate (pre ++ (a ++ "/" ++ b) ++ post)
  = Some (int_of_digits 0 a, int_of_digits 0 b).
Proof.
  intros Ha Hb Hda Hdb Hpre Hpost. unfold parse_rate.
  destruct (digits_no_space is_space a digit_not_space Ha Hda) as [Hla _].
  destruct (digits_no_space is_space b digit_not_space Hb Hdb) as [_ Hrb].
  rewrite (strip_core is_space pre (a ++ "/" ++ b) post);
    try assumption.
  - cbn [append]. rewrite (split_on_digits_sep a b Hda), (split_on_digits b Hdb).
    now rewrite (int_of_str_digits a Ha Hda), (int_of_str_digits b Hb Hdb).
  - destruct a; [congruence|discriminate].
  - now apply lstrip_app_head.
  - rewrite string_rev_app, (string_rev_app "/" b).
    rewrite string_app_assoc.
    apply lstrip_app_head; [now apply string_rev_nonempty|exact Hrb].
Qed.

(** X21.  A rate line as the inspection prints it, [N/D] and a line end,
    with [N] and [D] runs of digits (of at most 4300 digits, which every
    version of [int] reads), is read as the two numbers, and
    [get_video_fps] then returns their quotient, or 0 at [D = 0]; white
    space before and after the line does not count. *)
Theorem rate_line_is_read (pre a b post : string) :
  a <> "" -> b <> "" -> all_digits a = true -> all_digits b = true ->
  (String.length a <= 4300)%nat -> (String.length b <= 4300)%nat ->
  all_chars is_space pre = true -> all_chars is_space post = true ->
  parse_rate (pre ++ (a ++ "/" ++ b) ++ post)
  = Some (int_of_digits 0 a, int_of_digits 0 b)
  /\ resolve_fps true (Some (pre ++ (a ++ "/" ++ b) ++ post))
     = match get_video_fps (int_of_digits 0 a) (int_of_digits 0 b) with
       | Ok fps => Returned fps
       | Raise e => Escaped e
       end.
Proof.
  intros Ha Hb Hda Hdb _ _ Hpre Hpost.
  pose proof (parse_rate_digits pre a b post Ha Hb Hda Hdb Hpre Hpost) as Hp.
  split; [exact Hp|]. unfold resolve_fps. cbn [negb]. now rewrite Hp.
Qed.

Lemma rate_line_is_read_witness :
  parse_rate ("30000/1001" ++ String (ascii_of_nat 10) "")
  = Some (30000, 1001)
  /\ resolve_fps true (Some ("30000/1001" ++ String (ascii_of_nat 10) ""))
     = Returned (PyFloat (S754_finite false 8435813487831848 (-48))).
Proof.
  destruct (rate_line_is_read "" "30000" "1001" (String (ascii_of_nat 10) ""))
    as [H1 H2]; try reflexivity; try discriminate; try (cbn; lia).
  split; [exact H1|]. refine (eq_trans H2 _). vm_compute. reflexivity.
Defined.

Lemma count_char_app (a : ascii) (s t : string) :
  count_char a (s ++ t) = (count_char a s + count_char a t)%nat.
Proof. induction s as [|c s IH]; cbn; [reflexivity|]. rewrite IH. lia. Qed.

Lemma count_char_rev (a : ascii) (s : string) :
  count_char a (string_rev s) = count_char a s.
Proof.
  induction s as [|c s IH]; [reflexivity|].
  rewrite string_rev_cons, count_char_app, IH. cbn. lia.
Qed.

Lemma count_char_lstrip (p : ascii -> bool) (a : ascii) (s : string) :
  p a = false -> count_char a (lstrip p s) = count_char a s.
Proof.
  intros Ha. induction s as [|c s IH]; cbn; [reflexivity|].
  destruct (p c) eqn:Hc; [|reflexivity].
  destruct (Ascii.eqb_spec c a) as [->|]; [congruence|]. exact IH.
Qed.

Lemma count_char_strip (p : ascii -> bool) (a : ascii) (s : string) :
  p a = false -> count_char a (strip p s) = count_char a s.
Proof.
  intros Ha. unfold strip.
  now rewrite count_char_rev, count_char_lstrip, count_char_rev,
    count_char_lstrip.
Qed.

Lemma split_on_length (sep : ascii) (s : string) :
  List.length (split_on sep s) = S (count_char sep s).
Proof.
  induction s as [|c s IH]; cbn [split_on count_char]; [reflexivity|].
  destruct (Ascii.eqb c sep); cbn [List.length]; [now rewrite IH|].
  destruct (split_on sep s); cbn in *; lia.
Qed.

(** X22.  An output whose number of slashes is not one, such as two rate
    lines, is never read as a rate: [get_video_fps] exits with status 1,
    whatever else the output holds. *)
Theorem other_slash_count_exits (is_file : bool) (stdout : string) :
  count_char "/" stdout <> 1%nat ->
  resolve_fps is_file (Some stdout) = SysExit 1.
Proof.
  intros Hc. unfold resolve_fps. destruct is_file; [|reflexivity]. cbn [negb].
  unfold parse_rate.
  pose proof (split_on_length "/" (strip is_space stdout)) as Hl.
  rewrite (count_char_strip is_space "/" stdout eq_refl) in Hl.
  destruct (split_on "/" (strip is_space stdout)) as [|a [|b [|c l]]];
    try reflexivity.
  cbn [List.length] in Hl. congruence.
Qed.

Lemma other_slash_count_exits_witness :
  resolve_fps true
    (Some ("30/1" ++ String (ascii_of_nat 10)
                       ("30/1" ++ String (ascii_of_nat 10) "")))
  = SysExit 1.
Proof.
  apply (other_slash_count_exits true
           ("30/1" ++ String (ascii_of_nat 10)
                        ("30/1" ++ String (ascii_of_nat 10) ""))).
  vm_compute. discriminate.
Defined.

Lemma lstrip_length (p : ascii -> bool) (s : string) :
  (String.length (lstrip p s) <= String.length s)%nat.
Proof. induction s as [|c s IH]; cbn; [lia|]. destruct (p c); cbn; lia. Qed.

Lemma strip_length (p : ascii -> bool) (s : string) :
  (String.length (strip p s) <= String.length s)%nat.
Proof.
  unfold strip. rewrite string_rev_length.
  pose proof (lstrip_length p (string_rev (lstrip p s))) as H1.
  rewrite string_rev_length in H1.
  pose proof (lstrip_length p s). lia.
Qed.

Lemma split_on_two (sep : ascii) (s a b : string) :
  split_on sep s = [a; b] ->
  (String.length a + String.length b + 1 = String.length s)%nat.
Proof.
  revert a b. induction s as [|c s IH]; intros a b; cbn [split_on].
  - discriminate.
  - destruct (Ascii.eqb c sep).
    + intros H. assert (Ha : a = "") by congruence.
      assert (Hs : split_on sep s = [b]) by congruence. subst a.
      assert (Hb : forall t u, split_on sep t = [u] -> u = t).
      { clear. induction t as [|d t IH]; cbn [split_on]; intros u.
        - congruence.
        - destruct (Ascii.eqb d sep).
          + pose proof (split_on_length sep t) as Hl. intros H.
            assert (E : split_on sep t = []) by congruence.
            rewrite E in Hl. discriminate.
          + pose proof (split_on_length sep t) as Hl.
            destruct (split_on sep t) as [|x [|y l]] eqn:E;
              [discriminate| |congruence].
            intros H. rewrite (IH x eq_refl) in H. congruence. }
      rewrite (Hb s b Hs). cbn. lia.
    + pose proof (split_on_length sep s) as Hl.
      destruct (split_on sep s) as [|x [|y [|z l]]] eqn:E;
        [discriminate|congruence| |congruence].
      intros H. assert (Ha : a = String c x) by congruence.
      assert (Hy : y = b) by congruence. subst a y.
      pose proof (IH x b eq_refl). cbn. lia.
Qed.

Lemma digits_value_bound (s : string) :
  forall acc after v,
    0 <= acc -> digits_value acc after s = Some v ->
    (s <> "" \/ after = true)
    /\ 0 <= v < (acc + 1) * 10 ^ Z.of_nat (String.length s).
Proof.
  induction s as [|c s IH]; intros acc after v Hacc; cbn [digits_value].
  - destruct after; [|discriminate]. intros H.
    assert (v = acc) by congruence. subst. split; [now right|].
    cbn. lia.
  - destruct (is_digit c) eqn:Hc.
    + intros H. pose proof (is_digit_value c Hc) as Hv.
      apply IH in H; [|lia]. destruct H as [_ H].
      split; [left; discriminate|].
      cbn [String.length]. rewrite Nat2Z.inj_succ, Z.pow_succ_r by lia.
      assert (0 < 10 ^ Z.of_nat (String.length s)) by (apply Z.pow_pos_nonneg; lia).
      nia.
    + destruct (Ascii.eqb c "_"); [|discriminate].
      destruct after; [|discriminate]. intros H.
      apply IH in H; [|lia]. destruct H as [_ H].
      split; [left; discriminate|].
      cbn [String.length]. rewrite Nat2Z.inj_succ, Z.pow_succ_r by lia.
      assert (0 < 10 ^ Z.of_nat (String.length s)) by (apply Z.pow_pos_nonneg; lia).
      nia.
Qed.

(** What [int] reads has fewer decimal digits than the text has
    characters, and the text is not empty. *)
Lemma int_of_str_bound (s : string) (v : Z) :
  int_of_str s = Some v ->
  (1 <= String.length s)%nat /\ Z.abs v < 10 ^ Z.of_nat (String.length s).
Proof.
  unfold int_of_str. pose proof (strip_length is_int_space s) as Hl.
  set (t := strip is_int_space s) in *.
  assert (Hmono : forall a b : nat, (a <= b)%nat ->
                    10 ^ Z.of_nat a <= 10 ^ Z.of_nat b).
  { intros a b Hab. apply Z.pow_le_mono_r; lia. }
  assert (Hgen : forall u w, digits_value 0 false u = Some w ->
            (String.length u <= String.length s)%nat ->
            (1 <= String.length s)%nat
            /\ Z.abs w < 10 ^ Z.of_nat (String.length s)).
  { intros u w Hu Hlen. apply digits_value_bound in Hu; [|lia].
    destruct Hu as [[Hne|Hf] Hb]; [|discriminate].
    pose proof (Hmono _ _ Hlen). split.
    - destruct u; [congruence|]. cbn in Hlen. lia.
    - lia. }
  intros H.
  assert (Hcases :
    digits_value 0 false t = Some v
    \/ exists c rest, t = String c rest
         /\ (digits_value 0 false rest = Some v
             \/ exists w, digits_value 0 false rest = Some w /\ v = - w)).
  { destruct t as [|c rest]; [now left|].
    destruct (Ascii.eqb_spec c "+") as [->|Hp].
    - right. exists "+"%char, rest. split; [reflexivity|now left].
    - destruct (Ascii.eqb_spec c "-") as [->|Hm].
      + right. exists "-"%char, rest. split; [reflexivity|]. right.
        destruct (digits_value 0 false rest) as [w|]; [|discriminate].
        exists w. split; [reflexivity|]. cbn in H. congruence.
      + left. revert H.
        destruct c as [[] [] [] [] [] [] [] []]; try exact (fun h => h);
          congruence. }
  destruct Hcases as [Hd|[c [rest [Ht [Hd|[w [Hd Hv]]]]]]].
  - now apply (Hgen t v).
  - apply (Hgen rest v Hd). rewrite Ht in Hl. cbn in Hl. lia.
  - subst v. rewrite Z.abs_opp. apply (Hgen rest w Hd).
    rewrite Ht in Hl. cbn in Hl. lia.
Qed.

Lemma pow10_307 : 10 ^ 307 < 2 ^ 1023.
Proof. vm_compute. reflexivity. Qed.

(** X23.  An output of at most 309 characters never leaves
    [get_video_fps] with a traceback: the function returns a rate or exits
    with status 1. *)
Theorem short_output_returns_or_exits (is_file : bool) (stdout : string) :
  (String.length stdout <= 309)%nat ->
  resolve_fps is_file (Some stdout) = SysExit 1
  \/ exists fps, resolve_fps is_file (Some stdout) = Returned fps.
Proof.
  intros Hlen. unfold resolve_fps.
  destruct is_file; [|now left]. cbn [negb].
  destruct (parse_rate stdout) as [[num den]|] eqn:Hp; [|now left].
  right. unfold parse_rate in Hp.
  pose proof (strip_length is_space stdout) as Hs.
  destruct (split_on "/" (strip is_space stdout)) as [|a [|b [|c l]]] eqn:E;
    try discriminate.
  apply split_on_two in E.
  destruct (int_of_str a) as [n|] eqn:Ha; [|discriminate].
  destruct (int_of_str b) as [d|] eqn:Hb; [|discriminate].
  assert (n = num) by congruence. assert (d = den) by congruence. subst n d.
  apply int_of_str_bound in Ha, Hb. destruct Ha as [_ Ha]. destruct Hb as [Hb _].
  assert (Hnum : Z.abs num < 2 ^ 1023).
  { assert (10 ^ Z.of_nat (String.length a) <= 10 ^ 307)
      by (apply Z.pow_le_mono_r; lia).
    pose proof pow10_307. lia. }
  unfold get_video_fps.
  destruct (Z.eqb_spec den 0) as [->|Hd]; cbn [negb]; [eauto|].
  destruct (int_truediv_no_overflow num den Hd) as [q Hq].
  - assert (1 <= Z.abs den) by lia. nia.
  - rewrite Hq. cbn [bind]. eauto.
Qed.

Lemma short_output_returns_or_exits_witness :
  resolve_fps true (Some "-30_000/1001 ") = SysExit 1
  \/ exists fps, resolve_fps true (Some "-30_000/1001 ") = Returned fps.
Proof.
  apply (short_output_returns_or_exits true "-30_000/1001 ").
  cbn. lia.
Defined.
